(** * Financial document ingestion: event-sourced status, validation and
      number parsing

    A shallow embedding of the decision logic of the ingestion service:
    - [StatusHandler]: status, progress and timestamps replayed from the
      processing log ([src/ingestion/functions/status_handler.py]);
    - [RetryHandler]: retry eligibility
      ([src/ingestion/functions/retry_handler.py]);
    - [Validator]: the validation result and the four validation passes
      ([src/ingestion/services/validator.py]);
    - [ConfidenceScorer]: the review flag
      ([src/ingestion/utils/confidence_scorer.py]);
    - [NumberParser]: the parser of financial numbers
      ([src/ingestion/utils/number_parser.py]), over [Str] and [PyFloat],
      the string methods and the [float] conversion it calls.

    Conventions.  A Python [set] of event types is a [gset string], a [dict]
    with string keys is a [gmap string _], a [list] is a [list].  A finite
    [float] is held as the rational number it is ([Q]).  Comparisons are
    exact.  The arithmetic of the number parser and of relationship
    validation is that of binary64: [float(text)], the product with the
    magnitude multiplier and the differences and products of metric values
    are rounded to the nearest float ([Binary64.round]).  Confidences are
    averaged and scaled exactly.  The text the parser reads is a list of
    bytes (UTF-8); messages are [string]s. *)

From Stdlib Require Import Ascii String QArith Qround Qabs Qminmax Qpower Qfield Lqa.
From stdpp Require Import gmap strings list sorting pretty.

Open Scope string_scope.

(** [int(x)] on a float: truncation toward zero. *)
Definition py_int (x : Q) : Z := Z.quot (Qnum x) (Zpos (Qden x)).

(** [x < y] on numbers, as a boolean. *)
Definition Qltb (x y : Q) : bool := negb (Qle_bool y x).

(** ** Processing log entries

    One document of the processing-logs container, as written by
    [ProcessingLog.model_dump(mode="json")]: every key is present, and
    [event_data] is either a dictionary or JSON [null] ([None] here).  Payload
    values are strings. *)
Module ProcessingLog.

Record t : Type := mk {
  event_type : string;
  event_timestamp : string;
  event_data : option (gmap string string)
}.

End ProcessingLog.

Abbreviation log := ProcessingLog.t.

(** [e in events] for a set of event types. *)
Definition event_in (e : string) (events : gset string) : bool :=
  bool_decide (e ∈ events).

(** [{log.get("event_type") for log in processing_logs}] *)
Definition event_types (processing_logs : list log) : gset string :=
  list_to_set (ProcessingLog.event_type <$> processing_logs).

(** Truthiness of a string-valued optional ([None] and [""] are falsy). *)
Definition truthy (o : option string) : bool :=
  match o with
  | Some s => negb (String.eqb s "")
  | None => false
  end.

(** [o or d]: the first operand when it is truthy, else the second. *)
Definition py_or (o : option string) (d : string) : string :=
  match o with
  | Some s => if String.eqb s "" then d else s
  | None => d
  end.

(** ** services/cosmos_manager.py *)
Module CosmosManager.

(** [query_processing_logs_by_document] on a container whose entries for
    the document are [stored], newest first (the order the query asks for).
    A [limit] that is [None] or [0] adds no [LIMIT] to the query. *)
Definition query_processing_logs_by_document
    (stored : list log) (limit : option nat) : list log :=
  match limit with
  | Some (S n) => take (S n) stored
  | Some O | None => stored
  end.

End CosmosManager.

(** ** status_handler.py *)
Module StatusHandler.

Record progress : Type := mk_progress {
  current_stage : string;
  stages_completed : list string;
  completion_percentage : Z
}.

Record timestamps : Type := mk_timestamps {
  uploaded_at : option string;
  started_processing_at : option string;
  completed_at : option string
}.

Record status_info : Type := mk_status_info {
  document_id : string;
  status : string;
  progress_of : progress;
  timestamps_of : timestamps
}.

(** The stages in order, each with the events that trigger it. *)
Definition stages : list (string * list string) :=
  [ ("upload", ["queued"]);
    ("ingestion", ["ingestion_started"]);
    ("extraction", ["extraction_started"; "extraction_completed"]);
    ("validation", ["validation_started"; "validation_completed"]) ].

(** One iteration of the loop over [stages]; the accumulator is
    [(completed_stages, current_stage)]. *)
Definition stage_step (events : gset string)
    (acc : list string * option string) (stage : string * list string)
    : list string * option string :=
  let '(stage_name, stage_events) := stage in
  if existsb (fun event => event_in event events) stage_events
  then ((acc.1 ++ [stage_name])%list, Some stage_name)
  else acc.

Definition _calculate_progress (events : gset string) : progress :=
  let '(completed_stages, current_stage) :=
    foldl (stage_step events) ([], None) stages in
  let total_stages := length stages in
  let completion_percentage :=
    py_int ((inject_Z (Z.of_nat (length completed_stages))
             / inject_Z (Z.of_nat total_stages)) * 100) in
  {| current_stage := py_or current_stage "queued";
     stages_completed := completed_stages;
     completion_percentage := completion_percentage |}.

(** One iteration of the oldest-first loop of [_extract_timestamps]. *)
Definition timestamp_step (ts : timestamps) (l : log) : timestamps :=
  let event_type := ProcessingLog.event_type l in
  let event_time := ProcessingLog.event_timestamp l in
  let ts1 :=
    if (String.eqb event_type "queued" || String.eqb event_type "ingestion_started")
       && negb (truthy (uploaded_at ts))
    then mk_timestamps (Some event_time) (started_processing_at ts) (completed_at ts)
    else ts in
  let ts2 :=
    if String.eqb event_type "extraction_started"
       && negb (truthy (started_processing_at ts1))
    then mk_timestamps (uploaded_at ts1) (Some event_time) (completed_at ts1)
    else ts1 in
  if String.eqb event_type "validation_completed"
  then mk_timestamps (uploaded_at ts2) (started_processing_at ts2) (Some event_time)
  else ts2.

Definition _extract_timestamps (processing_logs : list log) : timestamps :=
  foldl timestamp_step (mk_timestamps None None None) (reverse processing_logs).

Definition _determine_status_from_logs
    (processing_logs : list log) (document_id : string) : status_info :=
  let all_events := event_types processing_logs in
  let status :=
    if event_in "failed" all_events then "failed"
    else if event_in "validation_completed" all_events then "completed"
    else if event_in "validation_started" all_events
            || event_in "extraction_started" all_events then "processing"
    else if event_in "queued" all_events
            || event_in "ingestion_started" all_events then "queued"
    else "unknown" in
  {| document_id := document_id;
     status := status;
     progress_of := _calculate_progress all_events;
     timestamps_of := _extract_timestamps processing_logs |}.

(** What [_get_error_details] gives: a message, [None], or the
    [AttributeError] of calling [get] on a [null] payload. *)
Inductive error_details : Type :=
| ErrorMessage (message : string)
| NoDetails
| AttributeError.

Fixpoint _get_error_details (processing_logs : list log) : error_details :=
  match processing_logs with
  | [] => NoDetails
  | l :: rest =>
    if String.eqb (ProcessingLog.event_type l) "failed" then
      match ProcessingLog.event_data l with
      | Some event_data =>
        ErrorMessage (default "Unknown error occurred" (event_data !! "error"))
      | None => AttributeError
      end
    else _get_error_details rest
  end.

(** *** The status cache

    [_status_cache] maps a document to the cached data and the time it was
    cached at.  The clock ([datetime.utcnow()], in seconds) is an argument
    of the two functions, which return the cache they leave behind. *)
Definition CACHE_TTL_SECONDS : Q := 10.

Definition status_cache (A : Type) : Type := gmap string (A * Q).

Definition _get_cached_status {A} (now : Q) (document_id : string)
    (cache : status_cache A) : option A * status_cache A :=
  match cache !! document_id with
  | Some (cached_data, cached_time) =>
    let age_seconds := (now - cached_time)%Q in
    if Qltb age_seconds CACHE_TTL_SECONDS
    then (Some cached_data, cache)
    else (None, delete document_id cache)
  | None => (None, cache)
  end.

Definition _cache_status {A} (now : Q) (document_id : string)
    (status_info : A) (cache : status_cache A) : status_cache A :=
  <[document_id := (status_info, now)]> cache.

End StatusHandler.

(** ** retry_handler.py *)
Module RetryHandler.

(** What [cosmos_manager.query_processing_logs_by_document] gives: the logs
    of the document, newest first, or a [StorageError] with its text. *)
Inductive query_outcome : Type :=
| Logs (processing_logs : list log)
| StorageError (message : string).

Record eligibility : Type := mk_eligibility {
  eligible : bool;
  reason : string;
  current_status : string;
  retry_count : option nat;
  document_info : option (gmap string string)
}.

(** Text of the [TypeError] raised by [key in None]. *)
Definition none_not_iterable : string :=
  "argument of type 'NoneType' is not iterable".

(** The loop [for log in reversed(processing_logs)], started on the
    remaining logs (oldest first) and the [document_info] built so far.
    [None] is the [TypeError] of a [null] payload. *)
Fixpoint scan_document_info (oldest_first : list log)
    (document_info : gmap string string) : option (gmap string string) :=
  match oldest_first with
  | [] => Some document_info
  | l :: rest =>
    match ProcessingLog.event_data l with
    | None => None
    | Some event_data =>
      let info1 :=
        match event_data !! "document_name" with
        | Some v => <["document_name" := v]> document_info
        | None => document_info
        end in
      let info2 :=
        match event_data !! "document_type" with
        | Some v => <["document_type" := v]> info1
        | None => info1
        end in
      if truthy (info2 !! "document_name") && truthy (info2 !! "document_type")
      then Some info2
      else scan_document_info rest info2
    end
  end.

(** [sum(1 for log in processing_logs if log.get("event_type") == "retry_initiated")] *)
Definition count_retries (processing_logs : list log) : nat :=
  length (filter (fun l => ProcessingLog.event_type l = "retry_initiated")
                 processing_logs).

Definition _check_retry_eligibility (q : query_outcome) : eligibility :=
  match q with
  | StorageError message =>
    mk_eligibility false ("Failed to check eligibility: " +:+ message)
                   "unknown" None None
  | Logs processing_logs =>
    match processing_logs with
    | [] =>
      mk_eligibility false "Document not found in processing logs"
                     "unknown" None None
    | _ :: _ =>
      let event_types := event_types processing_logs in
      if negb (event_in "failed" event_types) then
        if event_in "validation_completed" event_types
        then mk_eligibility false
               "Document processing already completed successfully"
               "completed" None None
        else mk_eligibility false
               "Document is still processing or not in failed state"
               "processing" None None
      else
        match scan_document_info (reverse processing_logs) ∅ with
        | None =>
          mk_eligibility false
            ("Failed to check eligibility: " +:+ none_not_iterable)
            "unknown" None None
        | Some document_info =>
          if bool_decide (document_info = ∅)
          then mk_eligibility false
                 "Document metadata not found in processing logs"
                 "failed" None None
          else
            let retry_count := count_retries processing_logs in
            if Nat.leb 5 retry_count
            then mk_eligibility false
                   "Maximum retry attempts exceeded (5 retries already attempted)"
                   "failed" (Some retry_count) None
            else mk_eligibility true
                   "Document failed and is eligible for retry"
                   "failed" None (Some document_info)
        end
    end
  end.

Definition _get_retry_count (q : query_outcome) : nat :=
  match q with
  | Logs processing_logs => count_retries processing_logs
  | StorageError _ => 0
  end.

End RetryHandler.

(** ** Python floats

    A [float] is a binary64 number: a finite number, held as the rational
    it is, an infinity or a NaN.  The sign of a zero is not kept. *)
Inductive pyfloat : Type :=
| Finite (q : Q)
| Infinity (negative : bool)
| NaN.

(** *** Rounding to binary64

    53 bits of precision, exponents from -1022 to 1023, subnormal numbers
    down to [2 ^ -1074], round to nearest with ties to even, overflow to
    infinity. *)
Module Binary64.

(** [floor(log2 q)] for a positive [q]. *)
Definition exponent (q : Q) : Z :=
  let e := (Z.log2 (Qnum q) - Z.log2 (Zpos (Qden q)))%Z in
  if Qle_bool (2 ^ e) q then e else (e - 1)%Z.

(** The integer nearest to [x]; of two that are equally near, the even
    one. *)
Definition round_half_even (x : Q) : Z :=
  let f := Qfloor x in
  match (x - inject_Z f ?= 1 # 2)%Q with
  | Lt => f
  | Gt => (f + 1)%Z
  | Eq => if Z.even f then f else (f + 1)%Z
  end.

(** The float nearest to [q]: a multiple of the unit in the last place of
    the binade of [q], or an infinity when that multiple reaches
    [2 ^ 1024]. *)
Definition round (q : Q) : pyfloat :=
  let q := Qred q in
  if Qeq_bool q 0 then Finite 0
  else
    let e := Z.max (exponent (Qabs q)) (-1022) in
    let ulp := (2 ^ (e - 52))%Q in
    let m := round_half_even (Qabs q / ulp) in
    let r := (inject_Z m * ulp)%Q in
    if Qle_bool (2 ^ 1024) r then Infinity (Qltb q 0)
    else Finite (Qred (if Qltb q 0 then - r else r)).

(** The value of the float literal written [q]. *)
Definition literal (q : Q) : Q :=
  match round q with
  | Finite v => v
  | _ => 0%Q
  end.

End Binary64.

(** *** Float arithmetic *)

(** [-x] *)
Definition pyfloat_neg (x : pyfloat) : pyfloat :=
  match x with
  | Finite q => Finite (- q)%Q
  | Infinity negative => Infinity (negb negative)
  | NaN => NaN
  end.

(** [abs(x)] *)
Definition pyfloat_abs (x : pyfloat) : pyfloat :=
  match x with
  | Finite q => Finite (Qabs q)
  | Infinity _ => Infinity false
  | NaN => NaN
  end.

(** [x - y] *)
Definition pyfloat_sub (x y : pyfloat) : pyfloat :=
  match x, y with
  | Finite a, Finite b => Binary64.round (a - b)
  | Finite _, Infinity negative => Infinity (negb negative)
  | Infinity negative, Finite _ => Infinity negative
  | Infinity negative, Infinity negative' =>
    if Bool.eqb negative negative' then NaN else Infinity negative
  | NaN, _ | _, NaN => NaN
  end.

(** [x * y] *)
Definition pyfloat_mul (x y : pyfloat) : pyfloat :=
  match x, y with
  | Finite a, Finite b => Binary64.round (a * b)
  | Finite a, Infinity negative | Infinity negative, Finite a =>
    if Qeq_bool a 0 then NaN else Infinity (xorb negative (Qltb a 0))
  | Infinity negative, Infinity negative' => Infinity (xorb negative negative')
  | NaN, _ | _, NaN => NaN
  end.

(** [x < y]: false when either is a NaN. *)
Definition pyfloat_lt (x y : pyfloat) : bool :=
  match x, y with
  | Finite a, Finite b => Qltb a b
  | Finite _, Infinity negative => negb negative
  | Infinity negative, Finite _ => negative
  | Infinity negative, Infinity negative' => negative && negb negative'
  | NaN, _ | _, NaN => false
  end.

(** [max(x, y)]: the first argument unless the second is strictly
    greater. *)
Definition pyfloat_max (x y : pyfloat) : pyfloat :=
  if pyfloat_lt x y then y else x.

(** [x * m] for a multiplier [m] that is an integer or [1.0]. *)
Definition pyfloat_scale (x : pyfloat) (m : Q) : pyfloat :=
  pyfloat_mul x (Finite m).

(** ** Number formatting

    The messages of the validator embed numbers through Python's format
    specifications.  Their digits play no part in any decision, so the three
    renderings are taken as given. *)
Record float_format : Type := mk_float_format {
  fmt_grouped2 : Q -> string;   (* format(x, ",.2f") *)
  fmt_fixed2 : Q -> string;     (* format(x, ".2f") *)
  fmt_str : Q -> string         (* str(x) *)
}.

(** A format specification on a float: the infinities and NaN are written
    by name. *)
Definition fmt_float (fmt : Q -> string) (x : pyfloat) : string :=
  match x with
  | Finite q => fmt q
  | Infinity false => "inf"
  | Infinity true => "-inf"
  | NaN => "nan"
  end.

(** A formatter to run examples with: numerator, slash, denominator. *)
Definition fraction_format : float_format :=
  let show (x : Q) := pretty (Qnum x) +:+ "/" +:+ pretty (Zpos (Qden x)) in
  mk_float_format show show show.

(** [max(a, b)]: the first argument unless the second is strictly greater. *)
Definition py_max (a b : Q) : Q := if Qltb a b then b else a.

(** [sep.join(items)] *)
Fixpoint join (sep : string) (items : list string) : string :=
  match items with
  | [] => ""
  | [x] => x
  | x :: rest => x +:+ sep +:+ join sep rest
  end.

(** ** shared/config.py: the two confidence thresholds *)
Record config : Type := mk_config {
  ocr_confidence_threshold_document : Q;
  ocr_confidence_threshold_metric : Q
}.

(** The values when the environment sets neither. *)
Definition default_config : config := mk_config 0.75 0.70.

(** ** services/validator.py *)
Module Validator.

Record ValidationResult : Type := mk_result {
  errors : list string;
  warnings : list string;
  validation_status : string
}.

(** [ValidationResult()] *)
Definition new_result : ValidationResult := mk_result [] [] "passed".

Definition add_error (self : ValidationResult) (error : string) : ValidationResult :=
  mk_result (errors self ++ [error])%list (warnings self) "failed".

Definition add_warning (self : ValidationResult) (warning : string) : ValidationResult :=
  mk_result (errors self) (warnings self ++ [warning])%list
            (if String.eqb (validation_status self) "passed"
             then "flagged" else validation_status self).

Definition is_valid (self : ValidationResult) : bool :=
  Nat.eqb (length (errors self)) 0.

Definition requires_manual_review (self : ValidationResult) : bool :=
  existsb (String.eqb (validation_status self)) ["flagged"; "failed"].

(** A metric dictionary, with the keys the validator reads; its numbers
    are finite floats. *)
Record metric : Type := mk_metric {
  metric_type : string;
  metric_name : string;
  value : Q;
  confidence_score : Q
}.

(** The extraction result dictionary; [ocr_confidence_avg] may be absent. *)
Record extraction_result : Type := mk_extraction_result {
  ocr_confidence_avg : option Q
}.

Definition REQUIRED_INCOME_STATEMENT_METRICS : list string :=
  ["revenue"; "net_income"].

Definition RECOMMENDED_INCOME_STATEMENT_METRICS : list string :=
  ["cogs"; "gross_profit"; "operating_expenses"].

Definition VALUE_RANGES : gmap string (Q * Q) :=
  list_to_map
    [ ("revenue", (0, 1000000000000));
      ("cogs", (0, 1000000000000));
      ("gross_profit", (-1000000000000, 1000000000000));
      ("operating_expenses", (0, 1000000000000));
      ("operating_income", (-1000000000000, 1000000000000));
      ("ebitda", (-1000000000000, 1000000000000));
      ("net_income", (-1000000000000, 1000000000000)) ]%Q.

Section WithFormat.

Variable F : float_format.
Variable cfg : config.

Definition missing_required_error (required_metric : string) : string :=
  "Missing required metric: " +:+ required_metric +:+ ". "
  +:+ "Income statement must include revenue and net income.".

Definition missing_recommended_warning (recommended_metric : string) : string :=
  "Missing recommended metric: " +:+ recommended_metric +:+ ". "
  +:+ "Consider verifying if this metric should be present in the document.".

Definition few_metrics_warning (n : nat) : string :=
  "Only " +:+ pretty n +:+ " financial metrics extracted. "
  +:+ "Expected at least 3-5 metrics for a complete income statement.".

Definition validate_completeness (metrics : list metric)
    (extraction : extraction_result) : ValidationResult :=
  let metric_types : gset string := list_to_set (metric_type <$> metrics) in
  let result1 :=
    foldl (fun result required_metric =>
             if negb (bool_decide (required_metric ∈ metric_types))
             then add_error result (missing_required_error required_metric)
             else result)
          new_result REQUIRED_INCOME_STATEMENT_METRICS in
  let result2 :=
    foldl (fun result recommended_metric =>
             if negb (bool_decide (recommended_metric ∈ metric_types))
             then add_warning result (missing_recommended_warning recommended_metric)
             else result)
          result1 RECOMMENDED_INCOME_STATEMENT_METRICS in
  if Nat.ltb (length metrics) 3
  then add_warning result2 (few_metrics_warning (length metrics))
  else result2.

Definition out_of_range_error (m : metric) (min_value max_value : Q) : string :=
  metric_name m +:+ ": Value " +:+ fmt_grouped2 F (value m)
  +:+ " is outside reasonable range ["
  +:+ fmt_grouped2 F min_value +:+ ", " +:+ fmt_grouped2 F max_value +:+ "]. "
  +:+ "This may indicate OCR extraction error or data quality issue.".

Definition revenue_positive_error (m : metric) : string :=
  metric_name m +:+ ": Revenue must be positive (got "
  +:+ fmt_grouped2 F (value m) +:+ "). "
  +:+ "Negative or zero revenue indicates extraction error.".

Definition unusually_large_warning (m : metric) : string :=
  metric_name m +:+ ": Value " +:+ fmt_grouped2 F (value m)
  +:+ " is unusually large (> $100B). "
  +:+ "Please verify this is correct.".

Definition unusually_small_warning (m : metric) : string :=
  metric_name m +:+ ": Value " +:+ fmt_grouped2 F (value m)
  +:+ " is unusually small (< $1,000). "
  +:+ "Verify the correct magnitude was extracted (check for K/M/B suffixes).".

(** The body of the loop of [validate_ranges] for one metric. *)
Definition range_step (result : ValidationResult) (m : metric) : ValidationResult :=
  match VALUE_RANGES !! metric_type m with
  | None => result
  | Some (min_value, max_value) =>
    let result1 :=
      if Qltb (value m) min_value || Qltb max_value (value m)
      then add_error result (out_of_range_error m min_value max_value)
      else result in
    let result2 :=
      if String.eqb (metric_type m) "revenue" && Qle_bool (value m) 0
      then add_error result1 (revenue_positive_error m)
      else result1 in
    let result3 :=
      if Qltb 100000000000 (Qabs (value m))
      then add_warning result2 (unusually_large_warning m)
      else result2 in
    if Qltb (Qabs (value m)) 1000
       && existsb (String.eqb (metric_type m))
                  ["revenue"; "cogs"; "operating_expenses"]
    then add_warning result3 (unusually_small_warning m)
    else result3
  end.

Definition validate_ranges (metrics : list metric) : ValidationResult :=
  foldl range_step new_result metrics.

Definition low_document_confidence_warning (doc_confidence doc_threshold : Q) : string :=
  "Document OCR confidence " +:+ fmt_fixed2 F doc_confidence
  +:+ " is below threshold " +:+ fmt_str F doc_threshold +:+ ". "
  +:+ "Extracted data may require manual verification. "
  +:+ "Consider re-scanning with higher quality or enhanced OCR.".

Definition low_metric_confidence_entry (m : metric) : string :=
  metric_name m +:+ " (confidence: " +:+ fmt_fixed2 F (confidence_score m) +:+ ")".

Definition low_metric_confidence_warning
    (low_confidence_metrics : list string) (metric_threshold : Q) : string :=
  pretty (length low_confidence_metrics)
  +:+ " metric(s) have low confidence (< " +:+ fmt_str F metric_threshold +:+ "): "
  +:+ join ", " (take 3 low_confidence_metrics)
  +:+ (if Nat.ltb 3 (length low_confidence_metrics) then "..." else "").

Definition critically_low_error (doc_confidence : Q) : string :=
  "Document OCR confidence " +:+ fmt_fixed2 F doc_confidence
  +:+ " is critically low (< 0.60). "
  +:+ "Extraction results are unreliable and require manual data entry.".

Definition validate_confidence (metrics : list metric)
    (extraction : extraction_result) : ValidationResult :=
  let doc_confidence := default 0%Q (ocr_confidence_avg extraction) in
  let doc_threshold := ocr_confidence_threshold_document cfg in
  let result1 :=
    if Qltb doc_confidence doc_threshold
    then add_warning new_result
           (low_document_confidence_warning doc_confidence doc_threshold)
    else new_result in
  let metric_threshold := ocr_confidence_threshold_metric cfg in
  let low_confidence_metrics :=
    low_metric_confidence_entry
      <$> List.filter (fun m => Qltb (confidence_score m) metric_threshold) metrics in
  let result2 :=
    match low_confidence_metrics with
    | [] => result1
    | _ :: _ =>
      add_warning result1
        (low_metric_confidence_warning low_confidence_metrics metric_threshold)
    end in
  if Qltb doc_confidence 0.60
  then add_error result2 (critically_low_error doc_confidence)
  else result2.

(** [{metric["metric_type"]: metric["value"] for metric in metrics}]: a later
    metric of the same type replaces an earlier one. *)
Definition metric_lookup (metrics : list metric) : gmap string Q :=
  foldl (fun lookup m => <[metric_type m := value m]> lookup) ∅ metrics.

Definition mismatch_warning (revenue cogs gross_profit : Q) : string :=
  "Gross Profit mismatch: Expected "
  +:+ fmt_float (fmt_grouped2 F) (pyfloat_sub (Finite revenue) (Finite cogs))
  +:+ " (Revenue " +:+ fmt_grouped2 F revenue
  +:+ " - COGS " +:+ fmt_grouped2 F cogs +:+ "), "
  +:+ "but got " +:+ fmt_grouped2 F gross_profit +:+ ". "
  +:+ "Verify extraction accuracy.".

Definition gross_profit_sign_error (gross_profit : Q) : string :=
  "Gross Profit should be positive when Revenue > COGS. "
  +:+ "Got Gross Profit=" +:+ fmt_grouped2 F gross_profit.

Definition validate_relationships (metrics : list metric) : ValidationResult :=
  let metric_lookup := metric_lookup metrics in
  let result1 :=
    match metric_lookup !! "revenue", metric_lookup !! "cogs",
          metric_lookup !! "gross_profit" with
    | Some revenue, Some cogs, Some gross_profit =>
      let calculated_gross_profit :=
        pyfloat_sub (Finite revenue) (Finite cogs) in
      let tolerance :=
        pyfloat_mul (pyfloat_abs calculated_gross_profit)
                    (Binary64.round 0.01) in
      if pyfloat_lt (pyfloat_max tolerance (Finite 1000))
           (pyfloat_abs
              (pyfloat_sub (Finite gross_profit) calculated_gross_profit))
      then add_warning new_result (mismatch_warning revenue cogs gross_profit)
      else new_result
    | _, _, _ => new_result
    end in
  match metric_lookup !! "revenue", metric_lookup !! "cogs" with
  | Some revenue, Some cogs =>
    if Qltb cogs revenue then
      match metric_lookup !! "gross_profit" with
      | Some gross_profit =>
        if Qle_bool gross_profit 0
        then add_error result1 (gross_profit_sign_error gross_profit)
        else result1
      | None => result1
      end
    else result1
  | _, _ => result1
  end.

Definition validate_all (metrics : list metric)
    (extraction : extraction_result) : ValidationResult :=
  let completeness_result := validate_completeness metrics extraction in
  let range_result := validate_ranges metrics in
  let confidence_result := validate_confidence metrics extraction in
  let relationship_result := validate_relationships metrics in
  let combined_errors :=
    (errors completeness_result ++ errors range_result
     ++ errors confidence_result ++ errors relationship_result)%list in
  let combined_warnings :=
    (warnings completeness_result ++ warnings range_result
     ++ warnings confidence_result ++ warnings relationship_result)%list in
  mk_result combined_errors combined_warnings
    (match combined_errors, combined_warnings with
     | _ :: _, _ => "failed"
     | [], _ :: _ => "flagged"
     | [], [] => "passed"
     end).

End WithFormat.

End Validator.

(** ** utils/confidence_scorer.py *)
Module ConfidenceScorer.

(** Defaults of the two threshold parameters. *)
Definition default_document_threshold : Q := 0.75.
Definition default_metric_threshold : Q := 0.70.

Definition should_flag_for_review
    (confidence document_threshold metric_threshold : Q) : bool :=
  Qltb confidence metric_threshold.

End ConfidenceScorer.

(** ** Python strings

    A [str] is the list of the bytes of its UTF-8 text.  Whitespace, letters
    and digits are the ASCII ones; any other byte is an ordinary character
    that no operation below treats specially. *)
Module Str.

Abbreviation str := (list ascii).

(** A literal. *)
Definition lit (s : string) : str := list_ascii_of_string s.

Definition between (lo hi c : ascii) : bool :=
  (N.leb (N_of_ascii lo) (N_of_ascii c) && N.leb (N_of_ascii c) (N_of_ascii hi))%N.

Definition is_digit (c : ascii) : bool := between "0" "9" c.

(** [c.isspace()] on ASCII: tab to carriage return, the four separators
    0x1c-0x1f, and the space. *)
Definition is_space (c : ascii) : bool :=
  between "009" "013" c || between "028" "031" c || Ascii.eqb c " ".

Definition upper_char (c : ascii) : ascii :=
  if between "a" "z" c then ascii_of_N (N_of_ascii c - 32) else c.

Definition lower_char (c : ascii) : ascii :=
  if between "A" "Z" c then ascii_of_N (N_of_ascii c + 32) else c.

Definition upper (s : str) : str := upper_char <$> s.
Definition lower (s : str) : str := lower_char <$> s.

Fixpoint startswith (p s : str) : bool :=
  match p, s with
  | [], _ => true
  | a :: p', b :: s' => Ascii.eqb a b && startswith p' s'
  | _ :: _, [] => false
  end.

Definition endswith (suffix s : str) : bool :=
  startswith (rev suffix) (rev s).

(** [sub in s] *)
Fixpoint contains (sub s : str) : bool :=
  startswith sub s
  || match s with
     | [] => false
     | _ :: s' => contains sub s'
     end.

Fixpoint lstrip (s : str) : str :=
  match s with
  | c :: s' => if is_space c then lstrip s' else s
  | [] => []
  end.

Definition rstrip (s : str) : str := rev (lstrip (rev s)).

Definition strip (s : str) : str := rstrip (lstrip s).

(** [s.replace(old, new)] for a non-empty [old]: occurrences are taken from
    the left and do not overlap; [skip] counts the characters of an
    occurrence still to be passed over. *)
Fixpoint replace_go (old new : str) (skip : nat) (s : str) : str :=
  match s with
  | [] => []
  | c :: s' =>
    match skip with
    | S k => replace_go old new k s'
    | O =>
      if startswith old s
      then new ++ replace_go old new (length old - 1) s'
      else c :: replace_go old new 0 s'
    end
  end.

Definition replace (old new s : str) : str := replace_go old new 0 s.

(** [s.replace(old, new, 1)]: the leftmost occurrence only. *)
Fixpoint replace_first (old new s : str) : str :=
  if startswith old s then new ++ drop (length old) s
  else match s with
       | [] => []
       | c :: s' => c :: replace_first old new s'
       end.

(** [s.count(sub)] for a non-empty [sub]. *)
Fixpoint count_go (sub : str) (skip : nat) (s : str) : nat :=
  match s with
  | [] => 0
  | _ :: s' =>
    match skip with
    | S k => count_go sub k s'
    | O =>
      if startswith sub s
      then S (count_go sub (length sub - 1) s')
      else count_go sub 0 s'
    end
  end.

Definition count (sub s : str) : nat := count_go sub 0 s.

(** [s.rfind(sub)] for a non-empty [sub]: the highest index of an
    occurrence, or -1. *)
Fixpoint rfind_go (sub : str) (i : Z) (s : str) (best : Z) : Z :=
  match s with
  | [] => best
  | _ :: s' => rfind_go sub (i + 1) s' (if startswith sub s then i else best)
  end.

Definition rfind (sub s : str) : Z := rfind_go sub 0 s (-1).

(** [s[1:-1]] *)
Definition slice_1_m1 (s : str) : str := take (length s - 2) (drop 1 s).

(** [s[:-n]] for a positive [n]. *)
Definition drop_last (n : nat) (s : str) : str := take (length s - n) s.

End Str.

(** *** [float(s)] on a string

    Surrounding whitespace is dropped.  An underscore must stand between two
    digits and is then ignored.  What remains is a sign followed by [inf],
    [infinity] or [nan] in any case, or by a decimal number: digits with an
    optional point (at least one digit before or after it) and an optional
    exponent [e] or [E], sign, digits.  Anything else is a [ValueError]
    ([None]).  The number is the float nearest to the value of the literal,
    an infinity when the literal is too large. *)
Module PyFloat.

Import Str.

Definition digit_value (c : ascii) : Z := Z.of_N (N_of_ascii c - 48).

(** The number written by a run of digits, most significant first. *)
Definition digits_value (ds : str) : Z :=
  foldl (fun acc c => 10 * acc + digit_value c)%Z 0%Z ds.

(** The longest run of leading digits, and what follows it. *)
Fixpoint span_digits (s : str) : str * str :=
  match s with
  | c :: s' =>
    if is_digit c
    then let '(ds, rest) := span_digits s' in (c :: ds, rest)
    else ([], s)
  | [] => ([], [])
  end.

(** Checks the underscores of [s] against the previous character [prev]
    and removes them. *)
Fixpoint strip_underscores (prev : option ascii) (s : str) : option str :=
  match s with
  | [] =>
    if bool_decide (prev = Some "_"%char) then None else Some []
  | c :: s' =>
    if Ascii.eqb c "_"
    then match prev with
         | Some p => if is_digit p then strip_underscores (Some c) s' else None
         | None => None
         end
    else if bool_decide (prev = Some "_"%char) && negb (is_digit c)
    then None
    else cons c <$> strip_underscores (Some c) s'
  end.

(** An optional sign: whether it is a minus, and what follows it. *)
Definition split_sign (s : str) : bool * str :=
  match s with
  | c :: s' =>
    if Ascii.eqb c "-" then (true, s')
    else if Ascii.eqb c "+" then (false, s')
    else (false, s)
  | [] => (false, [])
  end.

(** [10 ** k] for any integer [k]. *)
Definition pow10 (k : Z) : Q := Qpower 10 k.

(** The value of an unsigned decimal literal, before rounding. *)
Definition parse_decimal (s : str) : option Q :=
  let '(int_digits, after_int) := span_digits s in
  let '(frac_digits, after_frac) :=
    match after_int with
    | c :: r => if Ascii.eqb c "." then span_digits r else ([], after_int)
    | [] => ([], [])
    end in
  match int_digits, frac_digits with
  | [], [] => None
  | _, _ =>
    let mantissa := inject_Z (digits_value (int_digits ++ frac_digits)) in
    let scale := (- Z.of_nat (length frac_digits))%Z in
    match after_frac with
    | [] => Some (mantissa * pow10 scale)%Q
    | c :: r =>
      if Ascii.eqb c "e" || Ascii.eqb c "E" then
        let '(exp_negative, after_sign) := split_sign r in
        match span_digits after_sign with
        | ([], _) | (_, _ :: _) => None
        | (exp_digits, []) =>
          let e := digits_value exp_digits in
          Some (mantissa * pow10 ((if exp_negative then - e else e) + scale)%Z)%Q
        end
      else None
    end
  end.

Definition float (s : str) : option pyfloat :=
  match strip_underscores None (strip s) with
  | None => None
  | Some t =>
    let '(negative, body) := split_sign t in
    let word := lower body in
    if bool_decide (word = lit "inf") || bool_decide (word = lit "infinity")
    then Some (Infinity negative)
    else if bool_decide (word = lit "nan") then Some NaN
    else match parse_decimal body with
         | Some q => Some (Binary64.round (if negative then - q else q))
         | None => None
         end
  end.

End PyFloat.

(** ** utils/number_parser.py *)
Module NumberParser.

Import Str.

(** The argument of the parser: [None], a string, or any other object. *)
Inductive pyobj : Type :=
| PyNone
| PyStr (s : str)
| PyOther.

Definition CURRENCY_SYMBOLS : list str :=
  lit <$> ["$"; "€"; "£"; "¥"; "₹"; "USD"; "EUR"; "GBP"; "JPY"; "INR"].

(** In the order the dictionary lists them. *)
Definition MAGNITUDE_MULTIPLIERS : list (str * Q) :=
  [ (lit "K", 1000); (lit "M", 1000000); (lit "B", 1000000000);
    (lit "T", 1000000000000); (lit "THOUSAND", 1000);
    (lit "MILLION", 1000000); (lit "BILLION", 1000000000);
    (lit "TRILLION", 1000000000000) ]%Q.

Definition currency_map : list (str * string) :=
  [ (lit "$", "USD"); (lit "€", "EUR"); (lit "£", "GBP"); (lit "¥", "JPY");
    (lit "₹", "INR"); (lit "USD", "USD"); (lit "EUR", "EUR");
    (lit "GBP", "GBP"); (lit "JPY", "JPY"); (lit "INR", "INR") ].

Definition _detect_currency (text : str) : option string :=
  snd <$> List.find (fun entry => contains entry.1 text) currency_map.

(** The text after the currency symbols are removed. *)
Definition remove_currency (text : str) : str :=
  foldl (fun text symbol => replace symbol [] text) text CURRENCY_SYMBOLS.

(** The magnitude suffix found on [text], if any, with its multiplier. *)
Definition find_magnitude (text : str) : option (str * Q) :=
  List.find (fun entry => endswith entry.1 (upper text)) MAGNITUDE_MULTIPLIERS.

(** The separator handling: which of comma and period is the decimal
    point. *)
Definition normalize_separators (text : str) : str :=
  let comma_count := count (lit ",") text in
  let period_count := count (lit ".") text in
  if Nat.ltb 0 comma_count && Nat.ltb 0 period_count then
    let last_comma_pos := rfind (lit ",") text in
    let last_period_pos := rfind (lit ".") text in
    if Z.ltb last_period_pos last_comma_pos
    then replace (lit ",") (lit ".") (replace (lit ".") [] text)
    else replace (lit ",") [] text
  else if Nat.ltb 0 comma_count then
    let last_comma_pos := rfind (lit ",") text in
    let chars_after_comma := (Z.of_nat (length text) - last_comma_pos - 1)%Z in
    if Z.eqb chars_after_comma 2
    then replace (lit ",") [] (replace_first (lit ",") (lit ".") text)
    else replace (lit ",") [] text
  else text.

(** The state of the parser when it reaches the conversion: the sign from
    the parentheses, the multiplier, and the text handed to [float]. *)
Record cleaned : Type := mk_cleaned {
  is_negative : bool;
  magnitude_multiplier : Q;
  cleaned_text : str
}.

Definition clean (text : str) : cleaned :=
  let text := strip (remove_currency text) in
  let is_negative := startswith (lit "(") text && endswith (lit ")") text in
  let text := if is_negative then strip (slice_1_m1 text) else text in
  let '(magnitude_multiplier, text) :=
    match find_magnitude text with
    | Some (suffix, multiplier) =>
      (multiplier, strip (drop_last (length suffix) text))
    | None => (1%Q, text)
    end in
  mk_cleaned is_negative magnitude_multiplier (normalize_separators text).

Definition parse_financial_number (text : pyobj) : option pyfloat * option string :=
  match text with
  | PyNone | PyOther | PyStr [] => (None, None)
  | PyStr text =>
    let text := strip text in
    let currency := _detect_currency text in
    let c := clean text in
    match PyFloat.float (cleaned_text c) with
    | Some x =>
      let value := pyfloat_scale x (magnitude_multiplier c) in
      let value := if is_negative c then pyfloat_neg value else value in
      (Some value, currency)
    | None => (None, None)
    end
  end.

End NumberParser.

(** ** Numbers in lists *)

(** [min(a, b)]: the first argument unless the second is strictly smaller. *)
Definition py_min (a b : Q) : Q := if Qltb b a then b else a.

(** [sum(xs)] *)
Definition py_sum (xs : list Q) : Q := foldl Qplus 0%Q xs.

(** [statistics.mean(xs)] and [sum(xs) / len(xs)], for a non-empty list. *)
Definition mean (xs : list Q) : Q :=
  (py_sum xs / inject_Z (Z.of_nat (length xs)))%Q.

(** [min(xs)] and [max(xs)] for the list [x :: xs]. *)
Definition list_min (x : Q) (xs : list Q) : Q := foldl py_min x xs.
Definition list_max (x : Q) (xs : list Q) : Q := foldl py_max x xs.

(** [sorted(xs)] *)
#[global] Instance Qle_bool_dec (x y : Q) : Decision (Qle_bool x y = true).
Proof. apply _. Defined.

Definition sorted (xs : list Q) : list Q :=
  merge_sort (fun x y => Qle_bool x y = true) xs.

(** [len(s)]: one character for each byte that does not continue a
    multi-byte character. *)
Definition len (s : Str.str) : nat :=
  length (List.filter (fun c => negb (Str.between "128" "191" c)) s).

(** ** Extracted tables

    A table as the extraction services build it, with the keys the parser
    and the scorer read.  Every cell has its position; a cell without
    [content] reads as the empty text, and [confidence] may be missing. *)
Module Tables.

Record cell : Type := mk_cell {
  row_index : Z;
  column_index : Z;
  content : Str.str;
  confidence : option Q
}.

Record table : Type := mk_table {
  cells : list cell
}.

End Tables.

(** ** utils/confidence_scorer.py: scores and labels *)
Module ConfidenceScoring.

Import Str Tables.



Definition calculate_cell_confidence (cell : cell) : Q :=
  default 0%Q (confidence cell).

(** Defaults of the thresholds. *)
Definition default_threshold_high : Q := 0.85%Q.
Definition default_threshold_low : Q := 0.70%Q.

Definition assess_quality (confidence threshold_high threshold_low : Q) : string :=
  if Qle_bool threshold_high confidence then "high"
  else if Qle_bool threshold_low confidence then "medium"
  else "low".

Definition calculate_metric_confidence (extracted_value : str)
    (cell_confidence : Q) (parsing_success : bool) : Q :=
  let confidence := cell_confidence in
  let confidence :=
    if negb parsing_success then (confidence * 0.5)%Q else confidence in
  let confidence :=
    if Nat.ltb (len (strip extracted_value)) 2
    then (confidence * 0.7)%Q else confidence in
  py_max 0%Q (py_min 1%Q confidence).

(** The dictionary of [get_confidence_statistics]. *)
Record statistics : Type := mk_statistics {
  stat_min : Q;
  stat_max : Q;
  stat_mean : Q;
  stat_median : Q;
  stat_count : nat
}.

(** [None] is the [IndexError] of an index out of range. *)
Definition get_confidence_statistics (confidences : list Q) : option statistics :=
  match confidences with
  | [] => Some (mk_statistics 0%Q 0%Q 0%Q 0%Q 0%nat)
  | first :: others =>
    let sorted_confidences := sorted confidences in
    let n := length sorted_confidences in
    median ←
      (if Nat.eqb (n mod 2) 1
       then sorted_confidences !! (n / 2)%nat
       else
         low ← sorted_confidences !! (n / 2 - 1)%nat;
         high ← sorted_confidences !! (n / 2)%nat;
         Some ((low + high) / 2)%Q);
    Some (mk_statistics (list_min first others) (list_max first others)
            (mean confidences) median n)
  end.

Definition get_confidence_label (confidence : Q) : string :=
  if Qle_bool 0.95%Q confidence then "Very High"
  else if Qle_bool 0.85%Q confidence then "High"
  else if Qle_bool 0.70%Q confidence then "Medium"
  else if Qle_bool 0.50%Q confidence then "Low"
  else "Very Low".


Definition is_high_confidence (confidence threshold : Q) : bool :=
  Qle_bool threshold confidence.

End ConfidenceScoring.

(** ** services/document_intelligence.py: the overall confidence *)
Module DocumentIntelligence.

(** A table cell of the analysis result: its confidence and the
    confidences of its spans, each [None] when the attribute is missing or
    [None]. *)
Record result_cell : Type := mk_result_cell {
  cell_confidence : option Q;
  spans : list (option Q)
}.

Definition _get_cell_confidence (cell : result_cell) : Q :=
  match cell_confidence cell with
  | Some confidence => confidence
  | None =>
    let confidences := omap id (spans cell) in
    match confidences with
    | [] => 0.8%Q
    | _ :: _ => mean confidences
    end
  end.

(** The tables of the result, each the list of its cells. *)
Definition _calculate_overall_confidence (tables : list (list result_cell)) : Q :=
  let confidences := tables ≫= fmap _get_cell_confidence in
  match confidences with
  | [] => 0%Q
  | _ :: _ => mean confidences
  end.

End DocumentIntelligence.

(** ** services/financial_parser.py

    [re.search] is taken as given: [re_search pattern text] says whether
    the pattern matches somewhere in the text. *)
Module FinancialParser.

Import Str NumberParser Tables.

Definition INCOME_STATEMENT_KEYWORDS : list string :=
  [ "income statement"; "statement of income"; "profit and loss"; "p&l";
    "statement of operations"; "operating statement"; "earnings statement" ].

Definition REVENUE_PATTERNS : list string :=
  [ "total\s+revenue"; "net\s+revenue"; "revenue"; "sales";
    "total\s+sales"; "net\s+sales"; "operating\s+revenue" ].

Definition COGS_PATTERNS : list string :=
  [ "cost\s+of\s+goods\s+sold"; "cogs"; "cost\s+of\s+revenue";
    "cost\s+of\s+sales"; "direct\s+costs" ].

Definition GROSS_PROFIT_PATTERNS : list string :=
  [ "gross\s+profit"; "gross\s+income"; "gross\s+margin" ].

Definition OPERATING_EXPENSES_PATTERNS : list string :=
  [ "operating\s+expenses"; "opex"; "total\s+operating\s+expenses";
    "selling.*general.*administrative"; "sg&a"; "sga" ].

Definition OPERATING_INCOME_PATTERNS : list string :=
  [ "operating\s+income"; "operating\s+profit"; "ebit";
    "earnings\s+before\s+interest\s+and\s+tax" ].

Definition EBITDA_PATTERNS : list string :=
  [ "ebitda";
    "earnings\s+before\s+interest.*tax.*depreciation.*amortization" ].

Definition NET_INCOME_PATTERNS : list string :=
  [ "net\s+income"; "net\s+profit"; "net\s+earnings";
    "profit\s+for\s+the\s+period"; "bottom\s+line" ].

(** The characters [_looks_like_number] removes. *)
Definition number_characters : list str :=
  lit <$> [","; "."; "$"; "("; ")"; "-"; " "].

Definition _looks_like_number (text : str) : bool :=
  let cleaned := foldl (fun text old => replace old [] text) text number_characters in
  match cleaned with
  | [] => false
  | _ :: _ =>
    let digit_count := length (List.filter is_digit cleaned) in
    Qltb 0.5%Q (inject_Z (Z.of_nat digit_count)
                / inject_Z (Z.of_nat (len cleaned)))%Q
  end.

Definition _find_value_cells (cells : list cell) (label_cell : cell) : list cell :=
  let label_row := row_index label_cell in
  let label_col := column_index label_cell in
  List.filter
    (fun cell =>
       Z.eqb (row_index cell) label_row && Z.ltb label_col (column_index cell)
       && (let content := strip (content cell) in
           match content with
           | [] => false
           | _ :: _ => _looks_like_number content
           end))
    cells.

(** An entry of the list [_extract_metric_from_table] returns. *)
Record extracted_metric : Type := mk_extracted_metric {
  metric_type : string;
  metric_name : string;
  value : pyfloat;
  currency : string;
  label_cell : cell;
  value_cell : cell;
  confidence : Q
}.

(** The metric a value cell gives, if its text parses. *)
Definition metric_of_value_cell (metric_type metric_name : string)
    (label_cell value_cell : cell) : option extracted_metric :=
  let value_text := content value_cell in
  match parse_financial_number (PyStr value_text) with
  | (Some parsed_value, currency) =>
    Some (mk_extracted_metric metric_type metric_name parsed_value
            (py_or currency "USD") label_cell value_cell
            (default 1%Q (Tables.confidence value_cell)))
  | (None, _) => None
  end.

Definition metric_definitions : list (string * string * list string) :=
  [ ("revenue", "Total Revenue", REVENUE_PATTERNS);
    ("cogs", "Cost of Goods Sold", COGS_PATTERNS);
    ("gross_profit", "Gross Profit", GROSS_PROFIT_PATTERNS);
    ("operating_expenses", "Operating Expenses", OPERATING_EXPENSES_PATTERNS);
    ("operating_income", "Operating Income", OPERATING_INCOME_PATTERNS);
    ("ebitda", "EBITDA", EBITDA_PATTERNS);
    ("net_income", "Net Income", NET_INCOME_PATTERNS) ].

(** [" ".join(texts)] *)
Fixpoint join_text (sep : str) (texts : list str) : str :=
  match texts with
  | [] => []
  | [text] => text
  | text :: rest => (text ++ sep ++ join_text sep rest)%list
  end.

Section WithRegex.

Variable re_search : string -> str -> bool.

Definition detect_income_statement (table : table) : bool :=
  let content_text :=
    join_text (lit " ") ((fun cell => lower (content cell)) <$> cells table) in
  if existsb (fun keyword => contains (lit keyword) content_text)
             INCOME_STATEMENT_KEYWORDS
  then true
  else
    let has_revenue :=
      existsb (fun pattern => re_search pattern content_text) REVENUE_PATTERNS in
    let has_expenses :=
      existsb (fun pattern => re_search pattern content_text)
              OPERATING_EXPENSES_PATTERNS in
    let has_net_income :=
      existsb (fun pattern => re_search pattern content_text)
              NET_INCOME_PATTERNS in
    has_revenue && (has_expenses || has_net_income).

Definition _extract_metric_from_table (table : table)
    (metric_type metric_name : string) (patterns : list string)
    : list extracted_metric :=
  let cells := cells table in
  cells ≫= (fun cell =>
    let content := strip (lower (content cell)) in
    if existsb (fun pattern => re_search pattern content) patterns
    then omap (metric_of_value_cell metric_type metric_name cell)
              (_find_value_cells cells cell)
    else []).

Definition extract_income_statement_metrics (table : table)
    : list extracted_metric :=
  metric_definitions ≫= (fun '(metric_type, metric_name, patterns) =>
    _extract_metric_from_table table metric_type metric_name patterns).

End WithRegex.

End FinancialParser.

(** ** functions/extraction_worker.py: the metrics of a document *)
Module ExtractionWorker.

Import Tables.

(** A [FinancialMetric], with the fields validation reads. *)
Record financial_metric : Type := mk_financial_metric {
  extracted : FinancialParser.extracted_metric;
  confidence_score : Q;
  flagged_for_review : bool
}.

Section WithConfig.

Variable cfg : config.
Variable re_search : string -> Str.str -> bool.

(** The body of the loop over the metrics of a table. *)
Definition to_financial_metric (metric_data : FinancialParser.extracted_metric)
    : financial_metric :=
  let value_cell := FinancialParser.value_cell metric_data in
  let confidence :=
    ConfidenceScoring.calculate_metric_confidence
      (content value_cell) (FinancialParser.confidence metric_data) true in
  let flagged_for_review :=
    ConfidenceScorer.should_flag_for_review confidence
      ConfidenceScorer.default_document_threshold
      (ocr_confidence_threshold_metric cfg) in
  mk_financial_metric metric_data confidence flagged_for_review.

Definition _extract_financial_metrics (tables : list table)
    : list financial_metric :=
  tables ≫= (fun table =>
    if FinancialParser.detect_income_statement re_search table
    then to_financial_metric
           <$> FinancialParser.extract_income_statement_metrics re_search table
    else []).

End WithConfig.

End ExtractionWorker.

(** ** functions/validation_worker.py: flagging after validation *)
Module ValidationWorker.

(** A stored metric: what the validator reads, its identifier, and the
    flag it carries. *)
Record stored_metric : Type := mk_stored_metric {
  id : string;
  metric_of : Validator.metric;
  flagged_for_review : bool
}.

Section WithFormat.

Variable F : float_format.
Variable cfg : config.

(** The metrics [_flag_low_confidence_metrics] asks the store to flag, in
    order. *)
Definition _flag_low_confidence_metrics (metrics : list stored_metric)
    : list string :=
  let metric_threshold := ocr_confidence_threshold_metric cfg in
  id <$> List.filter
           (fun metric =>
              Qltb (Validator.confidence_score (metric_of metric)) metric_threshold
              && negb (flagged_for_review metric))
           metrics.

(** The end of [main]: validation, then flagging when review is required.
    The result and the metrics the store is asked to flag. *)
Definition validate_and_flag (metrics : list stored_metric)
    (extraction_result : Validator.extraction_result)
    : Validator.ValidationResult * list string :=
  let validation_result :=
    Validator.validate_all F cfg (metric_of <$> metrics) extraction_result in
  (validation_result,
   if Validator.requires_manual_review validation_result
   then _flag_low_confidence_metrics metrics
   else []).

End WithFormat.

End ValidationWorker.

(** * Vocabulary of the properties *)

(** ** Retry eligibility *)


(** ** Validation results *)
Section ResultVocabulary.

Import Validator.

(** The results a sequence of [add_error] and [add_warning] calls builds
    from a fresh [ValidationResult]. *)
Inductive built : ValidationResult → Prop :=
| built_new : built new_result
| built_error r error : built r → built (add_error r error)
| built_warning r warning : built r → built (add_warning r warning).

(** The status is the one the two lists determine. *)
Definition status_agrees (r : ValidationResult) : Prop :=
  (validation_status r = "failed" ↔ errors r ≠ [])
  ∧ (validation_status r = "flagged" ↔ errors r = [] ∧ warnings r ≠ [])
  ∧ (validation_status r = "passed" ↔ errors r = [] ∧ warnings r = []).

End ResultVocabulary.

(** ** Messages and parsed numbers *)
Section TextVocabulary.

Import Str NumberParser.

(** [needle in hay] on message strings. *)
Definition mentions (needle hay : string) : bool :=
  contains (lit needle) (lit hay).

(** [text] parses to the float written [q], with the currency
    [currency]. *)
Definition parses_to (text : string) (q : Q) (currency : option string) : Prop :=
  parse_financial_number (PyStr (lit text)) = (Some (Binary64.round q), currency).


(** The multiplier the rule gives each suffix letter, in either case. *)
Definition suffix_multiplier (c : ascii) : option Q :=
  if Ascii.eqb c "K" || Ascii.eqb c "k" then Some 1000%Q
  else if Ascii.eqb c "M" || Ascii.eqb c "m" then Some 1000000%Q
  else if Ascii.eqb c "B" || Ascii.eqb c "b" then Some 1000000000%Q
  else if Ascii.eqb c "T" || Ascii.eqb c "t" then Some 1000000000000%Q
  else None.

(** A number as Python prints it: the digits of the integer part, the
    digits after the point (none: no point), and for the scientific form
    the sign and digits of the exponent. *)
Record numeral : Type := mk_numeral {
  int_digits : str;
  frac_digits : str;
  exponent : option (bool * str)
}.

(** A non-empty run of digits. *)
Definition nonempty_digits (ds : str) : bool :=
  match ds with
  | [] => false
  | _ :: _ => forallb is_digit ds
  end.


(** The point and the digits after it. *)
Definition fraction_rendering (frac_digits : str) : str :=
  match frac_digits with
  | [] => []
  | _ :: _ => "."%char :: frac_digits
  end.





(** The characters of a rendering. *)
Definition decimal_char (c : ascii) : bool :=
  is_digit c || Ascii.eqb c "." || Ascii.eqb c "e"
  || Ascii.eqb c "+" || Ascii.eqb c "-".

(** [h] does not occur in [s]. *)
Definition absent (h : ascii) (s : str) : bool :=
  forallb (fun c => negb (Ascii.eqb h c)) s.



End TextVocabulary.

(** * Sample inputs *)

(** A log of a document that failed during extraction, newest first. *)
Definition failed_in_extraction : list log :=
  [ ProcessingLog.mk "failed" "2024-01-15T10:35:00Z" None;
    ProcessingLog.mk "extraction_started" "2024-01-15T10:30:05Z" None;
    ProcessingLog.mk "queued" "2024-01-15T10:30:00Z" None ].

(** A log, newest first, of a document that completed validation and later
    recorded a failure; only its [queued] payload names the document. *)
Definition failed_after_completion : list log :=
  [ ProcessingLog.mk "failed" "2024-01-16T09:00:00Z"
      (Some {[ "error" := "Extraction timeout after 10 minutes" ]});
    ProcessingLog.mk "validation_completed" "2024-01-15T10:40:00Z" (Some ∅);
    ProcessingLog.mk "queued" "2024-01-15T10:30:00Z"
      (Some {[ "document_name" := "Q4_2024_Financial_Report.pdf" ]}) ].

(** Five earlier retries and a failure, newest first. *)
Definition five_retries : list log :=
  ProcessingLog.mk "failed" "2024-01-15T12:00:00Z"
    (Some {[ "document_name" := "report.pdf"; "document_type" := "PDF" ]})
  :: replicate 5 (ProcessingLog.mk "retry_initiated" "2024-01-15T11:00:00Z"
                    (Some {[ "retry_count" := "1" ]})).

(** The single revenue metric of value -100. *)
Definition negative_revenue : Validator.metric :=
  Validator.mk_metric "revenue" "Total Revenue" (-100) 0.95.

(** Revenue, cogs and a gross profit that is 50,000 too high. *)
Definition inconsistent_metrics : list Validator.metric :=
  [ Validator.mk_metric "revenue" "Total Revenue" 1000000 0.95;
    Validator.mk_metric "cogs" "Cost of Goods Sold" 600000 0.95;
    Validator.mk_metric "gross_profit" "Gross Profit" 450000 0.95 ].

(** * Vocabulary and samples of the further properties *)

(** ** What one metric contributes to range validation *)
Section RangeVocabulary.

Import Validator.

Variable F : float_format.

(** The errors [range_step] adds for one metric. *)
Definition range_errors (m : metric) : list string :=
  match VALUE_RANGES !! metric_type m with
  | None => []
  | Some (min_value, max_value) =>
    (if Qltb (value m) min_value || Qltb max_value (value m)
     then [out_of_range_error F m min_value max_value] else [])
    ++ (if String.eqb (metric_type m) "revenue" && Qle_bool (value m) 0
        then [revenue_positive_error F m] else [])
  end.

(** A metric range validation has nothing to object to. *)
Definition within_range (m : metric) : Prop :=
  match VALUE_RANGES !! metric_type m with
  | None => True
  | Some (min_value, max_value) =>
    (min_value <= value m)%Q ∧ (value m <= max_value)%Q
    ∧ (metric_type m = "revenue" → (0 < value m)%Q)
  end.

End RangeVocabulary.

(** ** Stages and timestamps *)
Section ProgressVocabulary.

Import StatusHandler.

(** One of the events of a stage is in the set. *)
Definition triggered (events : gset string) (stage : string * list string) : bool :=
  existsb (fun event => event_in event events) stage.2.

(** The entry records one of the given event types. *)
Definition records (types : list string) (l : log) : Prop :=
  ProcessingLog.event_type l ∈ types.

#[global] Instance records_dec types l : Decision (records types l).
Proof. unfold records. apply _. Defined.

End ProgressVocabulary.

(** A complete run, newest first. *)
Definition completed_run : list log :=
  [ ProcessingLog.mk "validation_completed" "2024-01-15T10:33:45Z" (Some ∅);
    ProcessingLog.mk "validation_started" "2024-01-15T10:33:00Z" (Some ∅);
    ProcessingLog.mk "extraction_completed" "2024-01-15T10:32:50Z" (Some ∅);
    ProcessingLog.mk "extraction_started" "2024-01-15T10:30:05Z" (Some ∅);
    ProcessingLog.mk "ingestion_started" "2024-01-15T10:30:01Z" (Some ∅);
    ProcessingLog.mk "queued" "2024-01-15T10:30:00Z"
      (Some {[ "document_name" := "report.pdf"; "document_type" := "PDF" ]}) ].

(** ** The retry request *)
Section RetryVocabulary.

Import CosmosManager RetryHandler.

(** The answer to a retry request for a document whose entries are
    [stored], newest first: eligibility is judged on the 20 newest. *)
Definition retry_eligibility_of (stored : list log) : eligibility :=
  _check_retry_eligibility
    (Logs (query_processing_logs_by_document stored (Some 20))).

(** [new_retry_count] of an accepted request: one more than the
    [retry_initiated] entries of the whole log. *)
Definition new_retry_count (stored : list log) : nat :=
  (_get_retry_count (Logs (query_processing_logs_by_document stored None)) + 1)%nat.

(** Only the two metadata keys are present. *)
Definition metadata_only (info : gmap string string) : Prop :=
  ∀ key, is_Some (info !! key) → key = "document_name" ∨ key = "document_type".

End RetryVocabulary.

(** The entries of an upload that fails in validation, newest first. *)
Definition first_attempt : list log :=
  [ ProcessingLog.mk "failed" "2024-01-15T10:34:00Z"
      (Some {[ "error" := "Storage error"; "error_type" := "storage_error";
               "stage" := "validation" ]});
    ProcessingLog.mk "validation_started" "2024-01-15T10:33:00Z"
      (Some {[ "extraction_result_id" := "extraction-1" ]});
    ProcessingLog.mk "extraction_completed" "2024-01-15T10:32:50Z"
      (Some {[ "extraction_result_id" := "extraction-1" ]});
    ProcessingLog.mk "extraction_started" "2024-01-15T10:30:05Z"
      (Some {[ "document_name" := "report.pdf"; "document_type" := "PDF" ]});
    ProcessingLog.mk "queued" "2024-01-15T10:30:01Z"
      (Some {[ "document_name" := "report.pdf"; "document_type" := "PDF" ]});
    ProcessingLog.mk "ingestion_started" "2024-01-15T10:30:00Z"
      (Some {[ "document_name" := "report.pdf"; "document_type" := "PDF" ]}) ].

(** The entries of a retry that fails in validation again, newest first. *)
Definition failed_retry : list log :=
  [ ProcessingLog.mk "failed" "2024-01-15T11:04:00Z"
      (Some {[ "error" := "Storage error"; "error_type" := "storage_error";
               "stage" := "validation" ]});
    ProcessingLog.mk "validation_started" "2024-01-15T11:03:00Z"
      (Some {[ "extraction_result_id" := "extraction-2" ]});
    ProcessingLog.mk "extraction_completed" "2024-01-15T11:02:50Z"
      (Some {[ "extraction_result_id" := "extraction-2" ]});
    ProcessingLog.mk "extraction_started" "2024-01-15T11:00:05Z"
      (Some {[ "document_name" := "report.pdf"; "document_type" := "PDF" ]});
    ProcessingLog.mk "retry_initiated" "2024-01-15T11:00:00Z"
      (Some {[ "initiated_by" := "unknown-user" ]}) ].

(** The log after [n] such retries. *)
Definition retried (n : nat) : list log :=
  (concat (replicate n failed_retry) ++ first_attempt)%list.


(** ** Confidences *)

(** Every number of the list lies between [lo] and [hi]. *)
Definition all_between (lo hi : Q) (xs : list Q) : Prop :=
  Forall (fun x => (lo <= x <= hi)%Q) xs.


(** At least half of the numbers are at most [m], and at least half are at
    least [m]. *)
Definition splits_in_half (m : Q) (xs : list Q) : Prop :=
  (length xs <= 2 * length (filter (fun x => Qle_bool x m = true) xs))%nat
  ∧ (length xs <= 2 * length (filter (fun x => Qle_bool m x = true) xs))%nat.

(** ** Whitespace and separators *)
Section SeparatorVocabulary.

Import Str.

(** A run of whitespace. *)
Definition blank (s : str) : bool := forallb is_space s.

End SeparatorVocabulary.

Section GroupVocabulary.

Import Str.

(** Groups of digits written with a separator between them. *)
Definition grouped (sep : ascii) (groups : list str) : str :=
  match groups with
  | [] => []
  | first :: rest => (first ++ (rest ≫= cons sep))%list
  end.

(** Runs of digits. *)
Definition digit_groups (groups : list str) : Prop :=
  Forall (fun group => forallb is_digit group = true) groups.

End GroupVocabulary.

Section ValueVocabulary.

Import Str Tables FinancialParser.

(** The characters [_looks_like_number] counts: all but the seven it
    removes. *)
Definition counted (c : ascii) : bool :=
  forallb (fun removed => negb (Ascii.eqb removed c))
          [","; "."; "$"; "("; ")"; "-"; " "]%char.

(** A text of one-byte characters. *)
Definition one_byte (s : str) : bool :=
  forallb (fun c => negb (between "128" "191" c)) s.

(** [value_cell] stands to the right of [label_cell] in its row. *)
Definition right_of (label_cell value_cell : cell) : Prop :=
  row_index value_cell = row_index label_cell
  ∧ (column_index label_cell < column_index value_cell)%Z.

End ValueVocabulary.

(** A row of an income statement: the label and two values. *)
Definition revenue_row : Tables.table :=
  Tables.mk_table
    [ Tables.mk_cell 2 0 (Str.lit "Total Revenue") (Some 0.98%Q);
      Tables.mk_cell 2 1 (Str.lit "$1,234.56") (Some 0.93%Q);
      Tables.mk_cell 2 2 (Str.lit "5M") None ].

(** A matcher to run examples with: the pattern occurs in the text as it
    is written. *)
Definition literal_search (pattern : string) (text : Str.str) : bool :=
  Str.contains (Str.lit pattern) text.

(** An income statement: a title and the revenue row. *)
Definition income_statement : Tables.table :=
  Tables.mk_table
    (Tables.mk_cell 0 0 (Str.lit "Income Statement") (Some 0.99%Q)
     :: Tables.cells revenue_row).

(** * Properties *)

(** ** Status and progress from the event log *)
Section StatusProperties.

Import StatusHandler.

Lemma event_in_true (e : string) (events : gset string) :
  event_in e events = true ↔ e ∈ events.
Proof. unfold event_in. apply bool_decide_eq_true. Qed.

Lemma event_in_false (e : string) (events : gset string) :
  event_in e events = false ↔ e ∉ events.
Proof. unfold event_in. apply bool_decide_eq_false. Qed.

(** The status only depends on the set of event types. *)
Lemma status_by_events (logs1 logs2 : list log) (id1 id2 : string) :
  event_types logs1 = event_types logs2 →
  status (_determine_status_from_logs logs1 id1)
  = status (_determine_status_from_logs logs2 id2).
Proof. intros H. cbv [_determine_status_from_logs status]. by rewrite H. Qed.

(** C2: a [failed] event decides the status whatever else the log holds;
    without it [validation_completed] gives [completed]; without both,
    [validation_started] or [extraction_started] gives [processing]; without
    those, [queued] or [ingestion_started] gives [queued]; otherwise the
    status is [unknown].  A log whose event types are exactly queued,
    extraction_started and failed has status [failed], current stage
    [extraction] and completion percentage 50. *)
Theorem status_precedence (processing_logs : list log) (id : string) :
  let events := event_types processing_logs in
  let info := _determine_status_from_logs processing_logs id in
  ("failed" ∈ events → status info = "failed")
  ∧ ("failed" ∉ events → "validation_completed" ∈ events →
     status info = "completed")
  ∧ ("failed" ∉ events → "validation_completed" ∉ events →
     "validation_started" ∈ events ∨ "extraction_started" ∈ events →
     status info = "processing")
  ∧ ("failed" ∉ events → "validation_completed" ∉ events →
     "validation_started" ∉ events → "extraction_started" ∉ events →
     "queued" ∈ events ∨ "ingestion_started" ∈ events →
     status info = "queued")
  ∧ ("failed" ∉ events → "validation_completed" ∉ events →
     "validation_started" ∉ events → "extraction_started" ∉ events →
     "queued" ∉ events → "ingestion_started" ∉ events →
     status info = "unknown")
  ∧ (events = {[ "queued"; "extraction_started"; "failed" ]} →
     status info = "failed"
     ∧ current_stage (progress_of info) = "extraction"
     ∧ completion_percentage (progress_of info) = 50%Z).
Proof.
  intros events info. subst info.
  cbv [_determine_status_from_logs status progress_of]. fold events.
  repeat split.
  - intros Hf. apply event_in_true in Hf. by rewrite Hf.
  - intros Hf Hc. apply event_in_false in Hf. apply event_in_true in Hc.
    by rewrite Hf, Hc.
  - intros Hf Hc Hp. apply event_in_false in Hf, Hc. rewrite Hf, Hc.
    destruct Hp as [Hp | Hp]; apply event_in_true in Hp; rewrite Hp;
      [done | by rewrite orb_true_r].
  - intros Hf Hc Hv He Hq. apply event_in_false in Hf, Hc, Hv, He.
    rewrite Hf, Hc, Hv, He. simpl.
    destruct Hq as [Hq | Hq]; apply event_in_true in Hq; rewrite Hq;
      [done | by rewrite orb_true_r].
  - intros Hf Hc Hv He Hq Hi.
    apply event_in_false in Hf, Hc, Hv, He, Hq, Hi.
    by rewrite Hf, Hc, Hv, He, Hq, Hi.
  - rewrite H. reflexivity.
  - rewrite H. reflexivity.
  - rewrite H. reflexivity.
Qed.

Lemma status_precedence_witness :
  let info := _determine_status_from_logs failed_in_extraction "doc-a1b2c3d4" in
  status info = "failed"
  ∧ current_stage (progress_of info) = "extraction"
  ∧ completion_percentage (progress_of info) = 50%Z.
Proof.
  destruct (status_precedence failed_in_extraction "doc-a1b2c3d4")
    as (_ & _ & _ & _ & _ & H).
  apply H. reflexivity.
Defined.

(** C10: when [extraction_completed] is the only event type of the log, the
    status is [unknown] while the progress shows stage [extraction]
    completed, at 25 percent. *)
Theorem extraction_completed_only (processing_logs : list log) (id : string) :
  event_types processing_logs = {[ "extraction_completed" ]} →
  let info := _determine_status_from_logs processing_logs id in
  status info = "unknown"
  ∧ current_stage (progress_of info) = "extraction"
  ∧ stages_completed (progress_of info) = ["extraction"]
  ∧ completion_percentage (progress_of info) = 25%Z.
Proof.
  intros H info. subst info.
  cbv [_determine_status_from_logs status progress_of].
  rewrite H. repeat split; reflexivity.
Qed.

Lemma extraction_completed_only_witness :
  let info :=
    _determine_status_from_logs
      [ProcessingLog.mk "extraction_completed" "2024-01-15T10:33:45Z" None]
      "doc-a1b2c3d4" in
  status info = "unknown"
  ∧ current_stage (progress_of info) = "extraction"
  ∧ stages_completed (progress_of info) = ["extraction"]
  ∧ completion_percentage (progress_of info) = 25%Z.
Proof.
  apply (extraction_completed_only
           [ProcessingLog.mk "extraction_completed" "2024-01-15T10:33:45Z" None]).
  reflexivity.
Defined.

End StatusProperties.

(** ** Retry eligibility *)
Section RetryProperties.

Import RetryHandler.








(** After five retries the document is refused, and the reason names the
    limit. *)
Example retry_limit_reached :
  let r := _check_retry_eligibility (Logs five_retries) in
  eligible r = false
  ∧ reason r = "Maximum retry attempts exceeded (5 retries already attempted)"
  ∧ retry_count r = Some 5.
Proof. repeat split. Qed.

End RetryProperties.

(** ** The validation result *)
Section ResultProperties.

Import Validator.

Lemma snoc_not_nil {A} (l : list A) (x : A) : (l ++ [x])%list ≠ [].
Proof. by destruct l. Qed.

Lemma add_error_status r error :
  validation_status (add_error r error) = "failed".
Proof. reflexivity. Qed.

Lemma add_warning_passed r warning :
  validation_status r = "passed" →
  validation_status (add_warning r warning) = "flagged".
Proof. intros H. unfold add_warning. simpl. by rewrite H. Qed.

Lemma add_warning_not_passed r warning :
  validation_status r ≠ "passed" →
  validation_status (add_warning r warning) = validation_status r.
Proof.
  intros H. unfold add_warning. simpl.
  by destruct (String.eqb_spec (validation_status r) "passed").
Qed.

Lemma add_warning_failed r warning :
  validation_status r = "failed" →
  validation_status (add_warning r warning) = "failed".
Proof.
  intros H. rewrite add_warning_not_passed; [done|]. by rewrite H.
Qed.

(** Splits a statement about statuses into its cases and closes those that
    hold by contradiction or by a hypothesis. *)
Ltac status_cases :=
  repeat match goal with
         | |- _ ∧ _ => split
         | |- _ ↔ _ => split
         | |- _ → _ => intro
         | H : _ ∧ _ |- _ => destruct H
         end;
  try done; try tauto; try congruence.

Lemma add_error_agrees r error : status_agrees (add_error r error).
Proof.
  pose proof (snoc_not_nil (errors r) error) as He.
  unfold status_agrees. simpl. status_cases.
Qed.

Lemma add_warning_agrees r warning :
  status_agrees r → status_agrees (add_warning r warning).
Proof.
  unfold status_agrees. intros (Hf & Hg & Hp).
  pose proof (snoc_not_nil (warnings r) warning) as Hw.
  unfold add_warning. simpl.
  destruct (String.eqb_spec (validation_status r) "passed") as [Heq | Hne].
  - apply Hp in Heq as [He _]. status_cases.
  - status_cases.
Qed.

Lemma built_agrees r : built r → status_agrees r.
Proof.
  induction 1 as [| r error _ _ | r warning _ IH].
  - unfold status_agrees. simpl. status_cases.
  - apply add_error_agrees.
  - by apply add_warning_agrees.
Qed.

Lemma validate_all_agrees F cfg metrics extraction :
  status_agrees (validate_all F cfg metrics extraction).
Proof.
  unfold validate_all, status_agrees. simpl.
  destruct (_ ++ _ ++ _ ++ _)%list as [|e es].
  - destruct (_ ++ _ ++ _ ++ _)%list as [|w ws]; status_cases.
  - status_cases.
Qed.

(** C3: for a result built by any sequence of [add_error] and [add_warning]
    calls, and for the combined result of [validate_all], the status is
    [failed] iff there is an error, [flagged] iff there is no error and some
    warning, [passed] iff there is neither.  [add_error] always leaves
    [failed]; [add_warning] turns [passed] into [flagged] and leaves any
    other status, [failed] included, as it is. *)
Theorem validation_status_invariant :
  (∀ r, built r → status_agrees r)
  ∧ (∀ F cfg metrics extraction,
       status_agrees (validate_all F cfg metrics extraction))
  ∧ (∀ r error, validation_status (add_error r error) = "failed")
  ∧ (∀ r warning, validation_status r = "passed" →
       validation_status (add_warning r warning) = "flagged")
  ∧ (∀ r warning, validation_status r ≠ "passed" →
       validation_status (add_warning r warning) = validation_status r).
Proof.
  split; [exact built_agrees|]. split; [exact validate_all_agrees|].
  split; [exact add_error_status|].
  split; [exact add_warning_passed | exact add_warning_not_passed].
Qed.

Lemma validation_status_invariant_witness :
  let r := add_warning (add_error (add_warning new_result "w1") "e1") "w2" in
  status_agrees r ∧ validation_status r = "failed".
Proof.
  destruct validation_status_invariant as (Hbuilt & _ & _ & _ & Hkeep).
  split.
  - apply Hbuilt. repeat constructor.
  - apply (Hkeep (add_error (add_warning new_result "w1") "e1") "w2").
    simpl. discriminate.
Defined.

End ResultProperties.

(** ** Flagging a metric for review *)
Section ScorerProperties.

Import ConfidenceScorer.

Lemma Qltb_lt (x y : Q) : Qltb x y = true ↔ (x < y)%Q.
Proof.
  unfold Qltb. rewrite negb_true_iff. split.
  - intros H. apply Qnot_le_lt. intros Hle.
    apply Qle_bool_iff in Hle. congruence.
  - intros H. destruct (Qle_bool y x) eqn:Hle; [|done].
    apply Qle_bool_iff in Hle. exfalso. by apply (Qlt_not_le x y).
Qed.

Lemma Qltb_ge (x y : Q) : Qltb x y = false ↔ (y <= x)%Q.
Proof.
  unfold Qltb. rewrite negb_false_iff. apply Qle_bool_iff.
Qed.

(** C9: whatever the document-level threshold, [should_flag_for_review]
    gives the same answer, which is true exactly when the confidence is
    below the metric threshold. *)
Theorem should_flag_ignores_document_threshold
    (confidence document_threshold1 document_threshold2 metric_threshold : Q) :
  should_flag_for_review confidence document_threshold1 metric_threshold
  = should_flag_for_review confidence document_threshold2 metric_threshold
  ∧ (should_flag_for_review confidence document_threshold1 metric_threshold = true
     ↔ (confidence < metric_threshold)%Q).
Proof. split; [reflexivity | apply Qltb_lt]. Qed.

Lemma should_flag_ignores_document_threshold_witness :
  should_flag_for_review 0.65 0.10 default_metric_threshold = true
  ∧ should_flag_for_review 0.65 0.99 default_metric_threshold = true.
Proof.
  destruct (should_flag_ignores_document_threshold
              0.65 0.10 0.99 default_metric_threshold) as [Hsame Hiff].
  assert (H : should_flag_for_review 0.65 0.10 default_metric_threshold = true)
    by (apply Hiff; reflexivity).
  split; [exact H | rewrite <- Hsame; exact H].
Defined.

End ScorerProperties.

(** ** Text of the messages *)
Section MessageText.

Import Str.

Lemma lit_app (a b : string) : lit (a +:+ b) = (lit a ++ lit b)%list.
Proof. unfold lit. induction a as [|c a IH]; simpl; [done | by rewrite IH]. Qed.

Lemma startswith_app (p s : str) : startswith p (p ++ s) = true.
Proof.
  induction p as [|c p IH]; simpl; [done|].
  by rewrite Ascii.eqb_refl, IH.
Qed.

Lemma startswith_extend (p s post : str) :
  startswith p s = true → startswith p (s ++ post) = true.
Proof.
  revert s. induction p as [|c p IH]; intros [|d s] H; simpl in *; try done.
  apply andb_true_iff in H as [-> H]. simpl. by apply IH.
Qed.

Lemma contains_app_r (sub pre s : str) :
  contains sub s = true → contains sub (pre ++ s) = true.
Proof.
  intros H. induction pre as [|c pre IH]; simpl; [done|].
  rewrite IH. apply orb_true_r.
Qed.

Lemma contains_app_l (sub s post : str) :
  contains sub s = true → contains sub (s ++ post) = true.
Proof.
  induction s as [|c s IH]; simpl.
  - rewrite orb_false_r. intros H. destruct sub; [|done].
    destruct post; reflexivity.
  - intros H. apply orb_true_iff in H as [H | H].
    + apply (startswith_extend _ _ post) in H. simpl in H.
      by rewrite H.
    + rewrite IH; [apply orb_true_r | done].
Qed.

End MessageText.

(** ** Range and relationship validation *)
Section PassProperties.

Import Validator.

Variable F : float_format.

Lemma Qle_bool_true (x y : Q) : Qle_bool x y = true ↔ (x <= y)%Q.
Proof. apply Qle_bool_iff. Qed.

Lemma elem_of_snoc {A} (l : list A) (x y : A) :
  x ∈ l → x ∈ (l ++ [y])%list.
Proof. intros H. apply elem_of_app. by left. Qed.

Lemma elem_of_snoc_last {A} (l : list A) (x : A) : x ∈ (l ++ [x])%list.
Proof. apply elem_of_app. right. by apply list_elem_of_singleton. Qed.

Lemma range_step_errors (r : ValidationResult) (m : metric) (e : string) :
  e ∈ errors r → e ∈ errors (range_step F r m).
Proof.
  intros H. unfold range_step.
  repeat case_match; simpl; repeat apply elem_of_snoc; done.
Qed.

Lemma range_step_failed (r : ValidationResult) (m : metric) :
  validation_status r = "failed" →
  validation_status (range_step F r m) = "failed".
Proof.
  intros H. unfold range_step.
  repeat case_match; simpl; rewrite ?H; done.
Qed.

Lemma VALUE_RANGES_revenue :
  VALUE_RANGES !! "revenue" = Some (0%Q, 1000000000000%Q).
Proof. reflexivity. Qed.

(** One revenue metric that is not positive makes the step fail. *)
Lemma range_step_revenue (r : ValidationResult) (m : metric) :
  metric_type m = "revenue" → (value m <= 0)%Q →
  validation_status (range_step F r m) = "failed"
  ∧ revenue_positive_error F m ∈ errors (range_step F r m).
Proof.
  intros Htype Hvalue. apply Qle_bool_true in Hvalue.
  unfold range_step. rewrite Htype, VALUE_RANGES_revenue, Hvalue.
  cbn [String.eqb Ascii.eqb Bool.eqb andb].
  repeat case_match; simpl;
    (split; [done | repeat (apply elem_of_snoc_last || apply elem_of_snoc)]).
Qed.

Lemma validate_ranges_keeps (metrics : list metric) (r : ValidationResult)
    (e : string) :
  validation_status r = "failed" → e ∈ errors r →
  validation_status (foldl (range_step F) r metrics) = "failed"
  ∧ e ∈ errors (foldl (range_step F) r metrics).
Proof.
  revert r. induction metrics as [|m metrics IH]; intros r Hs He; [done|].
  simpl. apply IH; [by apply range_step_failed | by apply range_step_errors].
Qed.

Lemma revenue_positive_error_text (m : metric) :
  mentions "must be positive" (revenue_positive_error F m) = true.
Proof.
  unfold mentions, revenue_positive_error.
  rewrite lit_app. apply contains_app_r. reflexivity.
Qed.

(** C8: a revenue metric whose value is zero or negative makes range
    validation fail, with an error that says the revenue must be
    positive. *)
Theorem nonpositive_revenue_fails (metrics : list metric) (m : metric) :
  m ∈ metrics → metric_type m = "revenue" → (value m <= 0)%Q →
  let r := validate_ranges F metrics in
  validation_status r = "failed"
  ∧ ∃ e, e ∈ errors r ∧ mentions "must be positive" e = true.
Proof.
  intros Hin Htype Hvalue r. subst r. unfold validate_ranges.
  apply list_elem_of_split in Hin as (before & after & ->).
  rewrite foldl_app. simpl.
  destruct (range_step_revenue (foldl (range_step F) new_result before) m
              Htype Hvalue) as [Hs He].
  destruct (validate_ranges_keeps after _ _ Hs He) as [Hs' He'].
  split; [exact Hs'|].
  exists (revenue_positive_error F m).
  split; [exact He' | apply revenue_positive_error_text].
Qed.

(** [metric_lookup] after one more metric. *)
Lemma metric_lookup_snoc (metrics : list metric) (m : metric) :
  metric_lookup (metrics ++ [m])
  = <[metric_type m := value m]> (metric_lookup metrics).
Proof. unfold metric_lookup. by rewrite foldl_app. Qed.

(** When no two metrics share a type, every metric is found under its
    type. *)
Lemma metric_lookup_unique (metrics : list metric) (m : metric) :
  NoDup (metric_type <$> metrics) → m ∈ metrics →
  metric_lookup metrics !! metric_type m = Some (value m).
Proof.
  induction metrics as [|m' metrics IH] using rev_ind; intros Hnd Hin.
  - by apply elem_of_nil in Hin.
  - rewrite metric_lookup_snoc. rewrite fmap_app in Hnd. simpl in Hnd.
    apply NoDup_app in Hnd as (Hnd & Hfresh & _).
    apply elem_of_app in Hin as [Hin | Hin].
    + rewrite lookup_insert_ne; [by apply IH|].
      intros Heq. apply (Hfresh (metric_type m)).
      * apply list_elem_of_fmap. eauto.
      * rewrite Heq. by apply list_elem_of_singleton.
    + apply list_elem_of_singleton in Hin as ->. apply lookup_insert_eq.
Qed.

Lemma pyfloat_lt_trans (x y z : pyfloat) :
  pyfloat_lt x y = true → pyfloat_lt y z = true → pyfloat_lt x z = true.
Proof.
  destruct x as [a|[]|], y as [b|[]|], z as [c|[]|]; cbn; try done.
  rewrite !Qltb_lt. apply Qlt_trans.
Qed.

(** [d > max(x, c)] for a finite [c]: [d] is above both. *)
Lemma pyfloat_max_lt (x d : pyfloat) (c : Q) :
  pyfloat_lt (pyfloat_max x (Finite c)) d = true
  ↔ pyfloat_lt x d = true ∧ pyfloat_lt (Finite c) d = true.
Proof.
  unfold pyfloat_max. destruct (pyfloat_lt x (Finite c)) eqn:Hxc.
  - split; [|tauto]. intros H. split; [|done].
    by apply pyfloat_lt_trans with (Finite c).
  - split; [|tauto]. intros H. split; [done|].
    destruct x as [a|[]|], d as [b|[]|]; cbn in *; try done.
    rewrite Qltb_lt in *. apply Qltb_ge in Hxc.
    by apply Qle_lt_trans with a.
Qed.

(** C5, as the code has it.  The differences and the product of the rule
    are those of binary64, each rounded to the nearest float: when revenue,
    cogs and gross profit are all present, relationship validation warns of
    a mismatch exactly when the float [abs(gross_profit - expected)], with
    [expected] the float [revenue - cogs], is greater than both the float
    [abs(expected) * 0.01] and 1000; and it reports an error exactly when
    revenue exceeds cogs while the gross profit is zero or negative.  With
    revenue 1,000,000, cogs 600,000 and gross profit 400,000 there is no
    warning; with gross profit 450,000 there is the one mismatch warning
    and the status is [flagged]. *)
Theorem gross_profit_relationship (metrics : list metric)
    (revenue cogs gross_profit : Q) :
  metric_lookup metrics !! "revenue" = Some revenue →
  metric_lookup metrics !! "cogs" = Some cogs →
  metric_lookup metrics !! "gross_profit" = Some gross_profit →
  let r := validate_relationships F metrics in
  let expected := pyfloat_sub (Finite revenue) (Finite cogs) in
  let difference := pyfloat_abs (pyfloat_sub (Finite gross_profit) expected) in
  let one_percent := pyfloat_mul (pyfloat_abs expected) (Binary64.round 0.01) in
  let mismatch :=
    pyfloat_lt one_percent difference = true
    ∧ pyfloat_lt (Finite 1000) difference = true in
  let contradiction := (cogs < revenue)%Q ∧ (gross_profit <= 0)%Q in
  (mismatch → warnings r = [mismatch_warning F revenue cogs gross_profit])
  ∧ (¬ mismatch → warnings r = [])
  ∧ (contradiction → errors r = [gross_profit_sign_error F gross_profit])
  ∧ (¬ contradiction → errors r = [])
  ∧ (revenue = 1000000%Q → cogs = 600000%Q → gross_profit = 400000%Q →
     warnings r = [])
  ∧ (revenue = 1000000%Q → cogs = 600000%Q → gross_profit = 450000%Q →
     warnings r = [mismatch_warning F revenue cogs gross_profit]
     ∧ validation_status r = "flagged").
Proof.
  intros Hr Hc Hg r expected difference one_percent.
  assert (Hwarn : warnings r
                  = if pyfloat_lt (pyfloat_max one_percent (Finite 1000))
                                  difference
                    then [mismatch_warning F revenue cogs gross_profit]
                    else []).
  { subst r. unfold validate_relationships. rewrite Hr, Hc, Hg. cbv zeta.
    fold expected. fold one_percent. fold difference.
    destruct (pyfloat_lt (pyfloat_max one_percent (Finite 1000)) difference),
             (Qltb cogs revenue), (Qle_bool gross_profit 0); reflexivity. }
  assert (Herr : errors r
                 = if Qltb cogs revenue && Qle_bool gross_profit 0
                   then [gross_profit_sign_error F gross_profit] else []).
  { subst r. unfold validate_relationships. rewrite Hr, Hc, Hg. cbv zeta.
    destruct (pyfloat_lt (pyfloat_max _ _) _), (Qltb cogs revenue),
             (Qle_bool gross_profit 0); reflexivity. }
  assert (Hstatus : errors r = [] → warnings r ≠ [] →
                    validation_status r = "flagged").
  { pose proof (built_agrees r) as Hagrees. intros He Hw.
    apply Hagrees; [|done].
    subst r. unfold validate_relationships. cbv zeta.
    repeat first [ apply built_new | apply built_error | apply built_warning
                 | case_match ]. }
  intros mismatch contradiction.
  pose proof (pyfloat_max_lt one_percent difference 1000) as Htol.
  fold mismatch in Htol.
  pose proof (Qltb_lt cogs revenue) as Hlt.
  pose proof (Qle_bool_true gross_profit 0) as Hle.
  split; [|split; [|split; [|split; [|split]]]].
  - intros Hm. apply Htol in Hm. by rewrite Hwarn, Hm.
  - intros Hm. rewrite Hwarn.
    destruct (pyfloat_lt (pyfloat_max _ _) _); [|done].
    exfalso. by apply Hm, Htol.
  - intros [H1 H2]. apply Hlt in H1. apply Hle in H2.
    by rewrite Herr, H1, H2.
  - intros Hn. rewrite Herr.
    destruct (Qltb cogs revenue) eqn:H1; [|done].
    destruct (Qle_bool gross_profit 0) eqn:H2; [|done].
    exfalso. apply Hn. split; [by apply Hlt | by apply Hle].
  - intros -> -> ->. rewrite Hwarn. subst one_percent difference expected.
    by vm_compute.
  - intros -> -> ->.
    assert (Hw : warnings r
                 = [mismatch_warning F 1000000 600000 450000]).
    { rewrite Hwarn. subst one_percent difference expected.
      replace (pyfloat_lt _ _) with true by (by vm_compute). done. }
    split; [exact Hw|]. apply Hstatus.
    + rewrite Herr. by vm_compute.
    + by rewrite Hw.
Qed.

End PassProperties.

(** What range validation returns for it. *)
Example validate_ranges_negative_revenue :
  Validator.validate_ranges fraction_format [negative_revenue]
  = Validator.mk_result
      [ Validator.out_of_range_error fraction_format negative_revenue
          0 1000000000000;
        Validator.revenue_positive_error fraction_format negative_revenue ]
      [ Validator.unusually_small_warning fraction_format negative_revenue ]
      "failed".
Proof. reflexivity. Qed.

Lemma nonpositive_revenue_fails_witness :
  let r := Validator.validate_ranges fraction_format [negative_revenue] in
  Validator.validation_status r = "failed"
  ∧ ∃ e, e ∈ Validator.errors r ∧ mentions "must be positive" e = true.
Proof.
  apply (nonpositive_revenue_fails fraction_format
           [negative_revenue] negative_revenue).
  - apply list_elem_of_singleton. reflexivity.
  - reflexivity.
  - vm_compute. discriminate.
Defined.

Lemma gross_profit_relationship_witness :
  let r := Validator.validate_relationships fraction_format inconsistent_metrics in
  Validator.warnings r
  = [Validator.mismatch_warning fraction_format 1000000 600000 450000]
  ∧ Validator.validation_status r = "flagged".
Proof.
  destruct (gross_profit_relationship fraction_format inconsistent_metrics
              1000000 600000 450000) as (_ & _ & _ & _ & _ & H);
    try reflexivity.
  apply H; reflexivity.
Defined.

(** C5 as the specification words it, on real numbers, fails in both
    directions.  For the floats 6141.63, 1872.52 and 3269.11 the gross
    profit is exactly 1000 from revenue - cogs, which is within the
    tolerance, and the code warns: its difference is 1000.0000000000005.
    For the floats [2 ^ -70], 1001 and -2001 the gross profit is more than
    1000 from revenue - cogs, and the code does not warn: its difference is
    1000. *)
Lemma gross_profit_relationship_counterexample :
  let over (revenue cogs gross_profit : Q) : Prop :=
    (Qmax (0.01 * Qabs (revenue - cogs)) 1000
     < Qabs (gross_profit - (revenue - cogs)))%Q in
  let metrics (revenue cogs gross_profit : Q) :=
    [ Validator.mk_metric "revenue" "Total Revenue" revenue 0.95;
      Validator.mk_metric "cogs" "Cost of Goods Sold" cogs 0.95;
      Validator.mk_metric "gross_profit" "Gross Profit" gross_profit 0.95 ] in
  let revenue := Binary64.literal 6141.63 in
  let cogs := Binary64.literal 1872.52 in
  let gross_profit := Binary64.literal 3269.11 in
  (Qabs (gross_profit - (revenue - cogs)) == 1000)%Q
  ∧ ¬ over revenue cogs gross_profit
  ∧ Validator.warnings
      (Validator.validate_relationships fraction_format
         (metrics revenue cogs gross_profit))
    = [Validator.mismatch_warning fraction_format revenue cogs gross_profit]
  ∧ over (2 ^ (-70))%Q 1001%Q (-2001)%Q
  ∧ Validator.warnings
      (Validator.validate_relationships fraction_format
         (metrics (2 ^ (-70))%Q 1001%Q (-2001)%Q))
    = [].
Proof.
  cbv zeta. split; [by vm_compute|]. split; [by vm_compute|].
  split; [by vm_compute|]. split; by vm_compute.
Qed.

(** ** The number parser *)
Section ParserProperties.

Import Str NumberParser.

(** The parser on a non-empty string, step by step. *)
Lemma parse_nonempty (s : str) :
  s ≠ [] →
  parse_financial_number (PyStr s)
  = let c := clean (strip s) in
    match PyFloat.float (cleaned_text c) with
    | Some x =>
      (Some (if is_negative c
             then pyfloat_neg (pyfloat_scale x (magnitude_multiplier c))
             else pyfloat_scale x (magnitude_multiplier c)),
       _detect_currency (strip s))
    | None => (None, None)
    end.
Proof. destruct s; [done | reflexivity]. Qed.

(** C6: the parser answers on every argument, with either no value and no
    currency or a value (and possibly a currency); it never gives a
    currency without a value.  [None], the empty string and objects that are
    not strings give [(None, None)], and so does every string whose cleaned
    form [float] rejects. *)
Theorem parse_financial_number_total (text : pyobj) :
  (parse_financial_number text = (None, None)
   ∨ ∃ value currency, parse_financial_number text = (Some value, currency))
  ∧ ((parse_financial_number text).1 = None →
     (parse_financial_number text).2 = None)
  ∧ (∀ s, text = PyStr s →
       PyFloat.float (cleaned_text (clean (strip s))) = None →
       parse_financial_number text = (None, None))
  ∧ parse_financial_number PyNone = (None, None)
  ∧ parse_financial_number PyOther = (None, None)
  ∧ parse_financial_number (PyStr (lit "")) = (None, None)
  ∧ parse_financial_number (PyStr (lit "not a number")) = (None, None).
Proof.
  split; [|split; [|split; [|repeat split]]].
  - destruct text as [|[|c s]|]; try (left; reflexivity).
    rewrite parse_nonempty by done. cbv zeta.
    destruct (PyFloat.float _); [right; eauto | left; reflexivity].
  - destruct text as [|[|c s]|]; try reflexivity.
    rewrite parse_nonempty by done. cbv zeta.
    destruct (PyFloat.float _); [discriminate | reflexivity].
  - intros s -> Hfloat. destruct s as [|c s]; [reflexivity|].
    rewrite parse_nonempty by done. cbv zeta. by rewrite Hfloat.
Qed.

Lemma parse_financial_number_total_witness :
  parse_financial_number (PyStr (lit "USD n/a")) = (None, None).
Proof.
  destruct (parse_financial_number_total (PyStr (lit "USD n/a")))
    as (_ & _ & H & _).
  apply (H (lit "USD n/a")); reflexivity.
Defined.

(** The documented formats. *)
Example parse_us_format : parses_to "1,234,567.89" 1234567.89 None.
Proof. by vm_compute. Qed.

Example parse_european_format : parses_to "€1.234,56" 1234.56 (Some "EUR").
Proof. by vm_compute. Qed.

Example parse_negative_with_currency :
  parses_to "($1,234.56)" (-1234.56) (Some "USD").
Proof. by vm_compute. Qed.

Example parse_decimal_comma : parses_to "1234,56" 1234.56 None.
Proof. by vm_compute. Qed.

(** C4, at the input of the claim: with two digits after the last of
    several commas, the parser turns the first comma into the decimal point
    and drops the others, so that 1,234,56 becomes the float 1.23456 and
    not the float 1234.56. *)
Theorem comma_decimal_takes_first_comma :
  normalize_separators (lit "1,234,56") = lit "1.23456"
  ∧ parse_financial_number (PyStr (lit "1,234,56"))
    = (Some (Binary64.round 1.23456), None)
  ∧ parse_financial_number (PyStr (lit "1,234,56"))
    ≠ (Some (Binary64.round 1234.56), None)
  ∧ Qeq_bool (123456 # 100000) 1.23456 = true
  ∧ Qeq_bool (123456 # 100000) 1234.56 = false.
Proof. repeat split; by vm_compute. Qed.

End ParserProperties.

(** ** Magnitude suffixes *)
Section MagnitudeProperties.

Import Str NumberParser.

(** Case analysis on a character. *)
Ltac ascii_cases c :=
  destruct c as [[] [] [] [] [] [] [] []]; try discriminate; try reflexivity.



Lemma nonempty_digits_spec ds :
  nonempty_digits ds = true ↔ ds ≠ [] ∧ forallb is_digit ds = true.
Proof. destruct ds; simpl; split; try done; by intros []. Qed.



Lemma decimal_not_space c : decimal_char c = true → is_space c = false.
Proof. ascii_cases c. Qed.




(** *** Strings without a given character *)


Lemma absent_replace h t new s :
  absent h s = true → replace (h :: t) new s = s.
Proof.
  unfold replace. induction s as [|c s IH]; [done|]. simpl.
  intros [Hc Hs]%andb_true_iff. apply negb_true_iff in Hc.
  rewrite Hc. simpl. by rewrite IH.
Qed.

Lemma absent_count h t s : absent h s = true → count (h :: t) s = 0.
Proof.
  unfold count. induction s as [|c s IH]; [done|]. simpl.
  intros [Hc Hs]%andb_true_iff. apply negb_true_iff in Hc.
  rewrite Hc. simpl. by apply IH.
Qed.








(** *** The shape of a rendering *)






(** *** The magnitude suffix *)





(** *** The steps of [float] *)







(** *** The value of a rendering *)




(** *** [float] on a rendering *)





(** *** The parser on a rendering with a suffix *)





End MagnitudeProperties.



(** The scientific form Python uses for large numbers. *)
Example parse_scientific_with_suffix :
  NumberParser.parse_financial_number
    (NumberParser.PyStr (Str.lit "1.5e+16K"))
  = (Some (Finite 15000000000000000000), None).
Proof. by vm_compute. Qed.

(** * Further properties of the code *)

Section PassResults.

Import Validator.

Variable F : float_format.
Variable cfg : config.

Lemma built_foldl {A} (f : ValidationResult → A → ValidationResult) (l : list A) r :
  (∀ r x, built r → built (f r x)) → built r → built (foldl f r l).
Proof.
  intros Hf. revert r. induction l as [|x l IH]; intros r Hr; [done|].
  simpl. apply IH, Hf, Hr.
Qed.

Lemma built_if (b : bool) r1 r2 : built r1 → built r2 → built (if b then r1 else r2).
Proof. by destruct b. Qed.

(** Builds a result step by step. *)
Ltac build_result :=
  cbv zeta;
  repeat first
    [ assumption | apply built_new | apply built_error | apply built_warning
    | apply built_if | apply built_foldl; [intros|] | case_match ].

Lemma built_completeness metrics extraction :
  built (validate_completeness metrics extraction).
Proof. unfold validate_completeness. build_result. Qed.

Lemma built_range_step r m : built r → built (range_step F r m).
Proof. intros Hr. unfold range_step. build_result. Qed.

Lemma built_ranges metrics : built (validate_ranges F metrics).
Proof.
  unfold validate_ranges. apply built_foldl; [|constructor].
  intros. by apply built_range_step.
Qed.

Lemma built_confidence metrics extraction :
  built (validate_confidence F cfg metrics extraction).
Proof. unfold validate_confidence. build_result. Qed.

Lemma built_relationships metrics : built (validate_relationships F metrics).
Proof. unfold validate_relationships. build_result. Qed.

(** Each of the four passes returns a result whose status is the one its
    lists determine. *)
Lemma passes_agree (metrics : list metric) (extraction : extraction_result) :
  status_agrees (validate_completeness metrics extraction)
  ∧ status_agrees (validate_ranges F metrics)
  ∧ status_agrees (validate_confidence F cfg metrics extraction)
  ∧ status_agrees (validate_relationships F metrics).
Proof.
  split; [|split; [|split]]; apply built_agrees;
    auto using built_completeness, built_ranges, built_confidence,
      built_relationships.
Qed.

Lemma app4_nil {A} (a b c d : list A) :
  (a ++ b ++ c ++ d)%list = [] ↔ a = [] ∧ b = [] ∧ c = [] ∧ d = [].
Proof.
  split.
  - intros H. repeat (apply app_eq_nil in H as [? H]). done.
  - by intros (-> & -> & -> & ->).
Qed.

(** [validate_all] fails exactly when one of the four passes fails, and
    passes exactly when all four pass; its errors and warnings are those of
    completeness, range, confidence and relationship validation, in that
    order. *)
Theorem validate_all_combines (metrics : list metric) (extraction : extraction_result) :
  let completeness := validate_completeness metrics extraction in
  let ranges := validate_ranges F metrics in
  let confidence := validate_confidence F cfg metrics extraction in
  let relationships := validate_relationships F metrics in
  let combined := validate_all F cfg metrics extraction in
  errors combined
  = (errors completeness ++ errors ranges
     ++ errors confidence ++ errors relationships)%list
  ∧ warnings combined
    = (warnings completeness ++ warnings ranges
       ++ warnings confidence ++ warnings relationships)%list
  ∧ (validation_status combined = "failed"
     ↔ validation_status completeness = "failed"
       ∨ validation_status ranges = "failed"
       ∨ validation_status confidence = "failed"
       ∨ validation_status relationships = "failed")
  ∧ (validation_status combined = "passed"
     ↔ validation_status completeness = "passed"
       ∧ validation_status ranges = "passed"
       ∧ validation_status confidence = "passed"
       ∧ validation_status relationships = "passed").
Proof.
  intros c g f r combined.
  destruct (passes_agree metrics extraction)
    as ((Hcf & _ & Hcp) & (Hgf & _ & Hgp) & (Hff & _ & Hfp) & (Hrf & _ & Hrp)).
  fold c in Hcf, Hcp. fold g in Hgf, Hgp. fold f in Hff, Hfp.
  fold r in Hrf, Hrp.
  destruct (validate_all_agrees F cfg metrics extraction) as (Haf & _ & Hap).
  fold combined in Haf, Hap.
  assert (He : errors combined
               = (errors c ++ errors g ++ errors f ++ errors r)%list)
    by reflexivity.
  assert (Hw : warnings combined
               = (warnings c ++ warnings g ++ warnings f ++ warnings r)%list)
    by reflexivity.
  split; [exact He|]. split; [exact Hw|].
  rewrite Haf, Hap, Hcf, Hgf, Hff, Hrf, Hcp, Hgp, Hfp, Hrp, He, Hw, !app4_nil.
  split; [|tauto].
  split.
  - intros Hne.
    destruct (decide (errors c = [])) as [Hc|Hc]; [|by left].
    destruct (decide (errors g = [])) as [Hg|Hg]; [|by right; left].
    destruct (decide (errors f = [])) as [Hf|Hf]; [|by right; right; left].
    destruct (decide (errors r = [])) as [Hr|Hr]; [|by right; right; right].
    exfalso. by apply Hne.
  - intros H (Hc & Hg & Hf & Hr). destruct H as [H|[H|[H|H]]]; done.
Qed.

(** Completeness validation fails exactly when the revenue or the net
    income metric is missing, and passes exactly when all five metric types
    it looks for are present. *)
Theorem completeness_verdict (metrics : list metric) (extraction : extraction_result) :
  let metric_types : gset string := list_to_set (metric_type <$> metrics) in
  let r := validate_completeness metrics extraction in
  (validation_status r = "failed"
   ↔ "revenue" ∉ metric_types ∨ "net_income" ∉ metric_types)
  ∧ (validation_status r = "passed"
     ↔ "revenue" ∈ metric_types ∧ "net_income" ∈ metric_types
       ∧ "cogs" ∈ metric_types ∧ "gross_profit" ∈ metric_types
       ∧ "operating_expenses" ∈ metric_types).
Proof.
  intros metric_types r. subst r. unfold validate_completeness.
  fold metric_types.
  assert (Hlen : "revenue" ∈ metric_types → "cogs" ∈ metric_types →
                 "gross_profit" ∈ metric_types →
                 Nat.ltb (length metrics) 3 = false).
  { intros H1 H2 H3. apply Nat.ltb_ge.
    rewrite <- (length_fmap metric_type).
    change 3 with (length ["revenue"; "cogs"; "gross_profit"]).
    apply submseteq_length, NoDup_submseteq.
    - by apply (bool_decide_unpack _).
    - intros x Hx. apply (elem_of_list_to_set (C := gset string)).
      repeat (apply elem_of_cons in Hx as [-> | Hx]; [done|]).
      by apply elem_of_nil in Hx. }
  cbn [foldl REQUIRED_INCOME_STATEMENT_METRICS
       RECOMMENDED_INCOME_STATEMENT_METRICS].
  repeat case_bool_decide; cbn [negb];
    destruct (Nat.ltb (length metrics) 3);
    cbn; (split; split; intros; try done; try tauto;
          try (exfalso; tauto);
          try (assert (true = false) by (apply Hlen; tauto); done)).
Qed.

End PassResults.

Section PassVerdicts.

Import Validator.

Variable F : float_format.
Variable cfg : config.



Lemma range_step_errors_app r m :
  errors (range_step F r m) = (errors r ++ range_errors F m)%list.
Proof.
  unfold range_step, range_errors.
  destruct (VALUE_RANGES !! metric_type m) as [[lo hi]|];
    [|by rewrite app_nil_r].
  repeat case_match; simpl; rewrite <- ?app_assoc, ?app_nil_r; done.
Qed.

Lemma validate_ranges_errors metrics :
  errors (validate_ranges F metrics) = concat (range_errors F <$> metrics).
Proof.
  unfold validate_ranges.
  assert (H : ∀ r, errors (foldl (range_step F) r metrics)
                   = (errors r ++ concat (range_errors F <$> metrics))%list).
  { induction metrics as [|m l IH]; intros r; simpl.
    - by rewrite app_nil_r.
    - by rewrite IH, range_step_errors_app, <- app_assoc. }
  apply H.
Qed.

Lemma range_errors_nil m : range_errors F m = [] ↔ within_range m.
Proof.
  unfold range_errors, within_range.
  destruct (VALUE_RANGES !! metric_type m) as [[lo hi]|]; [|done].
  destruct (Qltb (value m) lo) eqn:H1; [|destruct (Qltb hi (value m)) eqn:H2];
    simpl.
  - apply Qltb_lt in H1. split; [done|]. intros (H & _).
    exfalso. by apply (Qlt_not_le _ _ H1).
  - apply Qltb_lt in H2. split; [done|]. intros (_ & H & _).
    exfalso. by apply (Qlt_not_le _ _ H2).
  - apply Qltb_ge in H1, H2.
    destruct (String.eqb_spec (metric_type m) "revenue") as [Ht|Ht]; simpl.
    + destruct (Qle_bool (value m) 0) eqn:H3.
      * apply Qle_bool_true in H3. split; [done|]. intros (_ & _ & H).
        exfalso. by apply (Qlt_not_le _ _ (H Ht)).
      * split; [|done]. intros _. repeat split; try done.
        intros _. apply Qnot_le_lt. intros H. apply Qle_bool_true in H.
        congruence.
    + split; [|done]. intros _. repeat split; done.
Qed.

Lemma concat_fmap_nil {A B} (f : A → list B) (l : list A) :
  concat (f <$> l) = [] ↔ Forall (fun x => f x = []) l.
Proof.
  induction l as [|x l IH]; csimpl; [by split|].
  rewrite Forall_cons, <- IH. split.
  - by intros [? ?]%app_eq_nil.
  - by intros [-> ->].
Qed.

(** Range validation judges each metric by itself: its errors are those of
    the metrics in order, a metric of a type without a range is skipped,
    and the status is not failed exactly when every metric is within the
    range of its type and every revenue is positive. *)
Theorem ranges_verdict (metrics : list metric) :
  let r := validate_ranges F metrics in
  errors r = concat (range_errors F <$> metrics)
  ∧ (validation_status r ≠ "failed" ↔ Forall within_range metrics).
Proof.
  intros r. split; [apply validate_ranges_errors|].
  destruct (built_agrees _ (built_ranges F metrics)) as (Hf & _).
  fold r in Hf. rewrite Hf. subst r. rewrite validate_ranges_errors.
  assert (Hall : Forall within_range metrics
                 ↔ Forall (fun m => range_errors F m = []) metrics).
  { split; intros H; (eapply Forall_impl; [exact H|]);
      intros m Hm; by apply range_errors_nil. }
  rewrite Hall, <- concat_fmap_nil. split.
  - intros H. destruct (concat _); [done|]. exfalso. by apply H.
  - intros -> H. by apply H.
Qed.

Lemma metric_lookup_None metrics t :
  metric_lookup metrics !! t = None ↔ t ∉ metric_type <$> metrics.
Proof.
  induction metrics as [|m l IH] using rev_ind.
  - split; [intros _ H; by apply elem_of_nil in H | done].
  - rewrite metric_lookup_snoc, fmap_app, elem_of_app. simpl.
    rewrite list_elem_of_singleton.
    destruct (decide (metric_type m = t)) as [<- | Hne].
    + rewrite lookup_insert_eq. split; [done | intros H; exfalso; auto].
    + rewrite lookup_insert_ne by done. rewrite IH. split; [|tauto].
      intros H [H' | H']; [done | by apply Hne].
Qed.

(** Relationship validation says nothing unless it has all it compares:
    when revenue, cogs or gross profit is missing there is no warning and no
    error; and in any case there is at most one warning and one error. *)
Theorem relationships_need_all_three (metrics : list metric) :
  let r := validate_relationships F metrics in
  ("revenue" ∉ metric_type <$> metrics
   ∨ "cogs" ∉ metric_type <$> metrics
   ∨ "gross_profit" ∉ metric_type <$> metrics →
   r = new_result)
  ∧ (length (warnings r) <= 1)%nat ∧ (length (errors r) <= 1)%nat.
Proof.
  intros r. subst r. unfold validate_relationships.
  rewrite <- !metric_lookup_None.
  destruct (metric_lookup metrics !! "revenue") as [revenue|],
           (metric_lookup metrics !! "cogs") as [cogs|],
           (metric_lookup metrics !! "gross_profit") as [gross_profit|];
    (split; [intros [H | [H | H]]; try done; by repeat case_match|]);
    repeat case_match; simpl; lia.
Qed.

End PassVerdicts.

Section ReviewProperties.

Import Validator.

(** For a result whose status agrees with its lists, manual review is
    required exactly when there is an error or a warning, and the result is
    valid exactly when its status is not failed; a flagged result is valid
    and still requires review. *)
Theorem review_matches_status (r : ValidationResult) :
  status_agrees r →
  (requires_manual_review r = true ↔ errors r ≠ [] ∨ warnings r ≠ [])
  ∧ (is_valid r = true ↔ validation_status r ≠ "failed")
  ∧ (validation_status r = "flagged" →
     is_valid r = true ∧ requires_manual_review r = true).
Proof.
  intros (Hf & Hg & Hp). unfold requires_manual_review, is_valid.
  assert (Hvalid : Nat.eqb (length (errors r)) 0 = true ↔ errors r = []).
  { destruct (errors r); simpl; split; done. }
  rewrite Hvalid. cbn [existsb]. rewrite orb_false_r, orb_true_iff.
  rewrite !String.eqb_eq, Hf, Hg.
  destruct (errors r), (warnings r); repeat split; try done; try tauto;
    try (intros [[_ H] | H]; done); try (intros [H | H]; done);
    try (intros H; by apply H); try (intros [? ?]; done).
  all: try (intros _; left; split; done).
  all: try (intros _; right; done).
  all: try (intros H; exfalso; by apply H).
Qed.

Lemma review_matches_status_witness :
  let r := add_warning new_result "Low document confidence" in
  is_valid r = true ∧ requires_manual_review r = true.
Proof.
  intros r.
  destruct (review_matches_status r) as (_ & _ & H).
  - apply built_agrees. repeat constructor.
  - by apply H.
Defined.

End ReviewProperties.

Section ProgressProperties.

Import StatusHandler.

Lemma stage_step_filter events acc stage :
  stage_step events acc stage
  = if triggered events stage
    then ((acc.1 ++ [stage.1])%list, Some stage.1) else acc.
Proof. by destruct stage. Qed.

(** The loop over the stages keeps those with an event, in order. *)
Lemma stages_fold events (l : list (string * list string)) acc :
  (foldl (stage_step events) acc l).1
  = (acc.1 ++ (fst <$> List.filter (triggered events) l))%list
  ∧ (foldl (stage_step events) acc l).2
    = match last (fst <$> List.filter (triggered events) l) with
      | Some s => Some s
      | None => acc.2
      end.
Proof.
  revert acc. induction l as [|stage l IH]; intros acc.
  - simpl. by rewrite app_nil_r.
  - cbn [foldl List.filter]. rewrite stage_step_filter.
    destruct (triggered events stage) eqn:Ht.
    + destruct (IH ((acc.1 ++ [stage.1])%list, Some stage.1)) as [-> ->].
      cbn [fst snd]. rewrite <- app_assoc. split; [done|].
      csimpl. rewrite last_cons. by destruct (last _).
    + destruct (IH acc) as [-> ->]. done.
Qed.

Lemma stages_completed_filter events :
  stages_completed (_calculate_progress events)
  = fst <$> List.filter (triggered events) stages.
Proof.
  unfold _calculate_progress.
  destruct (foldl (stage_step events) ([], None) stages) as [c s] eqn:Hfold.
  cbn [stages_completed].
  pose proof (stages_fold events stages ([], None)) as [H _].
  rewrite Hfold in H. exact H.
Qed.

Lemma filter_cons_app {A} (f : A → bool) (x : A) (l : list A) :
  List.filter f (x :: l) = ((if f x then [x] else []) ++ List.filter f l)%list.
Proof. simpl. by destruct (f x). Qed.

(** The stages completed, stage by stage. *)
Lemma stages_completed_cases events :
  stages_completed (_calculate_progress events)
  = ((if event_in "queued" events then ["upload"] else [])
     ++ (if event_in "ingestion_started" events then ["ingestion"] else [])
     ++ (if event_in "extraction_started" events
            || event_in "extraction_completed" events
         then ["extraction"] else [])
     ++ (if event_in "validation_started" events
            || event_in "validation_completed" events
         then ["validation"] else []))%list.
Proof.
  rewrite stages_completed_filter. unfold stages.
  rewrite !filter_cons_app. cbn [List.filter]. rewrite !fmap_app.
  unfold triggered. cbn [existsb snd]. rewrite !orb_false_r, app_nil_r.
  repeat f_equal;
    match goal with |- context [if ?b then _ else _] => by destruct b end.
Qed.

Lemma current_stage_last events :
  current_stage (_calculate_progress events)
  = default "queued" (last (stages_completed (_calculate_progress events))).
Proof.
  rewrite stages_completed_filter. unfold _calculate_progress.
  destruct (foldl (stage_step events) ([], None) stages) as [c s] eqn:Hfold.
  cbn [current_stage].
  pose proof (stages_fold events stages ([], None)) as [_ H].
  rewrite Hfold in H. cbn [snd] in H. rewrite H.
  rewrite <- stages_completed_filter, stages_completed_cases.
  destruct (event_in "queued" events), (event_in "ingestion_started" events),
    (event_in "extraction_started" events || event_in "extraction_completed" events),
    (event_in "validation_started" events || event_in "validation_completed" events);
    reflexivity.
Qed.

Lemma percentage_by_stage events :
  completion_percentage (_calculate_progress events)
  = (25 * Z.of_nat (length (stages_completed (_calculate_progress events))))%Z.
Proof.
  rewrite stages_completed_cases. unfold _calculate_progress.
  destruct (foldl (stage_step events) ([], None) stages) as [c s] eqn:Hfold.
  cbn [completion_percentage].
  pose proof (stages_completed_cases events) as H.
  unfold _calculate_progress in H. rewrite Hfold in H.
  cbn [stages_completed] in H. rewrite H.
  destruct (event_in "queued" events), (event_in "ingestion_started" events),
    (event_in "extraction_started" events || event_in "extraction_completed" events),
    (event_in "validation_started" events || event_in "validation_completed" events);
    reflexivity.
Qed.

Lemma triggered_spec events stage :
  triggered events stage = true ↔ ∃ event, event ∈ stage.2 ∧ event ∈ events.
Proof.
  unfold triggered. rewrite existsb_exists. split.
  - intros (e & He & Hin). exists e. split.
    + by apply list_elem_of_In.
    + by apply bool_decide_eq_true in Hin.
  - intros (e & He & Hin). exists e. split.
    + by apply list_elem_of_In.
    + by apply bool_decide_eq_true.
Qed.

Lemma filter_sublist {A} (f : A → bool) (l : list A) :
  sublist (List.filter f l) l.
Proof.
  induction l as [|x l IH]; simpl; [constructor|].
  destruct (f x); by constructor.
Qed.

Lemma filter_sublist_mono {A} (f g : A → bool) (l : list A) :
  (∀ x, f x = true → g x = true) →
  sublist (List.filter f l) (List.filter g l).
Proof.
  intros Hfg. induction l as [|x l IH]; simpl; [constructor|].
  destruct (f x) eqn:Hf.
  - rewrite (Hfg _ Hf). by constructor.
  - destruct (g x); [by constructor | done].
Qed.

(** The progress shows the stages that have an event in the set, in the
    order of the pipeline; the current stage is the last of them ([queued]
    when there is none), and each stage counts for 25 percent. *)
Theorem progress_reflects_events (events : gset string) :
  let p := _calculate_progress events in
  sublist (stages_completed p) ["upload"; "ingestion"; "extraction"; "validation"]
  ∧ (∀ stage, stage ∈ stages →
       stage.1 ∈ stages_completed p
       ↔ ∃ event, event ∈ stage.2 ∧ event ∈ events)
  ∧ current_stage p = default "queued" (last (stages_completed p))
  ∧ completion_percentage p = (25 * Z.of_nat (length (stages_completed p)))%Z
  ∧ (completion_percentage p = 100%Z
     ↔ stages_completed p = ["upload"; "ingestion"; "extraction"; "validation"]).
Proof.
  intros p. subst p.
  split; [|split; [|split; [|split]]].
  - rewrite stages_completed_filter.
    change ["upload"; "ingestion"; "extraction"; "validation"]
      with (fst <$> stages).
    apply fmap_sublist, filter_sublist.
  - intros stage Hstage. rewrite <- triggered_spec, stages_completed_filter.
    rewrite list_elem_of_fmap. split.
    + intros (stage' & Hname & Hin).
      apply list_elem_of_In, filter_In in Hin as [Hin Ht].
      apply list_elem_of_In in Hin. unfold stages in Hstage, Hin.
      repeat (apply elem_of_cons in Hstage as [-> | Hstage]);
        [..| by apply elem_of_nil in Hstage];
        repeat (apply elem_of_cons in Hin as [-> | Hin]);
        try (by apply elem_of_nil in Hin); done.
    + intros Ht. exists stage. split; [done|].
      apply list_elem_of_In, filter_In. split; [|done].
      by apply list_elem_of_In.
  - apply current_stage_last.
  - apply percentage_by_stage.
  - rewrite percentage_by_stage, stages_completed_cases.
    destruct (event_in "queued" events), (event_in "ingestion_started" events),
      (event_in "extraction_started" events || event_in "extraction_completed" events),
      (event_in "validation_started" events || event_in "validation_completed" events);
      cbn; split; intros H; first [done | lia].
Qed.

(** More events never take progress back: the stages completed stay
    completed, and the percentage does not fall. *)
Theorem progress_monotone (events events' : gset string) :
  events ⊆ events' →
  let p := _calculate_progress events in
  let p' := _calculate_progress events' in
  sublist (stages_completed p) (stages_completed p')
  ∧ (completion_percentage p <= completion_percentage p')%Z.
Proof.
  intros Hsub p p'. subst p p'.
  assert (Hs : sublist (stages_completed (_calculate_progress events))
                       (stages_completed (_calculate_progress events'))).
  { rewrite !stages_completed_filter. apply fmap_sublist, filter_sublist_mono.
    intros stage. rewrite !triggered_spec. intros (e & He & Hin).
    exists e. split; [done|]. by apply Hsub. }
  split; [done|]. rewrite !percentage_by_stage.
  apply sublist_length in Hs. lia.
Qed.

Lemma progress_monotone_witness :
  let p := _calculate_progress {[ "queued" ]} in
  let p' := _calculate_progress {[ "queued"; "extraction_started" ]} in
  sublist (stages_completed p) (stages_completed p')
  ∧ (completion_percentage p <= completion_percentage p')%Z.
Proof.
  apply (progress_monotone {[ "queued" ]} {[ "queued"; "extraction_started" ]}).
  set_solver.
Defined.

End ProgressProperties.

Section TimestampProperties.

Import StatusHandler.

(** The newest entry is the last the loop sees. *)
Lemma extract_timestamps_cons l processing_logs :
  _extract_timestamps (l :: processing_logs)
  = timestamp_step (_extract_timestamps processing_logs) l.
Proof.
  unfold _extract_timestamps. by rewrite reverse_cons, foldl_app.
Qed.

Lemma completed_at_step ts l :
  completed_at (timestamp_step ts l)
  = if String.eqb (ProcessingLog.event_type l) "validation_completed"
    then Some (ProcessingLog.event_timestamp l) else completed_at ts.
Proof.
  unfold timestamp_step. cbv zeta.
  repeat (match goal with
          | |- context [if ?b then _ else _] => destruct b
          end; cbn [completed_at]); done.
Qed.

Lemma uploaded_at_step ts l :
  uploaded_at (timestamp_step ts l)
  = if (String.eqb (ProcessingLog.event_type l) "queued"
        || String.eqb (ProcessingLog.event_type l) "ingestion_started")
       && negb (truthy (uploaded_at ts))
    then Some (ProcessingLog.event_timestamp l) else uploaded_at ts.
Proof.
  unfold timestamp_step. cbv zeta.
  repeat (match goal with
          | |- context [if ?b then _ else _] => destruct b
          end; cbn [uploaded_at]); done.
Qed.

Lemma started_processing_at_step ts l :
  started_processing_at (timestamp_step ts l)
  = if String.eqb (ProcessingLog.event_type l) "extraction_started"
       && negb (truthy (started_processing_at ts))
    then Some (ProcessingLog.event_timestamp l) else started_processing_at ts.
Proof.
  unfold timestamp_step. cbv zeta.
  destruct ((String.eqb _ "queued" || _) && _); cbn [started_processing_at];
    destruct (String.eqb _ "extraction_started" && _);
    cbn [started_processing_at];
    destruct (String.eqb _ "validation_completed");
    cbn [started_processing_at]; done.
Qed.

Lemma records_one t l :
  records [t] l ↔ String.eqb (ProcessingLog.event_type l) t = true.
Proof.
  unfold records. rewrite list_elem_of_singleton. symmetry.
  apply String.eqb_eq.
Qed.

Lemma records_two t1 t2 l :
  records [t1; t2] l
  ↔ String.eqb (ProcessingLog.event_type l) t1
    || String.eqb (ProcessingLog.event_type l) t2 = true.
Proof.
  unfold records. rewrite orb_true_iff, !String.eqb_eq.
  rewrite elem_of_cons, list_elem_of_singleton. done.
Qed.

(** [completed_at] is the time of the newest [validation_completed]. *)
Lemma completed_at_newest processing_logs :
  completed_at (_extract_timestamps processing_logs)
  = ProcessingLog.event_timestamp
      <$> head (filter (records ["validation_completed"]) processing_logs).
Proof.
  induction processing_logs as [|l logs IH]; [done|].
  rewrite extract_timestamps_cons, completed_at_step, filter_cons.
  destruct (decide (records ["validation_completed"] l)) as [Hr | Hr].
  - apply records_one in Hr as ->. done.
  - destruct (String.eqb _ _) eqn:He; [|done].
    exfalso. by apply Hr, records_one.
Qed.

Lemma last_filter_cons {A} (P : A → Prop) `{∀ x, Decision (P x)} x (l : list A) :
  last (filter P (x :: l))
  = match last (filter P l) with
    | Some y => Some y
    | None => if decide (P x) then Some x else None
    end.
Proof.
  rewrite filter_cons. destruct (decide (P x)); [|by destruct (last _)].
  by rewrite last_cons.
Qed.

Lemma truthy_timestamp (types : list string) processing_logs :
  Forall (fun l => ProcessingLog.event_timestamp l ≠ "") processing_logs →
  truthy (ProcessingLog.event_timestamp
            <$> last (filter (records types) processing_logs))
  = bool_decide (is_Some (last (filter (records types) processing_logs))).
Proof.
  intros Hall.
  destruct (last (filter (records types) processing_logs)) as [l|] eqn:Hlast.
  - assert (Hl : l ∈ processing_logs).
    { apply last_Some in Hlast as [t Ht].
      assert (Hin : l ∈ filter (records types) processing_logs)
        by (rewrite Ht; apply elem_of_app; right; apply list_elem_of_here).
      by apply list_elem_of_filter in Hin as [_ ?]. }
    rewrite Forall_forall in Hall. specialize (Hall _ Hl). cbn.
    by destruct (String.eqb_spec (ProcessingLog.event_timestamp l) "").
  - done.
Qed.

(** The three timestamps of a log whose entries all carry a time:
    [uploaded_at] is the time of the oldest [queued] or [ingestion_started]
    entry, [started_processing_at] that of the oldest [extraction_started]
    entry, and [completed_at] that of the newest [validation_completed]
    entry; each is [None] when there is no such entry. *)
Theorem timestamps_of_events (processing_logs : list log) :
  Forall (fun l => ProcessingLog.event_timestamp l ≠ "") processing_logs →
  let ts := _extract_timestamps processing_logs in
  uploaded_at ts
  = ProcessingLog.event_timestamp
      <$> last (filter (records ["queued"; "ingestion_started"]) processing_logs)
  ∧ started_processing_at ts
    = ProcessingLog.event_timestamp
        <$> last (filter (records ["extraction_started"]) processing_logs)
  ∧ completed_at ts
    = ProcessingLog.event_timestamp
        <$> head (filter (records ["validation_completed"]) processing_logs).
Proof.
  intros Hall ts. subst ts.
  split; [|split; [|apply completed_at_newest]].
  - induction processing_logs as [|l logs IH]; [done|].
    apply Forall_cons in Hall as [Hl Hall]. specialize (IH Hall).
    rewrite extract_timestamps_cons, uploaded_at_step, IH.
    rewrite (truthy_timestamp _ _ Hall), last_filter_cons.
    destruct (last (filter _ logs)) as [y|] eqn:Hlast.
    + rewrite bool_decide_eq_true_2 by eauto. by rewrite andb_false_r.
    + rewrite bool_decide_eq_false_2 by (by intros [? ?]).
      rewrite andb_true_r.
      destruct (decide (records ["queued"; "ingestion_started"] l)) as [Hr|Hr].
      * apply records_two in Hr as ->. done.
      * destruct (_ || _) eqn:He; [|done]. exfalso. by apply Hr, records_two.
  - induction processing_logs as [|l logs IH]; [done|].
    apply Forall_cons in Hall as [Hl Hall]. specialize (IH Hall).
    rewrite extract_timestamps_cons, started_processing_at_step, IH.
    rewrite (truthy_timestamp _ _ Hall), last_filter_cons.
    destruct (last (filter _ logs)) as [y|] eqn:Hlast.
    + rewrite bool_decide_eq_true_2 by eauto. by rewrite andb_false_r.
    + rewrite bool_decide_eq_false_2 by (by intros [? ?]).
      rewrite andb_true_r.
      destruct (decide (records ["extraction_started"] l)) as [Hr|Hr].
      * apply records_one in Hr as ->. done.
      * destruct (String.eqb _ _) eqn:He; [|done].
        exfalso. by apply Hr, records_one.
Qed.

Lemma timestamps_of_events_witness :
  let ts := _extract_timestamps completed_run in
  uploaded_at ts = Some "2024-01-15T10:30:00Z"
  ∧ started_processing_at ts = Some "2024-01-15T10:30:05Z"
  ∧ completed_at ts = Some "2024-01-15T10:33:45Z".
Proof.
  apply (timestamps_of_events completed_run).
  repeat constructor; discriminate.
Defined.

End TimestampProperties.

Section StatusConsistency.

Import StatusHandler.

Lemma event_in_types e processing_logs :
  event_in e (event_types processing_logs) = true
  ↔ Exists (records [e]) processing_logs.
Proof.
  rewrite event_in_true. unfold event_types.
  rewrite elem_of_list_to_set, list_elem_of_fmap, Exists_exists.
  split.
  - intros (l & -> & Hl). exists l. split; [done|]. apply list_elem_of_here.
  - intros (l & Hl & Hr). exists l. split; [|done].
    unfold records in Hr. by apply list_elem_of_singleton in Hr.
Qed.

Lemma head_filter_Some {A} (P : A → Prop) `{∀ x, Decision (P x)} (l : list A) :
  is_Some (head (filter P l)) ↔ Exists P l.
Proof.
  induction l as [|x l IH].
  - split; [by intros [? ?] | by intros ?%Exists_nil].
  - rewrite filter_cons, Exists_cons. destruct (decide (P x)).
    + split; [by left | by eexists].
    + rewrite IH. tauto.
Qed.

(** The status and the progress of one answer fit together: a [processing]
    document is in extraction or validation, a [completed] one is in
    validation and has a completion time, a [queued] one is not in
    validation, and 100 percent is shown only for a document that is
    processing, completed or failed.  A completion time is present exactly
    when the log holds [validation_completed], whatever the status. *)
Theorem status_fits_progress (processing_logs : list log) (id : string) :
  let info := _determine_status_from_logs processing_logs id in
  let p := progress_of info in
  (status info = "processing" →
   current_stage p = "extraction" ∨ current_stage p = "validation")
  ∧ (status info = "completed" →
     current_stage p = "validation"
     ∧ is_Some (completed_at (timestamps_of info)))
  ∧ (status info = "queued" →
     current_stage p ≠ "validation"
     ∧ ("upload" ∈ stages_completed p ∨ "ingestion" ∈ stages_completed p))
  ∧ (completion_percentage p = 100%Z →
     status info = "processing" ∨ status info = "completed"
     ∨ status info = "failed")
  ∧ (is_Some (completed_at (timestamps_of info))
     ↔ "validation_completed" ∈ event_types processing_logs).
Proof.
  intros info p. subst p info.
  cbv [_determine_status_from_logs status progress_of timestamps_of].
  set (events := event_types processing_logs).
  assert (Hc : is_Some (completed_at (_extract_timestamps processing_logs))
               ↔ "validation_completed" ∈ events).
  { rewrite completed_at_newest, fmap_is_Some, head_filter_Some.
    rewrite <- event_in_types. apply event_in_true. }
  rewrite Hc, <- event_in_true.
  rewrite current_stage_last, percentage_by_stage, stages_completed_cases.
  fold events.
  destruct (event_in "failed" events),
           (event_in "validation_completed" events),
           (event_in "validation_started" events),
           (event_in "extraction_started" events),
           (event_in "extraction_completed" events),
           (event_in "queued" events),
           (event_in "ingestion_started" events);
    cbn -[elem_of];
    (split; [|split; [|split; [|split]]]);
    first
      [ reflexivity
      | intros H; first
          [ discriminate H
          | left; reflexivity
          | right; reflexivity
          | right; left; reflexivity
          | right; right; reflexivity
          | split; reflexivity
          | split; [discriminate | left; solve [repeat constructor]]
          | split; [discriminate | right; solve [repeat constructor]] ] ].
Qed.

Lemma status_fits_progress_witness :
  let info := _determine_status_from_logs completed_run "doc-a1b2c3d4" in
  current_stage (progress_of info) = "validation"
  ∧ is_Some (completed_at (timestamps_of info)).
Proof.
  destruct (status_fits_progress completed_run "doc-a1b2c3d4")
    as (_ & H & _).
  apply H. reflexivity.
Defined.

(** [_get_error_details] answers from the newest [failed] entry. *)
Lemma error_details_newest processing_logs :
  _get_error_details processing_logs
  = match head (filter (records ["failed"]) processing_logs) with
    | None => NoDetails
    | Some l =>
      match ProcessingLog.event_data l with
      | Some event_data =>
        ErrorMessage (default "Unknown error occurred" (event_data !! "error"))
      | None => AttributeError
      end
    end.
Proof.
  induction processing_logs as [|l logs IH]; [done|].
  cbn [_get_error_details]. rewrite filter_cons.
  destruct (decide (records ["failed"] l)) as [Hr | Hr].
  - apply records_one in Hr as ->. done.
  - destruct (String.eqb _ _) eqn:He; [|done].
    exfalso. by apply Hr, records_one.
Qed.

(** The error message of a failed document: [_get_error_details] gives
    [None] exactly when the status is not [failed]; for a failed document it
    reads the newest [failed] entry, and gives its [error] text, the text
    [Unknown error occurred] when the payload has none, and raises when the
    payload is null. *)
Theorem error_details_of_failed (processing_logs : list log) (id : string) :
  (_get_error_details processing_logs = NoDetails
   ↔ status (_determine_status_from_logs processing_logs id) ≠ "failed")
  ∧ (status (_determine_status_from_logs processing_logs id) = "failed" →
     ∃ l, head (filter (records ["failed"]) processing_logs) = Some l
          ∧ _get_error_details processing_logs
            = match ProcessingLog.event_data l with
              | Some event_data =>
                ErrorMessage
                  (default "Unknown error occurred" (event_data !! "error"))
              | None => AttributeError
              end).
Proof.
  assert (Hs : status (_determine_status_from_logs processing_logs id) = "failed"
               ↔ is_Some (head (filter (records ["failed"]) processing_logs))).
  { rewrite head_filter_Some, <- event_in_types.
    cbv [_determine_status_from_logs status].
    destruct (event_in "failed" _); [done|].
    split; [|done]. by repeat case_match. }
  rewrite Hs, error_details_newest. split.
  - destruct (head _) as [l|].
    + split; [by repeat case_match | intros H; exfalso; apply H; eauto].
    + split; [by intros _ [? ?] | done].
  - intros [l ->]. eauto.
Qed.

Lemma error_details_of_failed_witness :
  _get_error_details failed_after_completion
  = ErrorMessage "Extraction timeout after 10 minutes".
Proof.
  destruct (error_details_of_failed failed_after_completion "doc-a1b2c3d4")
    as [_ H].
  destruct (H eq_refl) as (l & Hl & ->).
  injection Hl as <-. reflexivity.
Defined.

End StatusConsistency.

Section CacheProperties.

Import StatusHandler.

Context {A : Type}.

(** A status cached at time [t0] is answered from the cache at time [t1]
    exactly when less than ten seconds have passed; at ten seconds or more
    the query gives nothing and removes the entry.  Caching and querying one
    document leave the entries of the others as they were. *)
Theorem cache_round_trip (t0 t1 : Q) (id : string) (info : A)
    (cache : status_cache A) :
  let cached := _cache_status t0 id info cache in
  let answer := _get_cached_status t1 id cached in
  ((t1 - t0 < 10)%Q → answer = (Some info, cached))
  ∧ ((10 <= t1 - t0)%Q → answer.1 = None ∧ answer.2 !! id = None)
  ∧ (∀ other, other ≠ id → answer.2 !! other = cache !! other).
Proof.
  intros cached answer. subst answer cached.
  unfold _get_cached_status, _cache_status, status_cache in *.
  rewrite lookup_insert_eq.
  destruct (Qltb (t1 - t0) CACHE_TTL_SECONDS) eqn:Hage.
  - apply Qltb_lt in Hage. unfold CACHE_TTL_SECONDS in Hage.
    split; [done|]. split.
    + intros Hle. exfalso. by apply (Qlt_not_le _ _ Hage).
    + intros other Hne. cbn [snd]. by rewrite lookup_insert_ne.
  - apply Qltb_ge in Hage. unfold CACHE_TTL_SECONDS in Hage.
    split; [|split].
    + intros Hlt. exfalso. by apply (Qlt_not_le _ _ Hlt).
    + intros _. cbn [fst snd]. split; [done|]. apply lookup_delete_eq.
    + intros other Hne. cbn [snd].
      rewrite lookup_delete_ne by done. by rewrite lookup_insert_ne.
Qed.

(** A query answers only with what was cached for that document less than
    ten seconds before, and then leaves the cache as it was. *)
Theorem cache_hit_is_fresh (now : Q) (id : string) (cache : status_cache A)
    (info : A) :
  (_get_cached_status now id cache).1 = Some info →
  ∃ cached_time, cache !! id = Some (info, cached_time)
    ∧ (now - cached_time < 10)%Q
    ∧ (_get_cached_status now id cache).2 = cache.
Proof.
  unfold _get_cached_status, status_cache in *.
  destruct (cache !! id) as [[data time]|]; [|discriminate].
  destruct (Qltb (now - time) CACHE_TTL_SECONDS) eqn:Hage; [|discriminate].
  cbn [fst snd]. intros [= ->]. exists time.
  apply Qltb_lt in Hage. done.
Qed.

End CacheProperties.

Lemma cache_round_trip_witness :
  StatusHandler._get_cached_status 9 "doc-a1b2c3d4"
    (StatusHandler._cache_status 0 "doc-a1b2c3d4" "completed" ∅)
  = (Some "completed",
     StatusHandler._cache_status 0 "doc-a1b2c3d4" "completed" ∅).
Proof.
  destruct (cache_round_trip 0 9 "doc-a1b2c3d4" "completed" ∅) as [H _].
  apply H. reflexivity.
Defined.

Lemma cache_hit_is_fresh_witness :
  ∃ cached_time : Q,
    (StatusHandler._cache_status 0 "doc-a1b2c3d4" "completed" ∅
       : gmap string (string * Q))
      !! "doc-a1b2c3d4" = Some ("completed", cached_time)
    ∧ (9 - cached_time < 10)%Q
    ∧ (StatusHandler._get_cached_status 9 "doc-a1b2c3d4"
         (StatusHandler._cache_status 0 "doc-a1b2c3d4" "completed" ∅)).2
      = StatusHandler._cache_status 0 "doc-a1b2c3d4" "completed" ∅.
Proof.
  apply (cache_hit_is_fresh 9 "doc-a1b2c3d4"
           (StatusHandler._cache_status 0 "doc-a1b2c3d4" "completed" ∅)).
  reflexivity.
Defined.

Section RetryAnswers.

Import CosmosManager RetryHandler.

Lemma metadata_only_insert info key v :
  key = "document_name" ∨ key = "document_type" →
  metadata_only info → metadata_only (<[key := v]> info).
Proof.
  intros Hkey Hinfo k Hk. destruct (decide (key = k)) as [<- | Hne]; [done|].
  rewrite lookup_insert_ne in Hk by done. by apply Hinfo.
Qed.

Lemma metadata_only_empty : metadata_only ∅.
Proof. intros key [v Hv]. by rewrite lookup_empty in Hv. Qed.

Lemma scan_metadata_only oldest_first info info' :
  metadata_only info →
  scan_document_info oldest_first info = Some info' → metadata_only info'.
Proof.
  revert info. induction oldest_first as [|l rest IH]; intros info Hinfo.
  - by intros [= <-].
  - cbn [scan_document_info].
    destruct (ProcessingLog.event_data l) as [event_data|]; [|discriminate].
    set (info1 := match event_data !! "document_name" with
                  | Some v => <["document_name" := v]> info
                  | None => info
                  end).
    set (info2 := match event_data !! "document_type" with
                  | Some v => <["document_type" := v]> info1
                  | None => info1
                  end).
    assert (H1 : metadata_only info1).
    { subst info1. destruct (event_data !! "document_name");
        [apply metadata_only_insert; auto | done]. }
    assert (H2 : metadata_only info2).
    { subst info2. destruct (event_data !! "document_type");
        [apply metadata_only_insert; auto | done]. }
    destruct (truthy (info2 !! "document_name")
              && truthy (info2 !! "document_type")).
    + by intros [= <-].
    + by apply IH.
Qed.

(** The answer is one of five.  An answer that says eligible has status
    [failed] and carries a [document_info] that is not empty and holds no
    key but [document_name] and [document_type]; every other answer carries
    none.  A retry count is reported only with the refusal for the limit,
    and is then at least 5. *)
Theorem eligibility_answer_shape (q : query_outcome) :
  let e := _check_retry_eligibility q in
  (eligible e = true ↔ is_Some (document_info e))
  ∧ (eligible e = true →
     current_status e = "failed" ∧ retry_count e = None
     ∧ reason e = "Document failed and is eligible for retry")
  ∧ (∀ info, document_info e = Some info → info ≠ ∅ ∧ metadata_only info)
  ∧ (∀ n, retry_count e = Some n →
       eligible e = false ∧ current_status e = "failed" ∧ (5 <= n)%nat)
  ∧ current_status e ∈ ["unknown"; "completed"; "processing"; "failed"].
Proof.
  intros e. subst e. unfold _check_retry_eligibility.
  repeat case_match; cbn [eligible document_info current_status retry_count reason];
    (split; [split; [try discriminate; eauto | try (intros [? [=]]); done]|]);
    (split; [try discriminate; done|]);
    (split; [|split; [|apply list_elem_of_In; simpl; auto 10]]).
  all: try (intros ? [=]; fail).
  - intros n [= <-]. split; [done|]. split; [done|].
    match goal with H : Nat.leb 5 _ = true |- _ => by apply Nat.leb_le in H end.
  - intros info [= <-]. split.
    + match goal with H : bool_decide _ = false |- _ =>
        by apply bool_decide_eq_false in H end.
    + match goal with H : scan_document_info _ _ = Some _ |- _ =>
        apply (scan_metadata_only _ _ _ metadata_only_empty H) end.
Qed.

Lemma eligibility_answer_shape_witness :
  current_status (_check_retry_eligibility (Logs failed_after_completion))
  = "failed"
  ∧ retry_count (_check_retry_eligibility (Logs failed_after_completion)) = None
  ∧ reason (_check_retry_eligibility (Logs failed_after_completion))
    = "Document failed and is eligible for retry".
Proof.
  destruct (eligibility_answer_shape (Logs failed_after_completion))
    as (_ & H & _).
  apply H. reflexivity.
Defined.




Lemma count_retries_app l1 l2 :
  count_retries (l1 ++ l2) = (count_retries l1 + count_retries l2)%nat.
Proof. unfold count_retries. by rewrite filter_app, length_app. Qed.

Lemma count_retries_retried n : count_retries (retried n) = n.
Proof.
  unfold retried. rewrite count_retries_app.
  change (count_retries first_attempt) with 0. rewrite Nat.add_0_r.
  induction n as [|n IH]; [done|].
  cbn [replicate concat]. rewrite count_retries_app, IH. reflexivity.
Qed.

(** When the log of a document has at most 20 entries, an accepted retry
    is at most the fifth. *)
Theorem accepted_retry_within_window (stored : list log) :
  (length stored <= 20)%nat →
  eligible (retry_eligibility_of stored) = true →
  (new_retry_count stored <= 5)%nat.
Proof.
  intros Hlen. unfold retry_eligibility_of, new_retry_count.
  cbn [query_processing_logs_by_document _get_retry_count].
  rewrite take_ge by done. unfold _check_retry_eligibility.
  repeat case_match; cbn [eligible]; try discriminate. intros _.
  match goal with H : Nat.leb 5 _ = false |- _ => apply Nat.leb_gt in H end.
  lia.
Qed.

Lemma accepted_retry_within_window_witness :
  (new_retry_count failed_after_completion <= 5)%nat.
Proof.
  apply (accepted_retry_within_window failed_after_completion).
  - vm_compute. lia.
  - reflexivity.
Defined.

(** The limit of five retries looks at the 20 newest entries only.  A
    document that fails in validation on every attempt writes five entries
    per retry, so that the window never holds more than four retries: after
    any number [n] of retries the next one is accepted, as retry number
    [n + 1]. *)
Theorem retry_cap_is_per_window (n : nat) :
  eligible (retry_eligibility_of (retried n)) = true
  ∧ count_retries (retried n) = n
  ∧ new_retry_count (retried n) = (n + 1)%nat.
Proof.
  split; [|split; [apply count_retries_retried|]].
  - unfold retry_eligibility_of. cbn [query_processing_logs_by_document].
    do 4 (destruct n as [|n]; [reflexivity|]).
    unfold retried. cbn [replicate concat]. rewrite <- !app_assoc.
    reflexivity.
  - unfold new_retry_count.
    cbn [query_processing_logs_by_document _get_retry_count].
    by rewrite count_retries_retried.
Qed.

End RetryAnswers.

Section LabelProperties.

Import ConfidenceScorer ConfidenceScoring.

(** The labels, the quality and the review flag draw the same lines: with
    the default thresholds a confidence is of [high] quality exactly when
    [is_high_confidence] holds and its label is [Very High] or [High]; of
    [medium] quality exactly when its label is [Medium]; and of [low]
    quality exactly when it is flagged for review and its label is [Low] or
    [Very Low]. *)
Theorem labels_agree (confidence : Q) :
  let quality :=
    assess_quality confidence default_threshold_high default_threshold_low in
  let label := get_confidence_label confidence in
  (quality = "high" ↔ is_high_confidence confidence 0.85 = true)
  ∧ (quality = "high" ↔ label = "Very High" ∨ label = "High")
  ∧ (quality = "medium" ↔ label = "Medium")
  ∧ (quality = "low" ↔ label = "Low" ∨ label = "Very Low")
  ∧ (quality = "low"
     ↔ should_flag_for_review confidence default_document_threshold
         default_metric_threshold = true).
Proof.
  intros quality label. subst quality label.
  unfold assess_quality, get_confidence_label, is_high_confidence,
    should_flag_for_review, default_threshold_high, default_threshold_low,
    default_metric_threshold, Qltb.
  destruct (Qle_bool 0.95 confidence) eqn:H95;
    destruct (Qle_bool 0.85 confidence) eqn:H85;
    destruct (Qle_bool 0.70 confidence) eqn:H70;
    destruct (Qle_bool 0.50 confidence) eqn:H50;
    try (apply Qle_bool_iff in H95); try (apply Qle_bool_iff in H85);
    try (apply Qle_bool_iff in H70); try (apply Qle_bool_iff in H50);
    try (apply not_true_iff_false in H95; rewrite Qle_bool_iff in H95);
    try (apply not_true_iff_false in H85; rewrite Qle_bool_iff in H85);
    try (apply not_true_iff_false in H70; rewrite Qle_bool_iff in H70);
    try (apply not_true_iff_false in H50; rewrite Qle_bool_iff in H50);
    try (exfalso; lra);
    cbn; repeat split; intros; try done; auto;
    try (match goal with H : _ ∨ _ |- _ => destruct H; done end).
Qed.

End LabelProperties.

Section ScoreProperties.

Import Str Tables ConfidenceScorer ConfidenceScoring.

Lemma py_max_spec (a b : Q) :
  (a <= py_max a b)%Q ∧ (b <= py_max a b)%Q
  ∧ (py_max a b = a ∨ py_max a b = b).
Proof.
  unfold py_max. destruct (Qltb a b) eqn:H.
  - apply Qltb_lt in H. repeat split; [lra | lra | by right].
  - apply Qltb_ge in H. repeat split; [lra | lra | by left].
Qed.

Lemma py_min_spec (a b : Q) :
  (py_min a b <= a)%Q ∧ (py_min a b <= b)%Q
  ∧ (py_min a b = a ∨ py_min a b = b).
Proof.
  unfold py_min. destruct (Qltb b a) eqn:H.
  - apply Qltb_lt in H. repeat split; [lra | lra | by right].
  - apply Qltb_ge in H. repeat split; [lra | lra | by left].
Qed.

(** [max(0.0, min(1.0, x))] *)
Lemma clamp_spec (x : Q) :
  (0 <= py_max 0 (py_min 1 x) <= 1)%Q
  ∧ ((0 <= x)%Q → (py_max 0 (py_min 1 x) <= x)%Q)
  ∧ ((0 <= x <= 1)%Q → (py_max 0 (py_min 1 x) == x)%Q).
Proof.
  destruct (py_min_spec 1 x) as (Hm1 & Hm2 & Hm).
  destruct (py_max_spec 0 (py_min 1 x)) as (HM1 & HM2 & HM).
  split; [|split].
  - split; [done|]. destruct HM as [-> | ->]; lra.
  - intros Hx. destruct HM as [-> | ->]; lra.
  - intros Hx. destruct HM as [HM | HM], Hm as [Hm | Hm];
      rewrite HM in *; try rewrite Hm in *; lra.
Qed.

Lemma clamp_le (x y : Q) :
  (x <= y)%Q → (0 <= y)%Q → (py_max 0 (py_min 1 x) <= y)%Q.
Proof.
  intros Hxy Hy.
  destruct (py_min_spec 1 x) as (_ & Hm & _).
  destruct (py_max_spec 0 (py_min 1 x)) as (_ & _ & [-> | ->]); lra.
Qed.

(** The confidence of a metric lies between 0 and 1 and, for a cell
    confidence that is not negative, never exceeds it.  It is the cell
    confidence itself when that lies between 0 and 1, the parsing succeeded
    and the value has at least two characters.  For a cell confidence of at
    most 1, a value of fewer than two characters caps it at 0.7 and a failed
    parsing at 0.5. *)
Theorem metric_confidence_bounds (extracted_value : str) (cell_confidence : Q)
    (parsing_success : bool) :
  let confidence :=
    calculate_metric_confidence extracted_value cell_confidence parsing_success in
  (0 <= confidence <= 1)%Q
  ∧ ((0 <= cell_confidence)%Q → (confidence <= cell_confidence)%Q)
  ∧ ((0 <= cell_confidence <= 1)%Q → parsing_success = true →
     (2 <= len (strip extracted_value))%nat →
     (confidence == cell_confidence)%Q)
  ∧ ((cell_confidence <= 1)%Q → (len (strip extracted_value) < 2)%nat →
     (confidence <= 0.7)%Q)
  ∧ ((cell_confidence <= 1)%Q → parsing_success = false →
     (confidence <= 0.5)%Q).
Proof.
  intros confidence. subst confidence. unfold calculate_metric_confidence.
  cbv zeta.
  set (c1 := if negb parsing_success then (cell_confidence * 0.5)%Q
             else cell_confidence).
  set (c2 := if Nat.ltb (len (strip extracted_value)) 2 then (c1 * 0.7)%Q
             else c1).
  destruct (clamp_spec c2) as (Hb & Hle & Heq).
  split; [done|]. split; [|split; [|split]].
  - intros H. apply clamp_le; [|done]. subst c2 c1.
    destruct (negb parsing_success), (Nat.ltb _ 2); lra.
  - intros H -> Hlen. apply Nat.ltb_ge in Hlen.
    subst c2 c1. rewrite Hlen in *. cbn [negb] in *. by apply Heq.
  - intros H Hlen. apply Nat.ltb_lt in Hlen. apply clamp_le; [|lra].
    subst c2 c1. rewrite Hlen. destruct (negb parsing_success); lra.
  - intros H ->. apply clamp_le; [|lra]. subst c2 c1. cbn [negb].
    destruct (Nat.ltb _ 2); lra.
Qed.

Lemma metric_confidence_bounds_witness :
  (calculate_metric_confidence (lit "1,234.56") 0.92 true == 0.92)%Q.
Proof.
  destruct (metric_confidence_bounds (lit "1,234.56") 0.92 true)
    as (_ & _ & H & _).
  apply H; [split; unfold Qle; simpl; lia | reflexivity | vm_compute; lia].
Defined.

End ScoreProperties.

Section MeanProperties.

Lemma py_sum_from (a : Q) (xs : list Q) :
  (foldl Qplus a xs == a + py_sum xs)%Q.
Proof.
  unfold py_sum. revert a. induction xs as [|x xs IH]; intros a; simpl.
  - lra.
  - rewrite (IH (a + x)%Q), (IH (0 + x)%Q). lra.
Qed.

Lemma py_sum_cons (x : Q) (xs : list Q) :
  (py_sum (x :: xs) == x + py_sum xs)%Q.
Proof. unfold py_sum at 1. simpl. rewrite py_sum_from. lra. Qed.


Lemma py_sum_between (lo hi : Q) (xs : list Q) :
  all_between lo hi xs →
  (inject_Z (Z.of_nat (length xs)) * lo <= py_sum xs
   <= inject_Z (Z.of_nat (length xs)) * hi)%Q.
Proof.
  induction 1 as [|x xs Hx Hxs IH].
  - unfold py_sum. cbn [length foldl].
    change (inject_Z (Z.of_nat 0)) with 0%Q. lra.
  - rewrite py_sum_cons. cbn [length]. rewrite Nat2Z.inj_succ.
    unfold Z.succ. rewrite inject_Z_plus. change (inject_Z 1) with 1%Q.
    set (n := inject_Z (Z.of_nat (length xs))) in *. clearbody n. nra.
Qed.

Lemma length_pos {A} (x : A) (xs : list A) :
  (0 < inject_Z (Z.of_nat (length (x :: xs))))%Q.
Proof.
  change 0%Q with (inject_Z 0). rewrite <- Zlt_Qlt. simpl. lia.
Qed.

(** The mean of a non-empty list times its length is its sum. *)
Lemma mean_sum (x : Q) (xs : list Q) :
  (mean (x :: xs) * inject_Z (Z.of_nat (length (x :: xs))) == py_sum (x :: xs))%Q.
Proof.
  unfold mean. pose proof (length_pos x xs) as H. field. lra.
Qed.

Lemma mean_between (lo hi : Q) (x : Q) (xs : list Q) :
  all_between lo hi (x :: xs) → (lo <= mean (x :: xs) <= hi)%Q.
Proof.
  intros H. apply py_sum_between in H. rewrite <- mean_sum in H.
  pose proof (length_pos x xs) as Hn.
  set (n := inject_Z (Z.of_nat (length (x :: xs)))) in *.
  set (m := mean (x :: xs)) in *. clearbody n m. nra.
Qed.

End MeanProperties.

Section PooledConfidence.

Import Tables ConfidenceScoring.

Lemma py_sum_nil : py_sum [] = 0%Q.
Proof. reflexivity. Qed.







End PooledConfidence.

Section OverallConfidence.

Import DocumentIntelligence Validator.

Variable F : float_format.
Variable cfg : config.

Lemma omap_id_between (lo hi : Q) (spans : list (option Q)) :
  Forall (fun span => ∀ c, span = Some c → (lo <= c <= hi)%Q) spans →
  all_between lo hi (omap id spans).
Proof.
  induction 1 as [|span spans Hspan Hspans IH]; [constructor|].
  destruct span as [c|]; cbn; [constructor; auto | done].
Qed.

(** The overall confidence of a PDF is the mean of its cell confidences,
    where a cell without a confidence takes the mean of its span
    confidences and a cell without any takes 0.8.  It lies between 0 and 1
    when every confidence given does.  A document without table cells has
    overall confidence 0, with which confidence validation fails. *)
Theorem overall_confidence_bounds (tables : list (list result_cell)) :
  (Forall (Forall (fun cell =>
     (∀ c, cell_confidence cell = Some c → (0 <= c <= 1)%Q)
     ∧ Forall (fun span => ∀ c, span = Some c → (0 <= c <= 1)%Q) (spans cell)))
     tables →
   (0 <= _calculate_overall_confidence tables <= 1)%Q)
  ∧ (concat tables = [] →
     _calculate_overall_confidence tables = 0%Q
     ∧ ∀ metrics,
         validation_status
           (validate_confidence F cfg metrics
              (mk_extraction_result (Some (_calculate_overall_confidence tables))))
         = "failed").
Proof.
  split.
  - intros Hall.
    assert (Hcells : all_between 0 1 (tables ≫= fmap _get_cell_confidence)).
    { induction Hall as [|t tables Ht Htables IH]; [constructor|].
      rewrite bind_cons. apply Forall_app. split; [|done].
      clear IH Htables. induction Ht as [|cell t [Hc Hs] Ht IH]; [constructor|].
      rewrite fmap_cons. constructor; [|done].
      unfold _get_cell_confidence. destruct (cell_confidence cell) as [c|].
      - by apply Hc.
      - pose proof (omap_id_between _ _ _ Hs) as Hspans.
        destruct (omap id (spans cell)) as [|x xs]; [lra|].
        by apply mean_between. }
    unfold _calculate_overall_confidence.
    destruct (tables ≫= fmap _get_cell_confidence) as [|x xs]; [lra|].
    by apply mean_between.
  - intros Hnone.
    assert (Hzero : _calculate_overall_confidence tables = 0%Q).
    { unfold _calculate_overall_confidence.
      assert (H : tables ≫= fmap _get_cell_confidence = []).
      { induction tables as [|t tables IH]; [done|].
        cbn in Hnone. apply app_eq_nil in Hnone as [-> Hnone].
        rewrite bind_cons. cbn. by apply IH. }
      by rewrite H. }
    split; [done|]. intros metrics. rewrite Hzero.
    unfold validate_confidence. cbn [ocr_confidence_avg default].
    change (Qltb 0 0.6) with true. cbv zeta. reflexivity.
Qed.

End OverallConfidence.

Lemma overall_confidence_bounds_witness :
  (0 <= DocumentIntelligence._calculate_overall_confidence
          [ [ DocumentIntelligence.mk_result_cell (Some 0.9%Q) [];
              DocumentIntelligence.mk_result_cell None [Some 0.7%Q; None];
              DocumentIntelligence.mk_result_cell None [] ] ] <= 1)%Q.
Proof.
  destruct (overall_confidence_bounds fraction_format default_config
              [ [ DocumentIntelligence.mk_result_cell (Some 0.9%Q) [];
                  DocumentIntelligence.mk_result_cell None [Some 0.7%Q; None];
                  DocumentIntelligence.mk_result_cell None [] ] ])
    as [H _].
  apply H.
  repeat constructor;
    match goal with
    | Hc : _ = Some _ |- _ =>
      first [ discriminate Hc | injection Hc as <-; unfold Qle; simpl; lia ]
    end.
Defined.

Section StatisticsProperties.

Import ConfidenceScoring.

Lemma foldl_min_spec (a : Q) (xs : list Q) :
  (foldl py_min a xs <= a)%Q
  ∧ Forall (fun x => (foldl py_min a xs <= x)%Q) xs
  ∧ foldl py_min a xs ∈ a :: xs.
Proof.
  revert a. induction xs as [|x xs IH]; intros a; cbn [foldl].
  - split; [lra|]. split; [constructor | apply list_elem_of_here].
  - destruct (IH (py_min a x)) as (Hle & Hall & Hin).
    destruct (py_min_spec a x) as (Ha & Hx & Hm).
    split; [lra|]. split.
    + constructor; [lra | done].
    + apply elem_of_cons in Hin as [Hin | Hin].
      * rewrite Hin. destruct Hm as [-> | ->];
          [apply list_elem_of_here
          | apply list_elem_of_further, list_elem_of_here].
      * by do 2 apply list_elem_of_further.
Qed.

Lemma foldl_max_spec (a : Q) (xs : list Q) :
  (a <= foldl py_max a xs)%Q
  ∧ Forall (fun x => (x <= foldl py_max a xs)%Q) xs
  ∧ foldl py_max a xs ∈ a :: xs.
Proof.
  revert a. induction xs as [|x xs IH]; intros a; cbn [foldl].
  - split; [lra|]. split; [constructor | apply list_elem_of_here].
  - destruct (IH (py_max a x)) as (Hle & Hall & Hin).
    destruct (py_max_spec a x) as (Ha & Hx & Hm).
    split; [lra|]. split.
    + constructor; [lra | done].
    + apply elem_of_cons in Hin as [Hin | Hin].
      * rewrite Hin. destruct Hm as [-> | ->];
          [apply list_elem_of_here
          | apply list_elem_of_further, list_elem_of_here].
      * by do 2 apply list_elem_of_further.
Qed.

#[local] Instance Qle_bool_trans : Transitive (fun x y => Qle_bool x y = true).
Proof. intros x y z. rewrite !Qle_bool_iff. lra. Qed.

#[local] Instance Qle_bool_total : Total (fun x y => Qle_bool x y = true).
Proof.
  intros x y. rewrite !Qle_bool_iff.
  destruct (Qlt_le_dec x y); [left | right]; lra.
Qed.

Lemma sorted_Permutation xs : sorted xs ≡ₚ xs.
Proof. apply merge_sort_Permutation. Qed.

Lemma sorted_StronglySorted xs :
  StronglySorted (fun x y => Qle_bool x y = true) (sorted xs).
Proof. apply StronglySorted_merge_sort; apply _. Qed.

Lemma filter_all {A} (P : A → Prop) `{∀ x, Decision (P x)} (l : list A) :
  Forall P l → filter P l = l.
Proof.
  induction 1 as [|x l Hx Hl IH]; [done|].
  by rewrite filter_cons_True, IH.
Qed.

(** In a sorted list, the entries up to index [k] are at most the entry at
    [k], and those from [k] on are at least that. *)
Lemma sorted_lookup_counts (s : list Q) (k : nat) (m : Q) :
  StronglySorted (fun x y => Qle_bool x y = true) s →
  s !! k = Some m →
  (k + 1 <= length (filter (fun x => Qle_bool x m = true) s))%nat
  ∧ (length s - k <= length (filter (fun x => Qle_bool m x = true) s))%nat.
Proof.
  intros Hs Hk. pose proof (take_drop_middle _ _ _ Hk) as Hmid.
  assert (Hlen : length (take k s) = k).
  { apply length_take_le. apply lookup_lt_Some in Hk. lia. }
  assert (Hrefl : Qle_bool m m = true) by (apply Qle_bool_iff; lra).
  clear Hk. revert Hmid Hlen.
  generalize (take k s) (drop (S k) s). intros l1 l2 <- Hlen.
  rewrite !filter_app, !length_app, !filter_cons_True by done.
  cbn [length]. split.
  - rewrite filter_all; [lia|].
    apply Forall_forall. intros x Hx.
    apply (StronglySorted_app_1_elem_of _ _ _ _ _ Hs Hx).
    apply list_elem_of_here.
  - apply StronglySorted_app_1_r in Hs.
    apply StronglySorted_inv in Hs as [_ Hall].
    rewrite (filter_all _ l2) by done. lia.
Qed.

Lemma splits_in_half_Permutation m xs ys :
  xs ≡ₚ ys → splits_in_half m xs → splits_in_half m ys.
Proof.
  intros Hp [H1 H2]. unfold splits_in_half. by rewrite <- !Hp.
Qed.

Lemma filter_le_mono (P Q' : Q → Prop) `{∀ x, Decision (P x)}
    `{∀ x, Decision (Q' x)} (l : list Q) :
  (∀ x, P x → Q' x) → (length (filter P l) <= length (filter Q' l))%nat.
Proof.
  intros HPQ. induction l as [|x l IH]; [done|].
  rewrite !filter_cons. destruct (decide (P x)) as [HP | HP].
  - rewrite decide_True by auto. cbn [length]. lia.
  - destruct (decide (Q' x)); cbn [length]; lia.
Qed.

(** The median of a sorted list splits it in half. *)
Lemma median_splits (s : list Q) (x : Q) (rest : list Q) :
  s ≡ₚ x :: rest →
  StronglySorted (fun x y => Qle_bool x y = true) s →
  let n := length s in
  ∃ median,
    (if Nat.eqb (n mod 2) 1
     then s !! (n / 2)%nat
     else low ← s !! (n / 2 - 1)%nat;
          high ← s !! (n / 2)%nat;
          Some ((low + high) / 2)%Q) = Some median
    ∧ splits_in_half median s
    ∧ ∃ low high, low ∈ s ∧ high ∈ s ∧ (low <= median <= high)%Q.
Proof.
  intros Hp Hs n.
  assert (Hn : (0 < n)%nat).
  { subst n. rewrite Hp. cbn [length]. lia. }
  pose proof (Nat.div_mod_eq n 2) as Hdiv.
  pose proof (Nat.mod_upper_bound n 2) as Hmod.
  destruct (Nat.eqb_spec (n mod 2) 1) as [Hodd | Heven].
  - destruct (lookup_lt_is_Some_2 s (n / 2)) as [m Hm]; [lia|].
    exists m. split; [done|].
    destruct (sorted_lookup_counts _ _ _ Hs Hm) as [Hle Hge].
    split; [split; fold n; lia|].
    exists m, m. apply list_elem_of_lookup_2 in Hm. repeat split; try done; lra.
  - assert (Hzero : n mod 2 = 0%nat) by lia.
    destruct (lookup_lt_is_Some_2 s (n / 2 - 1)) as [low Hlow]; [lia|].
    destruct (lookup_lt_is_Some_2 s (n / 2)) as [high Hhigh]; [lia|].
    rewrite Hlow, Hhigh. cbn. exists ((low + high) / 2)%Q. split; [done|].
    assert (Horder : (low <= high)%Q).
    { apply Qle_bool_iff.
      pose proof (take_drop_middle _ _ _ Hhigh) as Hmid.
      rewrite <- Hmid in Hs.
      apply (StronglySorted_app_1_elem_of _ _ _ _ _ Hs);
        [|apply list_elem_of_here].
      apply elem_of_take. exists (n / 2 - 1)%nat. split; [done | lia]. }
    destruct (sorted_lookup_counts _ _ _ Hs Hlow) as [Hle _].
    destruct (sorted_lookup_counts _ _ _ Hs Hhigh) as [_ Hge].
    split; [split|].
    + etrans; [|apply Nat.mul_le_mono_l, (filter_le_mono
                   (fun x => Qle_bool x low = true))].
      * fold n. lia.
      * intros y. rewrite !Qle_bool_iff. intros Hy.
        assert ((low + high) / 2 == (low + high) * (1 # 2))%Q as -> by field.
        lra.
    + etrans; [|apply Nat.mul_le_mono_l, (filter_le_mono
                   (fun x => Qle_bool high x = true))].
      * fold n. lia.
      * intros y. rewrite !Qle_bool_iff. intros Hy.
        assert ((low + high) / 2 == (low + high) * (1 # 2))%Q as -> by field.
        lra.
    + exists low, high. apply list_elem_of_lookup_2 in Hlow, Hhigh.
      assert ((low + high) / 2 == (low + high) * (1 # 2))%Q as Heq by field.
      repeat split; try done; rewrite Heq; lra.
Qed.

(** The statistics of a list of confidences are always produced, and
    describe the list: the count is its length; for a non-empty list the
    minimum and the maximum are entries that bound all entries, the mean
    lies between them, and so does the median, which has at least half of
    the entries on either side. *)
Theorem statistics_describe_list (confidences : list Q) :
  ∃ st, get_confidence_statistics confidences = Some st
    ∧ stat_count st = length confidences
    ∧ (confidences ≠ [] →
       stat_min st ∈ confidences ∧ stat_max st ∈ confidences
       ∧ all_between (stat_min st) (stat_max st) confidences
       ∧ (stat_min st <= stat_mean st <= stat_max st)%Q
       ∧ (stat_min st <= stat_median st <= stat_max st)%Q
       ∧ splits_in_half (stat_median st) confidences).
Proof.
  destruct confidences as [|x rest].
  { eexists. split; [reflexivity|]. split; [reflexivity | done]. }
  cbn [get_confidence_statistics].
  destruct (median_splits (sorted (x :: rest)) x rest
              (sorted_Permutation _) (sorted_StronglySorted _))
    as (median & -> & Hhalf & low & high & Hlow & Hhigh & Hbetween).
  cbn -[sorted list_min list_max mean]. eexists. split; [reflexivity|].
  cbn [stat_count stat_min stat_max stat_mean stat_median].
  split; [by rewrite sorted_Permutation|]. intros _.
  destruct (foldl_min_spec x rest) as (Hmin_x & Hmin_all & Hmin_in).
  destruct (foldl_max_spec x rest) as (Hmax_x & Hmax_all & Hmax_in).
  fold (list_min x rest) in *. fold (list_max x rest) in *.
  assert (Hall : all_between (list_min x rest) (list_max x rest) (x :: rest)).
  { constructor; [lra|]. rewrite Forall_forall in Hmin_all, Hmax_all.
    apply Forall_forall. intros y Hy. split; auto. }
  split; [done|]. split; [done|]. split; [done|].
  split; [by apply mean_between|]. split.
  - rewrite sorted_Permutation in Hlow, Hhigh.
    unfold all_between in Hall. rewrite Forall_forall in Hall.
    pose proof (Hall _ Hlow). pose proof (Hall _ Hhigh). lra.
  - by apply (splits_in_half_Permutation _ _ _ (sorted_Permutation _)).
Qed.

Lemma statistics_describe_list_witness :
  ∃ st, get_confidence_statistics [0.9; 0.5; 0.7]%Q = Some st
        ∧ (stat_min st <= stat_median st <= stat_max st)%Q.
Proof.
  destruct (statistics_describe_list [0.9; 0.5; 0.7]%Q)
    as (st & Hst & _ & H).
  exists st. split; [exact Hst|]. apply H. discriminate.
Defined.

End StatisticsProperties.

Section WhitespaceProperties.

Import Str NumberParser.

Lemma lstrip_blank pad s : blank pad = true → lstrip (pad ++ s) = lstrip s.
Proof.
  induction pad as [|c pad IH]; [done|]. cbn [blank forallb].
  intros [Hc Hpad]%andb_true_iff. cbn [app lstrip]. rewrite Hc. by apply IH.
Qed.

Lemma lstrip_blank_nil pad : blank pad = true → lstrip pad = [].
Proof.
  intros H. rewrite <- (app_nil_r pad). by rewrite lstrip_blank.
Qed.

(** What [lstrip] leaves is empty or starts with a character that is not
    whitespace. *)
Lemma lstrip_head s :
  lstrip s = [] ∨ ∃ c t, lstrip s = c :: t ∧ is_space c = false.
Proof.
  induction s as [|c s IH]; [by left|]. cbn [lstrip].
  destruct (is_space c) eqn:Hc; [done | right; eauto].
Qed.

Lemma lstrip_snoc s c :
  is_space c = false → lstrip (s ++ [c]) = (lstrip s ++ [c])%list.
Proof.
  intros Hc. induction s as [|d s IH]; cbn [app lstrip].
  - by rewrite Hc.
  - destruct (is_space d); [done | reflexivity].
Qed.

Lemma rstrip_cons c s :
  is_space c = false → rstrip (c :: s) = c :: rstrip s.
Proof.
  intros Hc. unfold rstrip. cbn [rev]. rewrite lstrip_snoc by done.
  by rewrite rev_app_distr.
Qed.

Lemma rstrip_blank s pad : blank pad = true → rstrip (s ++ pad) = rstrip s.
Proof.
  intros Hpad. unfold rstrip. rewrite rev_app_distr, lstrip_blank; [done|].
  unfold blank in *. rewrite forallb_forall in *. intros x Hx.
  apply Hpad. by apply in_rev.
Qed.

Lemma lstrip_idemp s : lstrip (lstrip s) = lstrip s.
Proof.
  destruct (lstrip_head s) as [-> | (c & t & -> & Hc)]; [done|].
  cbn [lstrip]. by rewrite Hc.
Qed.

Lemma rstrip_idemp s : rstrip (rstrip s) = rstrip s.
Proof. unfold rstrip. by rewrite rev_involutive, lstrip_idemp. Qed.

Lemma strip_idemp s : strip (strip s) = strip s.
Proof.
  unfold strip. destruct (lstrip_head s) as [-> | (c & t & -> & Hc)]; [done|].
  rewrite rstrip_cons by done. cbn [lstrip]. rewrite Hc.
  by rewrite <- rstrip_cons, rstrip_idemp.
Qed.

Lemma strip_padded before s after :
  blank before = true → blank after = true →
  strip (before ++ s ++ after) = strip s.
Proof.
  intros Hb Ha. unfold strip. rewrite lstrip_blank by done.
  destruct (lstrip_head s) as [Hs | (c & t & Hs & Hc)].
  - rewrite Hs. 
    assert (Hblank : lstrip (s ++ after) = []).
    { clear Hb. induction s as [|d s IH]; [by apply lstrip_blank_nil|].
      cbn [lstrip] in Hs. cbn [app lstrip].
      destruct (is_space d); [by apply IH | done]. }
    by rewrite Hblank.
  - assert (Happ : lstrip (s ++ after) = (lstrip s ++ after)%list).
    { clear Hb. induction s as [|d s IH]; [done|].
      cbn [lstrip] in Hs. cbn [app lstrip].
      destruct (is_space d); [by apply IH | done]. }
    by rewrite Happ, rstrip_blank.
Qed.

Lemma parse_empty : parse_financial_number (PyStr []) = (None, None).
Proof. reflexivity. Qed.

Lemma parse_strip s :
  parse_financial_number (PyStr s) = parse_financial_number (PyStr (strip s)).
Proof.
  destruct s as [|c s]; [done|].
  rewrite parse_nonempty by done.
  destruct (strip (c :: s)) as [|d t] eqn:Hs; [reflexivity|].
  rewrite (parse_nonempty (d :: t)) by done.
  by rewrite <- Hs, strip_idemp.
Qed.

(** Whitespace around the text plays no part: the parser gives the same
    value and currency for a text and for the text with any whitespace
    added before and after it, and a text of whitespace alone gives
    nothing. *)
Theorem surrounding_whitespace_ignored (before text after : str) :
  blank before = true → blank after = true →
  parse_financial_number (PyStr (before ++ text ++ after))
  = parse_financial_number (PyStr text)
  ∧ parse_financial_number (PyStr before) = (None, None).
Proof.
  intros Hb Ha. split.
  - rewrite parse_strip, strip_padded by done. symmetry. apply parse_strip.
  - rewrite parse_strip. unfold strip. by rewrite lstrip_blank_nil.
Qed.

Lemma surrounding_whitespace_ignored_witness :
  parse_financial_number (PyStr (lit "  " ++ lit "$1,234.56" ++ lit " "))
  = parse_financial_number (PyStr (lit "$1,234.56")).
Proof.
  destruct (surrounding_whitespace_ignored (lit "  ") (lit "$1,234.56")
              (lit " ")) as [H _]; [reflexivity | reflexivity | exact H].
Defined.

End WhitespaceProperties.

Section CurrencyProperties.

Import Str NumberParser.

Lemma find_first {A} (f : A → bool) (before : list A) (x : A) (after : list A) :
  Forall (fun y => f y = false) before → f x = true →
  List.find f (before ++ x :: after) = Some x.
Proof.
  induction 1 as [|y before Hy _ IH]; intros Hx; cbn.
  - by rewrite Hx.
  - rewrite Hy. by apply IH.
Qed.

Lemma find_none {A} (f : A → bool) (l : list A) :
  List.find f l = None ↔ Forall (fun y => f y = false) l.
Proof.
  induction l as [|y l IH]; cbn; [by split|].
  destruct (f y) eqn:Hy.
  - split; [done|]. intros [? _]%Forall_cons. congruence.
  - rewrite IH. split; [by constructor | by intros [_ ?]%Forall_cons].
Qed.

Lemma detect_currency_codes text code :
  _detect_currency text = Some code →
  code ∈ ["USD"; "EUR"; "GBP"; "JPY"; "INR"].
Proof.
  unfold _detect_currency, currency_map. cbn [List.find fst].
  repeat (destruct (contains _ text);
          [intros [= <-]; apply list_elem_of_In; simpl; tauto|]).
  discriminate.
Qed.

(** The currency the parser reports is the one detected in the text. *)
Lemma parse_currency s value detected :
  parse_financial_number (PyStr s) = (Some value, detected) →
  detected = _detect_currency (strip s).
Proof.
  destruct s as [|c s]; [discriminate|].
  rewrite parse_nonempty by done. cbv zeta.
  destruct (PyFloat.float _); [|discriminate].
  intros H. apply (f_equal snd) in H. cbn [snd] in H. symmetry. exact H.
Qed.

(** The currency is that of the first entry of the table whose symbol
    occurs in the text, wherever it stands: a symbol goes before a code, and
    the dollar sign before everything.  No currency is detected exactly when
    none of the ten symbols occurs, and a detected currency is one of the
    five codes. *)
Theorem currency_by_table_order (text : str) :
  (∀ before symbol code after,
     currency_map = (before ++ (symbol, code) :: after)%list →
     Forall (fun entry => contains entry.1 text = false) before →
     contains symbol text = true →
     _detect_currency text = Some code)
  ∧ (contains (lit "$") text = true → _detect_currency text = Some "USD")
  ∧ (_detect_currency text = None
     ↔ Forall (fun symbol => contains symbol text = false) CURRENCY_SYMBOLS)
  ∧ (∀ code, _detect_currency text = Some code →
       code ∈ ["USD"; "EUR"; "GBP"; "JPY"; "INR"]).
Proof.
  split; [|split; [|split]].
  - intros before symbol code after Hmap Hbefore Hsym.
    unfold _detect_currency. rewrite Hmap.
    by rewrite (find_first (fun entry => contains entry.1 text)).
  - intros H. unfold _detect_currency, currency_map. cbn [List.find fst].
    by rewrite H.
  - unfold _detect_currency. rewrite fmap_None, find_none.
    unfold currency_map, CURRENCY_SYMBOLS. cbn [fmap list_fmap].
    rewrite !Forall_cons, !Forall_nil. cbn [fst]. tauto.
  - intros code. apply detect_currency_codes.
Qed.

Lemma currency_by_table_order_witness :
  _detect_currency (lit "USD 1.234,56 €") = Some "EUR".
Proof.
  destruct (currency_by_table_order (lit "USD 1.234,56 €")) as [H _].
  apply (H [(lit "$", "USD")] (lit "€") "EUR"
           [ (lit "£", "GBP"); (lit "¥", "JPY"); (lit "₹", "INR");
             (lit "USD", "USD"); (lit "EUR", "EUR"); (lit "GBP", "GBP");
             (lit "JPY", "JPY"); (lit "INR", "INR") ]).
  - reflexivity.
  - repeat constructor.
  - reflexivity.
Defined.

End CurrencyProperties.

Section SeparatorProperties.

Import Str NumberParser.

Lemma replace_char_cons h new c s :
  replace [h] new (c :: s)
  = ((if Ascii.eqb h c then new else [c]) ++ replace [h] new s)%list.
Proof.
  unfold replace. cbn [replace_go startswith length Nat.sub].
  rewrite andb_true_r. by destruct (Ascii.eqb h c).
Qed.

Lemma replace_char_app h new a b :
  replace [h] new (a ++ b) = (replace [h] new a ++ replace [h] new b)%list.
Proof.
  induction a as [|c a IH]; [done|].
  cbn [app]. by rewrite !replace_char_cons, IH, <- app_assoc.
Qed.

Lemma count_char_cons h c s :
  count [h] (c :: s) = ((if Ascii.eqb h c then 1 else 0) + count [h] s)%nat.
Proof.
  unfold count. cbn [count_go startswith length Nat.sub].
  rewrite andb_true_r. by destruct (Ascii.eqb h c).
Qed.

Lemma count_char_app h a b :
  count [h] (a ++ b) = (count [h] a + count [h] b)%nat.
Proof.
  induction a as [|c a IH]; [done|].
  cbn [app]. rewrite !count_char_cons, IH. lia.
Qed.

Lemma rfind_go_absent h i s best :
  absent h s = true → rfind_go [h] i s best = best.
Proof.
  revert i. induction s as [|c s IH]; intros i; [done|].
  cbn [absent forallb]. intros [Hc Hs]%andb_true_iff.
  apply negb_true_iff in Hc. cbn [rfind_go startswith].
  rewrite Hc. cbn [andb]. by apply IH.
Qed.

Lemma rfind_go_app h i a b best :
  rfind_go [h] i (a ++ b) best
  = rfind_go [h] (i + Z.of_nat (length a)) b (rfind_go [h] i a best).
Proof.
  revert i best. induction a as [|c a IH]; intros i best.
  - cbn [app length rfind_go]. by rewrite Z.add_0_r.
  - cbn [app length rfind_go]. rewrite IH.
    replace (i + 1 + Z.of_nat (length a))%Z
      with (i + Z.of_nat (S (length a)))%Z by lia.
    cbn [startswith]. by rewrite !andb_true_r.
Qed.

(** The position of the last occurrence. *)
Lemma rfind_last h a b :
  absent h b = true → rfind [h] (a ++ h :: b) = Z.of_nat (length a).
Proof.
  intros Hb. unfold rfind. rewrite rfind_go_app. cbn [rfind_go startswith].
  rewrite Ascii.eqb_refl. cbn [andb]. rewrite rfind_go_absent by done. lia.
Qed.

Lemma rfind_go_bound h i s best :
  (best < i)%Z → (rfind_go [h] i s best < i + Z.of_nat (length s))%Z.
Proof.
  revert i best. induction s as [|c s IH]; intros i best Hb.
  - cbn [rfind_go length]. lia.
  - cbn [rfind_go length]. 
    specialize (IH (i + 1)%Z (if startswith [h] (c :: s) then i else best)).
    destruct (startswith [h] (c :: s)); lia.
Qed.

Lemma rfind_bound h s : (rfind [h] s < Z.of_nat (length s))%Z.
Proof. unfold rfind. pose proof (rfind_go_bound h 0 s (-1)). lia. Qed.

Lemma replace_first_char h new a b :
  absent h a = true → replace_first [h] new (a ++ h :: b) = (a ++ new ++ b)%list.
Proof.
  induction a as [|c a IH].
  - intros _. cbn [app replace_first startswith]. rewrite Ascii.eqb_refl.
    cbn [andb length drop]. done.
  - cbn [absent forallb]. intros [Hc Ha]%andb_true_iff.
    apply negb_true_iff in Hc. cbn [app replace_first startswith].
    rewrite Hc. cbn [andb]. by rewrite IH.
Qed.

Lemma digit_absent h ds :
  is_digit h = false → forallb is_digit ds = true → absent h ds = true.
Proof.
  intros Hh. induction ds as [|c ds IH]; [done|]. cbn [forallb absent].
  intros [Hc Hds]%andb_true_iff. rewrite andb_true_iff. split; [|by apply IH].
  destruct (Ascii.eqb_spec h c) as [-> | _]; [congruence | done].
Qed.

Lemma absent_app h a b : absent h (a ++ b) = absent h a && absent h b.
Proof. unfold absent. apply forallb_app. Qed.

Lemma grouped_absent h sep groups :
  is_digit h = false → h ≠ sep → digit_groups groups →
  absent h (grouped sep groups) = true.
Proof.
  intros Hh Hsep Hgroups. destruct Hgroups as [|g gs Hg Hgs]; [done|].
  cbn [grouped]. rewrite absent_app, (digit_absent _ _ Hh Hg). cbn [andb].
  induction Hgs as [|x gs Hx Hgs IH]; [done|].
  rewrite bind_cons, absent_app. cbn [absent forallb].
  destruct (Ascii.eqb_spec h sep) as [? | _]; [done|]. cbn [negb andb].
  fold (absent h x). by rewrite (digit_absent _ _ Hh Hx), IH.
Qed.

Lemma replace_grouped sep new groups first :
  is_digit sep = false → digit_groups (first :: groups) →
  replace [sep] new (grouped sep (first :: groups))
  = (first ++ (groups ≫= app new))%list.
Proof.
  intros Hsep [Hf Hgroups]%Forall_cons. cbn [grouped].
  rewrite replace_char_app, (absent_replace sep [] new first)
    by by apply digit_absent.
  f_equal. induction Hgroups as [|x gs Hx Hgs IH]; [done|].
  rewrite !bind_cons, replace_char_app, replace_char_cons, Ascii.eqb_refl.
  rewrite (absent_replace sep [] new x) by by apply digit_absent.
  by rewrite IH.
Qed.

Lemma bind_app_nil (groups : list str) : groups ≫= app [] = concat groups.
Proof.
  induction groups as [|x gs IH]; [done|]. by rewrite bind_cons, IH.
Qed.

Lemma count_grouped sep groups first :
  is_digit sep = false → digit_groups (first :: groups) →
  count [sep] (grouped sep (first :: groups)) = length groups.
Proof.
  intros Hsep [Hf Hgroups]%Forall_cons. cbn [grouped].
  rewrite count_char_app, (absent_count sep [] first)
    by by apply digit_absent.
  induction Hgroups as [|x gs Hx Hgs IH]; [done|].
  rewrite bind_cons, count_char_app, count_char_cons, Ascii.eqb_refl.
  rewrite (absent_count sep [] x) by by apply digit_absent.
  cbn [length]. cbn [Nat.add] in *. lia.
Qed.

Lemma grouped_snoc sep first groups last_group :
  grouped sep (first :: groups ++ [last_group])
  = (grouped sep (first :: groups) ++ sep :: last_group)%list.
Proof.
  cbn [grouped]. rewrite bind_app, bind_singleton. by rewrite <- app_assoc.
Qed.

Lemma concat_absent h groups :
  is_digit h = false → digit_groups groups → absent h (concat groups) = true.
Proof.
  intros Hh. induction 1 as [|x gs Hx Hgs IH]; [done|].
  cbn [concat]. by rewrite absent_app, (digit_absent _ _ Hh Hx), IH.
Qed.

Lemma normalize_unfold text :
  normalize_separators text
  = if Nat.ltb 0 (count [","%char] text) && Nat.ltb 0 (count ["."%char] text)
    then
      if Z.ltb (rfind ["."%char] text) (rfind [","%char] text)
      then replace [","%char] ["."%char] (replace ["."%char] [] text)
      else replace [","%char] [] text
    else if Nat.ltb 0 (count [","%char] text) then
      if Z.eqb (Z.of_nat (length text) - rfind [","%char] text - 1) 2
      then replace [","%char] [] (replace_first [","%char] ["."%char] text)
      else replace [","%char] [] text
    else text.
Proof. reflexivity. Qed.

(** How the separators of a number are read.  With a period after the
    commas, the commas are dropped; with a comma after the periods, the
    periods are dropped and the comma becomes the decimal point.  With
    commas only, two digits after the last comma make the first comma the
    decimal point, and any other number of digits makes every comma a
    thousands separator.  With periods only the text is left as it is. *)
Theorem separators_decide_decimal_point (first : str) (groups : list str)
    (fraction : str) :
  digit_groups (first :: groups) → forallb is_digit fraction = true →
  normalize_separators (grouped "," (first :: groups) ++ "."%char :: fraction)
  = (concat (first :: groups) ++ "."%char :: fraction)%list
  ∧ (groups ≠ [] →
     normalize_separators (grouped "." (first :: groups) ++ ","%char :: fraction)
     = (concat (first :: groups) ++ "."%char :: fraction)%list)
  ∧ normalize_separators (grouped "," (first :: groups))
    = match last groups with
      | Some last_group =>
        if Nat.eqb (length last_group) 2
        then (first ++ "."%char :: concat groups)%list
        else concat (first :: groups)
      | None => first
      end
  ∧ normalize_separators (grouped "." (first :: groups))
    = grouped "." (first :: groups).
Proof.
  intros Hgroups Hfraction.
  assert (Hcomma : is_digit "," = false) by reflexivity.
  assert (Hperiod : is_digit "." = false) by reflexivity.
  assert (Hfc : absent "," fraction = true) by by apply digit_absent.
  assert (Hfp : absent "." fraction = true) by by apply digit_absent.
  assert (Hgc : absent "," (grouped "." (first :: groups)) = true)
    by by apply grouped_absent.
  assert (Hgp : absent "." (grouped "," (first :: groups)) = true)
    by by apply grouped_absent.
  assert (Hcc : absent "," (concat (first :: groups)) = true).
  { by apply concat_absent. }
  rewrite !normalize_unfold.
  split; [|split; [|split]].
  - rewrite !count_char_app, !count_char_cons.
    rewrite (count_grouped "," groups first) by done.
    rewrite !(absent_count _ [] fraction), (absent_count "." []) by done.
    cbn [Ascii.eqb Bool.eqb Nat.add].
    destruct groups as [|g gs]; [by cbn; rewrite !app_nil_r|].
    cbn [length Nat.ltb Nat.leb andb Nat.add].
    rewrite rfind_last by done.
    assert (Hlt : (rfind [","%char] (grouped "," (first :: g :: gs)
                                      ++ "."%char :: fraction)
                   < Z.of_nat (length (grouped "," (first :: g :: gs))))%Z).
    { unfold rfind. rewrite rfind_go_app, rfind_go_absent.
      - apply rfind_bound.
      - cbn [absent forallb]. by rewrite andb_true_iff. }
    destruct (Z.ltb_spec (Z.of_nat (length (grouped "," (first :: g :: gs))))
                (rfind [","%char] (grouped "," (first :: g :: gs)
                                   ++ "."%char :: fraction))); [lia|].
    rewrite replace_char_app, replace_grouped, bind_app_nil by done.
    rewrite replace_char_cons. cbn [Ascii.eqb Bool.eqb app].
    by rewrite absent_replace.
  - intros Hne.
    rewrite !count_char_app, !count_char_cons.
    rewrite (count_grouped "." groups first) by done.
    rewrite !(absent_count _ [] fraction), (absent_count "," []) by done.
    cbn [Ascii.eqb Bool.eqb Nat.add].
    destruct groups as [|g gs]; [done|].
    cbn [length Nat.ltb Nat.leb andb Nat.add].
    rewrite rfind_last by done.
    assert (Hlt : (rfind ["."%char] (grouped "." (first :: g :: gs)
                                      ++ ","%char :: fraction)
                   < Z.of_nat (length (grouped "." (first :: g :: gs))))%Z).
    { unfold rfind. rewrite rfind_go_app, rfind_go_absent.
      - apply rfind_bound.
      - cbn [absent forallb]. by rewrite andb_true_iff. }
    destruct (Z.ltb_spec (rfind ["."%char] (grouped "." (first :: g :: gs)
                                           ++ ","%char :: fraction))
                (Z.of_nat (length (grouped "." (first :: g :: gs)))));
      [|lia].
    rewrite (replace_char_app "."), replace_grouped, bind_app_nil by done.
    rewrite (replace_char_cons "."). cbn [Ascii.eqb Bool.eqb app].
    rewrite (absent_replace "." [] [] fraction) by done.
    rewrite replace_char_app, replace_char_cons. cbn [Ascii.eqb Bool.eqb].
    by rewrite !absent_replace.
  - rewrite (count_grouped "," groups first), (absent_count "." []) by done.
    rewrite andb_false_r.
    destruct groups as [|g gs _] using rev_ind;
      [by cbn; rewrite app_nil_r|].
    rewrite last_snoc, length_app. cbn [length].
    replace (Nat.ltb 0 (length gs + 1)) with true
      by (symmetry; apply Nat.ltb_lt; lia).
    apply Forall_cons in Hgroups as [Hfirst Hgroups].
    apply Forall_app in Hgroups as [Hgs Hg].
    apply Forall_cons in Hg as [Hg _].
    rewrite grouped_snoc, rfind_last by by apply digit_absent.
    rewrite length_app. cbn [length].
    replace (Z.of_nat (length (grouped "," (first :: gs)) + S (length g))
             - Z.of_nat (length (grouped "," (first :: gs))) - 1)%Z
      with (Z.of_nat (length g)) by lia.
    replace (Z.eqb (Z.of_nat (length g)) 2) with (Nat.eqb (length g) 2)
      by (destruct (Nat.eqb_spec (length g) 2), (Z.eqb_spec (Z.of_nat (length g)) 2);
          done || lia).
    rewrite <- grouped_snoc.
    assert (Hall : digit_groups (first :: gs ++ [g])).
    { apply Forall_cons. split; [done|]. apply Forall_app. split; [done|].
      by constructor. }
    destruct (Nat.eqb (length g) 2).
    + destruct (gs ++ [g])%list as [|x xs] eqn:Hxs; [by destruct gs|].
      cbn [grouped]. rewrite bind_cons. cbn [app].
      rewrite replace_first_char by by apply digit_absent.
      rewrite replace_char_app, (absent_replace "," [] [] first)
        by by apply digit_absent.
      cbn [app]. rewrite replace_char_cons. cbn [Ascii.eqb Bool.eqb app].
      apply Forall_cons in Hall as [_ Hall].
      pose proof (replace_grouped "," [] xs x Hcomma Hall) as Hr.
      cbn [grouped] in Hr. rewrite Hr, bind_app_nil. done.
    + by rewrite replace_grouped, bind_app_nil.
  - by rewrite (absent_count "," []).
Qed.

Lemma separators_decide_decimal_point_witness :
  normalize_separators (lit "1,234,567.89") = lit "1234567.89"
  ∧ normalize_separators (lit "1.234.567,89") = lit "1234567.89"
  ∧ normalize_separators (lit "12,34") = lit "12.34"
  ∧ normalize_separators (lit "1.234.567") = lit "1.234.567".
Proof.
  destruct (separators_decide_decimal_point (lit "1")
              [lit "234"; lit "567"] (lit "89"))
    as (H1 & H2 & _ & H4); [by repeat constructor | reflexivity|].
  destruct (separators_decide_decimal_point (lit "12") [lit "34"] (lit ""))
    as (_ & _ & H3 & _); [by repeat constructor | reflexivity|].
  split; [exact H1|]. split; [by apply H2|]. split; [exact H3 | exact H4].
Defined.

End SeparatorProperties.

Section FlaggingProperties.

Import Validator ValidationWorker.

Variable F : float_format.
Variable cfg : config.

Lemma add_warning_warnings r w : warnings (add_warning r w) ≠ [].
Proof. cbn. by destruct (warnings r). Qed.

(** Confidence validation without a warning: no metric is below the
    threshold. *)
Lemma confidence_warnings_nil metrics extraction :
  warnings (validate_confidence F cfg metrics extraction) = [] →
  List.filter
    (fun m => Qltb (confidence_score m) (ocr_confidence_threshold_metric cfg))
    metrics = [].
Proof.
  unfold validate_confidence. cbv zeta.
  destruct (List.filter _ metrics) as [|m low]; [done|].
  cbn [fmap list_fmap].
  destruct (Qltb (default 0%Q (ocr_confidence_avg extraction)) 0.60);
    cbn [add_error warnings]; intros H; by apply add_warning_warnings in H.
Qed.

Lemma filter_fmap_nil {A B} (f : A → B) (p : B → bool) (q : A → bool)
    (l : list A) :
  List.filter p (f <$> l) = [] →
  List.filter (fun x => p (f x) && q x) l = [].
Proof.
  induction l as [|x l IH]; [done|]. cbn.
  destruct (p (f x)); [done|]. cbn. apply IH.
Qed.

Lemma review_not_required metrics extraction :
  requires_manual_review (validate_all F cfg metrics extraction) = false →
  warnings (validate_all F cfg metrics extraction) = [].
Proof.
  unfold requires_manual_review, validate_all. cbv zeta.
  cbn [validation_status warnings errors].
  by repeat case_match.
Qed.

(** When validation does not require a review there is nothing to flag, so
    the metrics flagged after validation are always those
    [_flag_low_confidence_metrics] picks: the metrics below the metric
    threshold that do not carry the flag yet, in order.  Metrics whose flag
    already says whether they are below the threshold give none. *)
Theorem flagging_follows_confidence (metrics : list stored_metric)
    (extraction : extraction_result) :
  (validate_and_flag F cfg metrics extraction).2
  = _flag_low_confidence_metrics cfg metrics
  ∧ (∀ metric_id,
       metric_id ∈ _flag_low_confidence_metrics cfg metrics
       ↔ ∃ metric, metric ∈ metrics ∧ id metric = metric_id
           ∧ (confidence_score (metric_of metric)
              < ocr_confidence_threshold_metric cfg)%Q
           ∧ flagged_for_review metric = false)
  ∧ (Forall (fun metric =>
               flagged_for_review metric
               = Qltb (confidence_score (metric_of metric))
                      (ocr_confidence_threshold_metric cfg)) metrics →
     _flag_low_confidence_metrics cfg metrics = []).
Proof.
  split; [|split].
  - unfold validate_and_flag. cbn [snd].
    destruct (requires_manual_review _) eqn:Hreview; [done|].
    apply review_not_required in Hreview.
    unfold validate_all in Hreview. cbv zeta in Hreview.
    cbn [warnings] in Hreview.
    apply app_eq_nil in Hreview as [_ Hreview].
    apply app_eq_nil in Hreview as [_ Hreview].
    apply app_eq_nil in Hreview as [Hreview _].
    apply confidence_warnings_nil in Hreview.
    unfold _flag_low_confidence_metrics.
    by rewrite (filter_fmap_nil metric_of
                  (fun m => Qltb (confidence_score m)
                                 (ocr_confidence_threshold_metric cfg))
                  (fun metric => negb (flagged_for_review metric))).
  - intros metric_id. unfold _flag_low_confidence_metrics.
    rewrite list_elem_of_fmap. split.
    + intros (metric & -> & Hin).
      apply list_elem_of_In, filter_In in Hin as [Hin Hc].
      apply andb_true_iff in Hc as [Hlow Hflag].
      exists metric. split; [by apply list_elem_of_In|]. split; [done|].
      split; [by apply Qltb_lt | by apply negb_true_iff].
    + intros (metric & Hin & <- & Hlow & Hflag). exists metric.
      split; [done|]. apply list_elem_of_In, filter_In.
      split; [by apply list_elem_of_In|].
      apply andb_true_iff. split; [by apply Qltb_lt | by rewrite Hflag].
  - intros Hall. unfold _flag_low_confidence_metrics.
    induction Hall as [|metric l Hm Hl IH]; [done|].
    cbn [List.filter]. rewrite <- Hm.
    destruct (flagged_for_review metric); cbn; exact IH.
Qed.

End FlaggingProperties.

Lemma flagging_follows_confidence_witness :
  ValidationWorker._flag_low_confidence_metrics default_config
    [ ValidationWorker.mk_stored_metric "metric-1"
        (Validator.mk_metric "revenue" "Total Revenue" 1000000 0.65) true ]
  = [].
Proof.
  destruct (flagging_follows_confidence fraction_format default_config
              [ ValidationWorker.mk_stored_metric "metric-1"
                  (Validator.mk_metric "revenue" "Total Revenue" 1000000 0.65)
                  true ]
              (Validator.mk_extraction_result (Some 0.9%Q)))
    as (_ & _ & H).
  apply H. repeat constructor.
Defined.

Section ValueCellProperties.

Import Str Tables NumberParser FinancialParser.

Lemma replace_char_nil h s :
  replace [h] [] s = List.filter (fun c => negb (Ascii.eqb h c)) s.
Proof.
  induction s as [|c s IH]; [done|].
  rewrite replace_char_cons, IH. cbn [List.filter].
  by destruct (Ascii.eqb h c).
Qed.

Lemma filter_filter {A} (f g : A → bool) (l : list A) :
  List.filter f (List.filter g l) = List.filter (fun x => g x && f x) l.
Proof.
  induction l as [|x l IH]; [done|]. cbn [List.filter].
  destruct (g x); cbn [List.filter andb]; [destruct (f x)|]; by rewrite IH.
Qed.

(** What is left after the seven characters are removed. *)
Lemma cleaned_counted text :
  foldl (fun text old => replace old [] text) text number_characters
  = List.filter counted text.
Proof.
  unfold number_characters. cbn [fmap list_fmap foldl].
  change (lit ",") with [","%char]. change (lit ".") with ["."%char].
  change (lit "$") with ["$"%char]. change (lit "(") with ["("%char].
  change (lit ")") with [")"%char]. change (lit "-") with ["-"%char].
  change (lit " ") with [" "%char].
  rewrite !replace_char_nil, !filter_filter.
  apply filter_ext. intros c. unfold counted. cbn [forallb].
  by rewrite andb_true_r, !andb_assoc.
Qed.

Lemma len_one_byte s : one_byte s = true → len s = length s.
Proof.
  unfold len, one_byte. induction s as [|c s IH]; [done|].
  cbn [forallb List.filter]. intros [Hc Hs]%andb_true_iff.
  rewrite Hc. cbn [length]. by rewrite IH.
Qed.

(** More than half. *)
Lemma above_half (d n : nat) :
  (0 < n)%nat →
  Qltb 0.5 (inject_Z (Z.of_nat d) / inject_Z (Z.of_nat n)) = true
  ↔ (n < 2 * d)%nat.
Proof.
  intros Hn.
  assert (Hpos : (0 < inject_Z (Z.of_nat n))%Q).
  { change 0%Q with (inject_Z 0). rewrite <- Zlt_Qlt. lia. }
  rewrite Qltb_lt. split.
  - intros H. apply (Qmult_lt_r _ _ _ Hpos) in H.
    assert (Heq : (inject_Z (Z.of_nat d) / inject_Z (Z.of_nat n)
                   * inject_Z (Z.of_nat n) == inject_Z (Z.of_nat d))%Q)
      by (field; lra).
    rewrite Heq in H.
    assert (H' : (inject_Z (Z.of_nat n) < inject_Z (2 * Z.of_nat d))%Q).
    { rewrite inject_Z_mult. change (inject_Z 2) with 2%Q. lra. }
    rewrite <- Zlt_Qlt in H'. lia.
  - intros H. apply (Qmult_lt_r _ _ _ Hpos).
    assert (Heq : (inject_Z (Z.of_nat d) / inject_Z (Z.of_nat n)
                   * inject_Z (Z.of_nat n) == inject_Z (Z.of_nat d))%Q)
      by (field; lra).
    rewrite Heq.
    assert (H' : (inject_Z (Z.of_nat n) < inject_Z (2 * Z.of_nat d))%Q)
      by (rewrite <- Zlt_Qlt; lia).
    rewrite inject_Z_mult in H'. change (inject_Z 2) with 2%Q in H'. lra.
Qed.

(** [_looks_like_number] on a text of one-byte characters: among the
    characters that are counted, the digits are more than half. *)
Lemma looks_like_number_spec text :
  one_byte text = true →
  _looks_like_number text = true
  ↔ (length (List.filter counted text)
     < 2 * length (List.filter is_digit (List.filter counted text)))%nat.
Proof.
  intros Hbytes. unfold _looks_like_number. cbv zeta.
  rewrite cleaned_counted.
  assert (Hlen : len (List.filter counted text)
                 = length (List.filter counted text)).
  { apply len_one_byte. unfold one_byte in *. rewrite forallb_forall in *.
    intros c Hc. apply Hbytes. by apply filter_In in Hc as [? _]. }
  destruct (List.filter counted text) as [|c cleaned] eqn:Hcleaned.
  - cbn. split; [done | lia].
  - rewrite Hlen. apply above_half. cbn [length]. lia.
Qed.

Lemma digits_counted ds :
  forallb is_digit ds = true → List.filter counted ds = ds.
Proof.
  induction ds as [|c ds IH]; [done|]. cbn [forallb List.filter].
  intros [Hc Hds]%andb_true_iff.
  assert (counted c = true) as ->
    by (destruct c as [[] [] [] [] [] [] [] []]; done).
  by rewrite IH.
Qed.

Lemma digits_digits ds :
  forallb is_digit ds = true → List.filter is_digit ds = ds.
Proof.
  induction ds as [|c ds IH]; [done|]. cbn [forallb List.filter].
  intros [Hc Hds]%andb_true_iff. by rewrite Hc, IH.
Qed.

Lemma digits_one_byte ds : forallb is_digit ds = true → one_byte ds = true.
Proof.
  unfold one_byte. rewrite !forallb_forall. intros H c Hc.
  specialize (H c Hc). destruct c as [[] [] [] [] [] [] [] []]; done.
Qed.

Lemma suffix_counted c m :
  suffix_multiplier c = Some m →
  counted c = true ∧ is_digit c = false ∧ between "128" "191" c = false.
Proof. destruct c as [[] [] [] [] [] [] [] []]; done. Qed.

(** A value with a magnitude suffix is taken for a number only when it has
    at least two digits: with digits before and after the point and one of
    the suffix letters, [_looks_like_number] holds exactly when the digits
    are two or more.  Without the suffix it holds always, and a dollar sign
    or parentheses around the text change nothing. *)
Theorem suffixed_value_needs_two_digits (int_digits frac_digits : str)
    (suffix : ascii) (multiplier : Q) :
  nonempty_digits int_digits = true →
  forallb is_digit frac_digits = true →
  suffix_multiplier suffix = Some multiplier →
  let numeral := (int_digits ++ fraction_rendering frac_digits)%list in
  (_looks_like_number (numeral ++ [suffix]) = true
   ↔ (2 <= length int_digits + length frac_digits)%nat)
  ∧ _looks_like_number numeral = true
  ∧ _looks_like_number ("$"%char :: numeral ++ [suffix])
    = _looks_like_number (numeral ++ [suffix])
  ∧ _looks_like_number ("("%char :: numeral ++ [suffix; ")"%char])
    = _looks_like_number (numeral ++ [suffix]).
Proof.
  intros [Hne Hint]%nonempty_digits_spec Hfrac Hsuffix numeral.
  destruct (suffix_counted _ _ Hsuffix) as (Hc & Hd & Hb).
  assert (Hnum : List.filter counted numeral = (int_digits ++ frac_digits)%list).
  { subst numeral. rewrite List.filter_app, digits_counted by done. f_equal.
    destruct frac_digits as [|f fs]; [done|].
    cbn [fraction_rendering]. rewrite (filter_cons_app counted "."%char).
    change (counted ".") with false. cbn [app].
    by apply digits_counted. }
  assert (Hall : forallb is_digit (int_digits ++ frac_digits) = true)
    by (rewrite forallb_app; by apply andb_true_iff).
  assert (Hbytes : one_byte numeral = true).
  { subst numeral. unfold one_byte. rewrite forallb_app.
    apply andb_true_iff. split; [by apply digits_one_byte|].
    destruct frac_digits as [|f fs]; [done|].
    cbn [fraction_rendering forallb]. by apply (digits_one_byte (f :: fs)). }
  assert (Hcleaned : List.filter counted (numeral ++ [suffix])
                     = ((int_digits ++ frac_digits) ++ [suffix])%list).
  { rewrite List.filter_app, Hnum. cbn [List.filter]. by rewrite Hc. }
  assert (Hmain : _looks_like_number (numeral ++ [suffix]) = true
                  ↔ (2 <= length int_digits + length frac_digits)%nat).
  { rewrite looks_like_number_spec.
    - rewrite Hcleaned, List.filter_app, digits_digits by done.
      cbn [List.filter]. rewrite Hd, app_nil_r, !length_app. cbn [length].
      lia.
    - unfold one_byte in *. rewrite forallb_app, Hbytes. cbn [forallb].
      by rewrite Hb. }
  split; [done|]. split; [|split].
  - apply looks_like_number_spec; [done|].
    rewrite Hnum, digits_digits by done. rewrite length_app.
    destruct int_digits; [done|]. cbn [length]. lia.
  - unfold _looks_like_number. cbv zeta. rewrite !cleaned_counted.
    cbn [List.filter]. by change (counted "$") with false.
  - unfold _looks_like_number. cbv zeta. rewrite !cleaned_counted.
    cbn [List.filter]. change (counted "(") with false. cbn match.
    replace (numeral ++ [suffix; ")"%char])%list
      with ((numeral ++ [suffix]) ++ [")"%char])%list
      by by rewrite <- app_assoc.
    rewrite (List.filter_app _ (numeral ++ [suffix])). cbn [List.filter].
    change (counted ")") with false. cbn match. by rewrite app_nil_r.
Qed.

Lemma suffixed_value_needs_two_digits_witness :
  _looks_like_number (lit "5M") = false
  ∧ _looks_like_number (lit "1.5M") = true.
Proof.
  destruct (suffixed_value_needs_two_digits (lit "5") (lit "") "M" 1000000)
    as (H1 & _); [reflexivity..|].
  destruct (suffixed_value_needs_two_digits (lit "1") (lit "5") "M" 1000000)
    as (H2 & _); [reflexivity..|].
  split.
  - apply not_true_iff_false. intros H. apply H1 in H. cbn in H. lia.
  - apply H2. cbn. lia.
Defined.

End ValueCellProperties.

Section ExtractionProperties.

Import Str Tables NumberParser FinancialParser.

Variable re_search : string → str → bool.

Lemma find_value_cells_spec cells label_cell value_cell :
  value_cell ∈ _find_value_cells cells label_cell
  ↔ value_cell ∈ cells ∧ right_of label_cell value_cell
    ∧ strip (content value_cell) ≠ []
    ∧ _looks_like_number (strip (content value_cell)) = true.
Proof.
  unfold _find_value_cells, right_of. cbv zeta.
  rewrite list_elem_of_In, filter_In, <- list_elem_of_In.
  rewrite !andb_true_iff, Z.eqb_eq, Z.ltb_lt.
  destruct (strip (content value_cell)); split.
  - by intros (? & ? & ?).
  - by intros (? & ? & ? & ?).
  - intros (? & (? & ?) & ?). by repeat split.
  - intros (? & (? & ?) & ? & ?). by repeat split.
Qed.

Lemma metric_of_value_cell_spec metric_type metric_name label_cell value_cell m :
  metric_of_value_cell metric_type metric_name label_cell value_cell = Some m →
  FinancialParser.metric_type m = metric_type
  ∧ FinancialParser.metric_name m = metric_name
  ∧ FinancialParser.label_cell m = label_cell
  ∧ FinancialParser.value_cell m = value_cell
  ∧ (∃ detected,
       parse_financial_number (PyStr (content value_cell))
       = (Some (value m), detected)
       ∧ currency m = default "USD" detected)
  ∧ FinancialParser.confidence m = default 1%Q (Tables.confidence value_cell).
Proof.
  unfold metric_of_value_cell. cbv zeta.
  destruct (parse_financial_number (PyStr (content value_cell)))
    as [[parsed|] detected] eqn:Hparse; [|discriminate].
  intros [= <-]. cbn. repeat split; try done.
  exists detected. split; [done|].
  destruct detected as [code|]; [|done]. cbn.
  apply parse_currency in Hparse. symmetry in Hparse.
  apply detect_currency_codes in Hparse.
  repeat (apply elem_of_cons in Hparse as [-> | Hparse]; [done|]).
  by apply elem_of_nil in Hparse.
Qed.

Lemma VALUE_RANGES_types :
  ∀ definition, definition ∈ metric_definitions →
    is_Some (Validator.VALUE_RANGES !! definition.1.1).
Proof.
  intros definition Hin. unfold metric_definitions in Hin.
  repeat (apply elem_of_cons in Hin as [-> | Hin]; [by eexists|]).
  by apply elem_of_nil in Hin.
Qed.

(** Where an extracted metric comes from: a metric definition, a label
    cell that matches one of its patterns, and a value cell found for it. *)
Lemma extracted_metric_origin table m :
  m ∈ extract_income_statement_metrics re_search table →
  ∃ type name patterns label value_cell,
    (type, name, patterns) ∈ metric_definitions
    ∧ label ∈ cells table
    ∧ existsb (fun pattern => re_search pattern (strip (lower (content label))))
              patterns = true
    ∧ value_cell ∈ _find_value_cells (cells table) label
    ∧ metric_of_value_cell type name label value_cell = Some m.
Proof.
  unfold extract_income_statement_metrics.
  rewrite list_elem_of_bind. intros ([[type name] patterns] & Hm & Hdef).
  unfold _extract_metric_from_table in Hm. cbv zeta in Hm.
  apply list_elem_of_bind in Hm as (label & Hm & Hlabel).
  destruct (existsb _ patterns) eqn:Hmatch;
    [|by apply elem_of_nil in Hm].
  apply list_elem_of_omap in Hm as (value_cell & Hvalue & Hmetric).
  by exists type, name, patterns, label, value_cell.
Qed.

(** Every metric extracted from a table has one of the seven metric types,
    each of which has a value range, so that range validation skips none of
    them.  Its label cell is a cell of the table whose lower-cased text
    matches a pattern of the type; its value cell is a cell of the same row
    to the right whose text looks like a number; its value is what the
    number parser reads in that cell, its currency the one detected there
    or USD, and its confidence that of the value cell or 1. *)
Theorem extracted_metrics_sound (table : table) (m : extracted_metric) :
  m ∈ extract_income_statement_metrics re_search table →
  is_Some (Validator.VALUE_RANGES !! metric_type m)
  ∧ (∃ patterns, (metric_type m, metric_name m, patterns) ∈ metric_definitions
       ∧ ∃ pattern, pattern ∈ patterns
           ∧ re_search pattern (strip (lower (content (label_cell m)))) = true)
  ∧ label_cell m ∈ cells table
  ∧ value_cell m ∈ cells table
  ∧ right_of (label_cell m) (value_cell m)
  ∧ _looks_like_number (strip (content (value_cell m))) = true
  ∧ (∃ detected,
       parse_financial_number (PyStr (content (value_cell m)))
       = (Some (value m), detected)
       ∧ currency m = default "USD" detected)
  ∧ confidence m = default 1%Q (Tables.confidence (value_cell m)).
Proof.
  intros (type & name & patterns & label & value_cell
          & Hdef & Hlabel & Hmatch & Hvalue & Hmetric)%extracted_metric_origin.
  apply find_value_cells_spec in Hvalue as (Hin & Hright & _ & Hlooks).
  apply metric_of_value_cell_spec
    in Hmetric as (Ht & Hn & Hl & Hv & Hparse & Hconf).
  rewrite Ht, Hn, Hl, Hv.
  split; [apply (VALUE_RANGES_types _ Hdef)|].
  split.
  { exists patterns. split; [done|].
    apply existsb_exists in Hmatch as (pattern & Hp & Hs).
    exists pattern. split; [by apply list_elem_of_In | done]. }
  done.
Qed.

End ExtractionProperties.

Section ExtractionWitness.

Import Str Tables NumberParser FinancialParser.

Lemma extracted_metrics_sound_witness :
  ∃ m, m ∈ extract_income_statement_metrics literal_search revenue_row
       ∧ right_of (label_cell m) (value_cell m)
       ∧ currency m = "USD".
Proof.
  pose (m := mk_extracted_metric "revenue" "Total Revenue"
               (Binary64.round 1234.56) "USD"
               (mk_cell 2 0 (lit "Total Revenue") (Some 0.98%Q))
               (mk_cell 2 1 (lit "$1,234.56") (Some 0.93%Q)) 0.93%Q).
  assert (Hm : m ∈ extract_income_statement_metrics literal_search revenue_row)
    by (vm_compute; apply list_elem_of_here).
  destruct (extracted_metrics_sound literal_search revenue_row m Hm)
    as (_ & _ & _ & _ & Hright & _).
  exists m. split; [exact Hm|]. split; [exact Hright | reflexivity].
Defined.

End ExtractionWitness.

Section WorkerProperties.

Import Str Tables ConfidenceScorer ConfidenceScoring FinancialParser
  ExtractionWorker.

Variable cfg : config.
Variable re_search : string → str → bool.

(** Every financial metric of a document comes from a table detected as an
    income statement and is a metric extracted from that table.  Its
    confidence score lies between 0 and 1 and it is flagged for review
    exactly when the score is below the metric threshold of the
    configuration.  A value cell without a confidence counts as fully
    confident: with a text of at least two characters the score is 1; and
    a value cell with a confidence that is not negative never scores above
    it. *)
Theorem financial_metrics_scored (tables : list table) (m : financial_metric) :
  m ∈ _extract_financial_metrics cfg re_search tables →
  (∃ table, table ∈ tables
     ∧ detect_income_statement re_search table = true
     ∧ extracted m ∈ extract_income_statement_metrics re_search table)
  ∧ (0 <= confidence_score m <= 1)%Q
  ∧ (ExtractionWorker.flagged_for_review m = true
     ↔ (confidence_score m < ocr_confidence_threshold_metric cfg)%Q)
  ∧ (Tables.confidence (value_cell (extracted m)) = None →
     (2 <= len (strip (content (value_cell (extracted m)))))%nat →
     (confidence_score m == 1)%Q)
  ∧ (∀ cell_confidence,
       Tables.confidence (value_cell (extracted m)) = Some cell_confidence →
       (0 <= cell_confidence)%Q →
       (confidence_score m <= cell_confidence)%Q).
Proof.
  unfold _extract_financial_metrics. rewrite list_elem_of_bind.
  intros (table & Hm & Htable).
  destruct (detect_income_statement re_search table) eqn:Hdetect;
    [|by apply elem_of_nil in Hm].
  apply list_elem_of_fmap in Hm as (metric_data & -> & Hdata).
  unfold to_financial_metric. cbv zeta.
  cbn [extracted confidence_score ExtractionWorker.flagged_for_review].
  assert (Hconf : FinancialParser.confidence metric_data
                  = default 1%Q (Tables.confidence (value_cell metric_data))).
  { apply extracted_metric_origin in Hdata
      as (type & name & patterns & label & value_cell
          & _ & _ & _ & _ & Hmetric).
    by apply metric_of_value_cell_spec in Hmetric as (_ & _ & _ & <- & _ & ?). }
  rewrite Hconf. unfold calculate_metric_confidence. cbv zeta. cbn [negb].
  set (c := default 1%Q (Tables.confidence (value_cell metric_data))).
  set (short := Nat.ltb (len (strip (content (value_cell metric_data)))) 2).
  destruct (clamp_spec (if short then (c * 0.7)%Q else c)) as (Hb & Hle & Heq).
  split; [by exists table|]. split; [exact Hb|]. split; [|split].
  - unfold should_flag_for_review. apply Qltb_lt.
  - intros Hnone Hlen. apply Nat.ltb_ge in Hlen. subst short c.
    rewrite Hlen, Hnone in *. cbn [default from_option] in *. unfold id in *. apply Heq. lra.
  - intros cell_confidence Hsome Hpos. subst c. rewrite Hsome in *.
    cbn [default from_option] in *. unfold id in *. apply clamp_le; [|done].
    subst short. destruct (Nat.ltb _ 2); lra.
Qed.

End WorkerProperties.

Section WorkerWitness.

Import Str Tables ConfidenceScorer ConfidenceScoring FinancialParser
  ExtractionWorker.

Lemma financial_metrics_scored_witness :
  ∃ m, m ∈ _extract_financial_metrics default_config literal_search
             [income_statement]
       ∧ (0 <= confidence_score m <= 1)%Q
       ∧ ExtractionWorker.flagged_for_review m = false.
Proof.
  pose (m := mk_financial_metric
               (mk_extracted_metric "revenue" "Total Revenue"
                  (Binary64.round 1234.56) "USD"
                  (mk_cell 2 0 (lit "Total Revenue") (Some 0.98%Q))
                  (mk_cell 2 1 (lit "$1,234.56") (Some 0.93%Q)) 0.93%Q)
               0.93%Q false).
  assert (Hm : m ∈ _extract_financial_metrics default_config literal_search
                     [income_statement])
    by (vm_compute; apply list_elem_of_here).
  destruct (financial_metrics_scored default_config literal_search
              [income_statement] m Hm) as (_ & Hb & _).
  exists m. split; [exact Hm|]. split; [exact Hb | reflexivity].
Defined.

End WorkerWitness.
